(** * RealPic: theme configuration, dimension resolution, layout and flip state

    A shallow embedding of [realpic.js] (the [ConfigParser] class and the
    [RealPic] controller).

    Conventions of the embedding.
    - A number read from JSON or parsed from a string is a [jsnum]: an
      exact rational ([Q]), [NaN] or one of the two infinities; equality of
      finite results is [Qeq].  [_parseDimension] is stated on these.
    - The arithmetic of the layout and of the pointer tilt is done on
      IEEE 754 binary64 numbers, the kernel's [float]: [*], [/], [+] and
      [-] are [PrimFloat.mul], [PrimFloat.div], [PrimFloat.add] and
      [PrimFloat.sub], so rounding, overflow, underflow, the sign of zero
      and [NaN] are those of the program.
    - Strings are sequences of code units below 256.
    - A value read from JSON is a [jsval]; an object is an association list
      in which the first binding of a key is the one a property read sees.
    - A JavaScript exception is the [Throw] case of [result]. *)

From Stdlib Require Import Floats.
From Stdlib Require Import ZArith QArith Qpower Qminmax Lqa Lia Bool Ascii String List.
From Stdlib Require Import DecimalString DecimalNat.
From stdpp Require Import strings gmap.
Import ListNotations.

Local Open Scope string_scope.

(** ** JavaScript numbers *)

Module Num.

Inductive jsnum : Type :=
| NaN
| Inf (negative : bool)
| Fin (q : Q).

Definition of_Z (z : Z) : jsnum := Fin (inject_Z z).

Definition of_N (n : N) : jsnum := of_Z (Z.of_N n).

Definition is_zero (q : Q) : bool := (Qnum q =? 0)%Z.

Definition is_neg (q : Q) : bool := (Qnum q <? 0)%Z.

(** [a * b] *)
Definition mul (a b : jsnum) : jsnum :=
  match a, b with
  | NaN, _ | _, NaN => NaN
  | Fin x, Fin y => Fin (x * y)
  | Inf s, Fin y | Fin y, Inf s =>
      if is_zero y then NaN else Inf (xorb s (is_neg y))
  | Inf s, Inf t => Inf (xorb s t)
  end.

(** [a / b] *)
Definition div (a b : jsnum) : jsnum :=
  match a, b with
  | NaN, _ | _, NaN => NaN
  | Fin x, Fin y =>
      if is_zero y
      then (if is_zero x then NaN else Inf (is_neg x))
      else Fin (x / y)
  | Fin _, Inf _ => Fin 0
  | Inf s, Fin y => Inf (xorb s (is_neg y))
  | Inf _, Inf _ => NaN
  end.

(** [a <= b]; every comparison with [NaN] is false. *)
Definition le (a b : jsnum) : bool :=
  match a, b with
  | NaN, _ | _, NaN => false
  | Fin x, Fin y => Qle_bool x y
  | Inf true, _ => true
  | _, Inf false => true
  | _, _ => false
  end.

(** Equality of numbers up to the representation of a rational. *)
Definition eqv (a b : jsnum) : Prop :=
  match a, b with
  | NaN, NaN => True
  | Inf s, Inf t => s = t
  | Fin x, Fin y => x == y
  | _, _ => False
  end.

End Num.

Export Num.

Infix "=n=" := Num.eqv (at level 70, no associativity).

(** ** Binary64 numbers *)

Module F64.

(** [Math.min(a, b)]: [NaN] when either is, and [-0] below [+0]. *)
Definition min (a b : float) : float :=
  if (is_nan a || is_nan b)%bool then nan
  else if (a <? b)%float then a
  else if (b <? a)%float then b
  else if get_sign a then a else b.

(** The rational that a mantissa and a binary exponent denote. *)
Definition mant (m e : Z) : Q := (inject_Z m * 2 ^ e)%Q.

Definition SFvalue (x : spec_float) : Q :=
  match x with
  | S754_finite s m e => if s then (- mant (Zpos m) e)%Q else mant (Zpos m) e
  | _ => 0%Q
  end.

(** The rational a finite number is; 0 for [NaN] and the infinities. *)
Definition value (x : float) : Q := SFvalue (Prim2SF x).



(** The sizes the layout results are stated for: far enough from overflow
    and underflow that no quotient or product of the layout leaves the
    normal range. *)
Definition tiny : Q := (2 ^ (-256))%Q.

Definition huge : Q := (2 ^ 256)%Q.

Definition sized (x : float) : Prop := (tiny <= value x /\ value x <= huge)%Q.

End F64.

(** ** JavaScript strings: [trim], [endsWith], [startsWith], [parseFloat] *)

Module Str.

Definition code (c : ascii) : N := N_of_ascii c.

(** WhiteSpace and LineTerminator code units below 256:
    TAB, LF, VT, FF, CR, SP and NBSP. *)
Definition is_white (c : ascii) : bool :=
  let n := code c in
  ((9 <=? n) && (n <=? 13) || (n =? 32) || (n =? 160))%N.

Definition is_digit (c : ascii) : bool :=
  let n := code c in ((48 <=? n) && (n <=? 57))%N.

Definition digit_val (c : ascii) : Z := Z.of_N (code c) - 48.

Fixpoint trimStart (s : string) : string :=
  match s with
  | String c r => if is_white c then trimStart r else s
  | EmptyString => EmptyString
  end.

Fixpoint trimEnd (s : string) : string :=
  match s with
  | String c r =>
      match trimEnd r with
      | EmptyString => if is_white c then EmptyString else String c EmptyString
      | r' => String c r'
      end
  | EmptyString => EmptyString
  end.

(** The first, respectively last, code unit exists and is not white
    space. *)
Definition head_nonwhite (p : string) : bool :=
  match p with
  | String c _ => negb (is_white c)
  | EmptyString => false
  end.

Fixpoint last_nonwhite (s : string) : bool :=
  match s with
  | EmptyString => false
  | String c EmptyString => negb (is_white c)
  | String _ r => last_nonwhite r
  end.

(** [s.trim()] *)
Definition trim (s : string) : string := trimEnd (trimStart s).

(** [s.startsWith(p)] *)
Definition startsWith (s p : string) : bool := String.prefix p s.

(** [s.endsWith(p)] *)
Fixpoint endsWith (s p : string) : bool :=
  if String.eqb s p then true
  else match s with
       | String _ r => endsWith r p
       | EmptyString => false
       end.

(** [s.slice(n)] for [0 <= n] *)
Fixpoint slice (n : nat) (s : string) : string :=
  match n, s with
  | S k, String _ r => slice k r
  | _, _ => s
  end.

(** The longest prefix of decimal digits, as the number it denotes together
    with how many digits were read, and the remaining text. *)
Fixpoint digits (acc : Z) (count : nat) (s : string) : Z * nat * string :=
  match s with
  | String c r =>
      if is_digit c then digits (10 * acc + digit_val c) (S count) r
      else (acc, count, s)
  | EmptyString => (acc, count, s)
  end.

Definition sign (s : string) : bool * string :=
  match s with
  | String "-" r => (true, r)
  | String "+" r => (false, r)
  | _ => (false, s)
  end.

(** The optional ExponentPart; it counts only when a digit follows. *)
Definition exponent (s : string) : Z :=
  match s with
  | String c r =>
      if (Ascii.eqb c "e" || Ascii.eqb c "E")%bool then
        let '(neg, r1) := sign r in
        let '(e, n, _) := digits 0 0 r1 in
        match n with
        | O => 0
        | _ => if neg then - e else e
        end
      else 0
  | EmptyString => 0
  end%Z.

(** [m * 10^e] *)
Definition scale10 (m e : Z) : Q :=
  if (0 <=? e)%Z then inject_Z (m * 10 ^ e)
  else Qmake m (Z.to_pos (10 ^ (- e))).

(** [parseFloat(s)]: leading white space is skipped, the longest prefix that
    is a StrDecimalLiteral is read, and [NaN] is the answer when there is
    none. *)
Definition parseFloat (s : string) : jsnum :=
  let '(neg, r) := sign (trimStart s) in
  if String.prefix "Infinity" r then Inf neg
  else
    let '(ip, ni, r1) := digits 0 0 r in
    let '(m, nf, r2) :=
      match r1 with
      | String "." r' =>
          digits ip 0 r'
      | _ => (ip, O, r1)
      end in
    match ni, nf with
    | O, O => NaN
    | _, _ =>
        let q := scale10 m (exponent r2 - Z.of_nat nf) in
        Fin (if neg then - q else q)
    end.

End Str.

(** ** JavaScript values *)

Module JS.

#[local] Set Warnings "-register-all".

Inductive jsval : Type :=
| VUndef
| VNull
| VBool (b : bool)
| VNum (n : jsnum)
| VStr (s : string)
| VArr (items : list jsval)
| VObj (fields : list (string * jsval)).

Inductive exn : Type :=
| TypeError (msg : string)
| SyntaxError (msg : string)
| Error (msg : string).

Inductive result (A : Type) : Type :=
| Ok (a : A)
| Throw (e : exn).

Arguments Ok {A} a.
Arguments Throw {A} e.

Definition bind {A B} (r : result A) (k : A -> result B) : result B :=
  match r with
  | Ok a => k a
  | Throw e => Throw e
  end.

Definition returns {A} (r : result A) : bool :=
  match r with Ok _ => true | Throw _ => false end.

(** ToBoolean *)
Definition truthy (v : jsval) : bool :=
  match v with
  | VUndef | VNull => false
  | VBool b => b
  | VNum NaN => false
  | VNum (Inf _) => true
  | VNum (Fin q) => negb (Num.is_zero q)
  | VStr s => negb (String.eqb s EmptyString)
  | VArr _ | VObj _ => true
  end.

Definition nullish (v : jsval) : bool :=
  match v with VUndef | VNull => true | _ => false end.

(** [v === undefined] *)
Definition is_undefined (v : jsval) : bool :=
  match v with VUndef => true | _ => false end.

(** [v === null] *)
Definition is_null (v : jsval) : bool :=
  match v with VNull => true | _ => false end.

(** [v === s] for a string literal [s] *)
Definition is_string (v : jsval) (s : string) : bool :=
  match v with VStr t => String.eqb t s | _ => false end.

(** [a || b] *)
Definition or_else (a b : jsval) : jsval := if truthy a then a else b.

(** [a ?? b] *)
Definition coalesce (a b : jsval) : jsval := if nullish a then b else a.

Fixpoint assoc (k : string) (fs : list (string * jsval)) : jsval :=
  match fs with
  | (k', v) :: rest => if String.eqb k k' then v else assoc k rest
  | [] => VUndef
  end.

(** [v.k] for the property names this program reads ([front], [back],
    [contentArea], [image], [background], [width], [height], [area], [side],
    [x], [y], [position], [fit], [style], [themePath], [contents], [type],
    [src]): none of them is defined on the
    prototype of a string, a number, a boolean, an array or a plain object,
    so the read finds an own property of an object or [undefined]; on
    [null] and [undefined] it throws. *)
Definition get (v : jsval) (k : string) : result jsval :=
  match v with
  | VUndef | VNull =>
      Throw (TypeError ("Cannot read properties of null or undefined: " +:+ k))
  | VObj fs => Ok (assoc k fs)
  | _ => Ok VUndef
  end.

End JS.

Export JS.

Notation "x <- e1 ;; e2" := (JS.bind e1 (fun x => e2))
  (at level 100, e1 at next level, right associativity).

(** ** Data model of a normalized theme configuration *)

Module SideConfig.

Record t : Type := mk {
  image : jsval;
  background : jsval;
  width : jsval;
  height : jsval
}.

Definition set_background (v : jsval) (c : t) : t :=
  mk (image c) v (width c) (height c).

Definition set_image (v : jsval) (c : t) : t :=
  mk v (background c) (width c) (height c).

Definition set_width (v : jsval) (c : t) : t :=
  mk (image c) (background c) v (height c).

Definition set_height (v : jsval) (c : t) : t :=
  mk (image c) (background c) (width c) v.

End SideConfig.

Module ContentArea.

(** An area object of the normalized list.  A property the object does not
    have is [VUndef], which is what reading it yields. *)
Record t : Type := mk {
  area : jsval;
  side : jsval;
  x : jsval;
  y : jsval;
  width : jsval;
  height : jsval;
  position : jsval;
  fit : jsval;
  style : jsval
}.

End ContentArea.

Module Size.

Record t : Type := mk { width : jsval; height : jsval }.

End Size.

Module Asset.

(** An entry of [loadedImages]: the natural size of a decoded image. *)
Record t : Type := mk { width : N; height : N; url : string }.

End Asset.

Record NormalizedConfig : Type := mkConfig {
  front : SideConfig.t;
  back : SideConfig.t;
  contentArea : list ContentArea.t
}.

Record Dimensions : Type := mkDimensions {
  dim_front : Size.t;
  dim_back : Size.t;
  realpic : Size.t
}.

Definition num (z : Z) : jsval := VNum (Num.of_Z z).

Definition frac (a : Z) (b : positive) : jsval := VNum (Fin (Qmake a b)).

(** ** ConfigParser *)

Module ConfigParser.

Definition DEFAULT_BACKGROUND : string := "#eeeeee".

Definition _parseSideConfig (sideConfig : jsval) : result SideConfig.t :=
  image <- get sideConfig "image" ;;
  background <- get sideConfig "background" ;;
  width <- get sideConfig "width" ;;
  height <- get sideConfig "height" ;;
  let result :=
    SideConfig.mk (or_else image VNull)
                  (or_else background (VStr DEFAULT_BACKGROUND))
                  (coalesce width VNull)
                  (coalesce height VNull) in
  Ok (if negb (truthy image) && negb (truthy width)
         && negb (truthy height) && negb (truthy background)
      then SideConfig.set_background (VStr DEFAULT_BACKGROUND) result
      else result).

(** The two areas returned for a missing or empty list:
    [{ area: 0, side: 'front' }] and [{ area: 1, side: 'back' }]. *)
Definition default_areas : list ContentArea.t :=
  [ ContentArea.mk (num 0) (VStr "front")
      VUndef VUndef VUndef VUndef VUndef VUndef VUndef;
    ContentArea.mk (num 1) (VStr "back")
      VUndef VUndef VUndef VUndef VUndef VUndef VUndef ].

(** The callback of [areas.map((area, index) => ...)]. *)
Definition parse_area (index : nat) (area : jsval) : result ContentArea.t :=
  let first := Nat.eqb index 0 in
  a <- get area "area" ;;
  s <- get area "side" ;;
  x <- get area "x" ;;
  y <- get area "y" ;;
  w <- get area "width" ;;
  h <- get area "height" ;;
  p <- get area "position" ;;
  f <- get area "fit" ;;
  st <- get area "style" ;;
  Ok (ContentArea.mk
        (coalesce a (num (Z.of_nat index)))
        (or_else s (VStr (if first then "front" else "back")))
        (coalesce x (if first then num 0 else frac 1 10))
        (coalesce y (if first then num 0 else frac 1 10))
        (coalesce w (if first then num 1 else frac 8 10))
        (coalesce h (if first then num 1 else frac 8 10))
        (or_else p (VStr "center"))
        (or_else f (VStr "contain"))
        (or_else st (VObj []))).

Fixpoint map_areas (index : nat) (areas : list jsval)
  : result (list ContentArea.t) :=
  match areas with
  | [] => Ok []
  | a :: rest =>
      a' <- parse_area index a ;;
      rest' <- map_areas (S index) rest ;;
      Ok (a' :: rest')
  end.

Definition _parseContentAreas (areas : jsval) : result (list ContentArea.t) :=
  match areas with
  | VArr (a :: rest) => map_areas 0 (a :: rest)
  | _ => Ok default_areas
  end.

Definition _resolveDependencies (config : NormalizedConfig) : NormalizedConfig :=
  let config :=
    if is_null (SideConfig.width (back config))
    then mkConfig (front config)
           (SideConfig.set_width (SideConfig.width (front config)) (back config))
           (contentArea config)
    else config in
  if is_null (SideConfig.height (back config))
  then mkConfig (front config)
         (SideConfig.set_height (SideConfig.height (front config)) (back config))
         (contentArea config)
  else config.

Definition _resolvePath (path : jsval) (base : string) : result jsval :=
  match path with
  | VStr p =>
      if Str.startsWith p "http" || Str.startsWith p "/" then Ok (VStr p)
      else if Str.startsWith p "./" then Ok (VStr (base +:+ Str.slice 2 p))
      else Ok (VStr (base +:+ p))
  | _ => Throw (TypeError "path.startsWith is not a function")
  end.

Definition _resolveImagePaths (config : NormalizedConfig) (themeBase : string)
  : result NormalizedConfig :=
  if String.eqb themeBase EmptyString then Ok config
  else
    let base :=
      if Str.endsWith themeBase "/" then themeBase else themeBase +:+ "/" in
    config <-
      (if truthy (SideConfig.image (front config))
       then
         p <- _resolvePath (SideConfig.image (front config)) base ;;
         Ok (mkConfig (SideConfig.set_image p (front config))
               (back config) (contentArea config))
       else Ok config) ;;
    if truthy (SideConfig.image (back config))
    then
      p <- _resolvePath (SideConfig.image (back config)) base ;;
      Ok (mkConfig (front config)
            (SideConfig.set_image p (back config)) (contentArea config))
    else Ok config.

Definition quoted (s : string) : string :=
  let q := String (ascii_of_nat 34) EmptyString in q +:+ s +:+ q.

(** [config.contentArea[i]?.side] *)
Definition side_at (config : NormalizedConfig) (i : nat) : jsval :=
  match nth_error (contentArea config) i with
  | Some a => ContentArea.side a
  | None => VUndef
  end.

(** The lines [_validate] writes with [console.warn]; it has no other
    effect. *)
Definition _validate (config : NormalizedConfig) : list string :=
  (if is_string (side_at config 0) "front" then []
   else ["Config warning: contentArea[0] should have side=" +:+ quoted "front"])
  ++
  (if is_string (side_at config 1) "back" then []
   else ["Config warning: contentArea[1] should have side=" +:+ quoted "back"]).

(** [ConfigParser.parse(rawConfig, themeBase)]: the configuration it returns
    together with what [_validate] wrote to the console. *)
Definition parse (rawConfig : jsval) (themeBase : string)
  : result (NormalizedConfig * list string) :=
  f <- get rawConfig "front" ;;
  front <- _parseSideConfig (or_else f (VObj [])) ;;
  b <- get rawConfig "back" ;;
  back <- _parseSideConfig (or_else b (VObj [])) ;;
  c <- get rawConfig "contentArea" ;;
  areas <- _parseContentAreas (or_else c (VArr [])) ;;
  let config := _resolveDependencies (mkConfig front back areas) in
  config <- _resolveImagePaths config themeBase ;;
  Ok (config, _validate config).

(** One pass of "if an axis is still [null], take it from this image". *)
Definition fill_from (img : option Asset.t) (wh : jsval * jsval)
  : jsval * jsval :=
  let '(w, h) := wh in
  if is_null w || is_null h then
    match img with
    | Some i =>
        (coalesce w (VNum (Num.of_N (Asset.width i))),
         coalesce h (VNum (Num.of_N (Asset.height i))))
    | None => (w, h)
    end
  else (w, h).

Definition getDimensions (config : NormalizedConfig)
  (loadedImages : gmap string Asset.t) : Dimensions :=
  let wh := (SideConfig.width (front config), SideConfig.height (front config)) in
  let wh := fill_from (loadedImages !! "frontFrame") wh in
  let wh := fill_from (loadedImages !! "content_0") wh in
  let frontWidth := coalesce (fst wh) (num 800) in
  let frontHeight := coalesce (snd wh) (num 600) in
  let backWidth := coalesce (SideConfig.width (back config)) frontWidth in
  let backHeight := coalesce (SideConfig.height (back config)) frontHeight in
  mkDimensions (Size.mk frontWidth frontHeight)
               (Size.mk backWidth backHeight)
               (Size.mk frontWidth frontHeight).

End ConfigParser.

(** ** The RealPic controller *)

Module RealPic.

(** *** Dimension values and layout arithmetic *)

(** The values [_parseDimension] is specified for: a number or a string. *)
Inductive DimensionValue : Type :=
| DNum (n : jsnum)
| DStr (s : string).

Definition _parseDimension (value : DimensionValue) (baseSize : jsnum) : jsnum :=
  match value with
  | DStr value =>
      let value := Str.trim value in
      if Str.endsWith value "%" then
        Num.mul (Num.div (Str.parseFloat value) (Num.of_Z 100)) baseSize
      else if Str.endsWith value "px" then
        Str.parseFloat value
      else
        let num := Str.parseFloat value in
        if Num.le num (Num.of_Z 1) then Num.mul num baseSize else num
  | DNum value =>
      if Num.le value (Num.of_Z 1) then Num.mul value baseSize else value
  end.

Record CardLayout : Type := mkCardLayout {
  scale : float;
  scaledW : float;
  scaledH : float
}.

(** The card part of [_applyLayout]: the scale and the pixel size written to
    the viewport element, from the container rectangle and
    [this.dimensions.realpic], all of them numbers. *)
Definition _applyLayout (containerW containerH : float)
  (realpicWidth realpicHeight : float) : CardLayout :=
  let scale :=
    F64.min (containerW / realpicWidth) (containerH / realpicHeight) in
  mkCardLayout scale (realpicWidth * scale) (realpicHeight * scale).



(** *** Options and controller state *)

Record ContentItem : Type := mkItem {
  item_area : option Z;
  type : string;
  src : option string;
  content : option string;
  alt : option string
}.

Record Options : Type := mkOptions {
  themePath : option string;
  contents : list ContentItem
}.

Inductive HTMLElement : Type := element (id : string).

(** The fields of a [RealPic] instance the operations below read or write.
    [hidden] and [flipped] say whether [rootElement.classList] holds
    ['realpic-hidden'] and ['realpic-flipped']; [transform] is
    [perspectiveWrapper.style.transform]; [timers] counts the callbacks
    [flip] has scheduled with [setTimeout] that have not run yet; [console]
    collects what was written with [console.warn] and [console.error]. *)
Record t : Type := mk {
  options : option Options;
  isFlipped : bool;
  isAnimating : bool;
  isInitialized : bool;
  parsedConfig : option NormalizedConfig;
  dimensions : option Dimensions;
  loadedImages : gmap string Asset.t;
  hidden : bool;
  flipped : bool;
  transform : string;
  timers : nat;
  console : list string
}.

Definition set_options (o : Options) (s : t) : t :=
  mk (Some o) (isFlipped s) (isAnimating s) (isInitialized s) (parsedConfig s)
     (dimensions s) (loadedImages s) (hidden s) (flipped s) (transform s)
     (timers s) (console s).

Definition set_initialized (s : t) : t :=
  mk (options s) (isFlipped s) (isAnimating s) true (parsedConfig s)
     (dimensions s) (loadedImages s) (hidden s) (flipped s) (transform s)
     (timers s) (console s).

Definition set_config (c : NormalizedConfig) (s : t) : t :=
  mk (options s) (isFlipped s) (isAnimating s) (isInitialized s) (Some c)
     (dimensions s) (loadedImages s) (hidden s) (flipped s) (transform s)
     (timers s) (console s).

Definition set_images (m : gmap string Asset.t) (s : t) : t :=
  mk (options s) (isFlipped s) (isAnimating s) (isInitialized s)
     (parsedConfig s) (dimensions s) m (hidden s) (flipped s) (transform s)
     (timers s) (console s).

Definition set_dimensions (d : Dimensions) (s : t) : t :=
  mk (options s) (isFlipped s) (isAnimating s) (isInitialized s)
     (parsedConfig s) (Some d) (loadedImages s) (hidden s) (flipped s)
     (transform s) (timers s) (console s).

Definition log (lines : list string) (s : t) : t :=
  mk (options s) (isFlipped s) (isAnimating s) (isInitialized s)
     (parsedConfig s) (dimensions s) (loadedImages s) (hidden s) (flipped s)
     (transform s) (timers s) (console s ++ lines).

(** [new RealPic(container)].  When options are passed as well the
    constructor starts [setOptions(options)] without awaiting it, so the
    outcome of that call never reaches the caller of the constructor. *)
Definition constructor (container : option HTMLElement) : result t :=
  match container with
  | None => Throw (Error "Container element is required")
  | Some _ =>
      Ok (mk None false false false None None ∅ true false EmptyString 0 [])
  end.

(** *** flip, reset, show, hide *)

Definition flip (s : t) : t :=
  if isAnimating s then s
  else
    let isFlipped' := negb (isFlipped s) in
    mk (options s) isFlipped' true (isInitialized s) (parsedConfig s)
       (dimensions s) (loadedImages s) (hidden s) isFlipped'
       "rotateX(0) rotateY(0) translateZ(0)" (S (timers s)) (console s).

(** The callback [flip] passes to [setTimeout(..., 600)], run when one is
    due. *)
Definition timeout (s : t) : t :=
  match timers s with
  | O => s
  | S n =>
      mk (options s) (isFlipped s) false (isInitialized s) (parsedConfig s)
         (dimensions s) (loadedImages s) (hidden s) (flipped s) (transform s)
         n (console s)
  end.

Definition reset (s : t) : t :=
  mk (options s) false (isAnimating s) (isInitialized s) (parsedConfig s)
     (dimensions s) (loadedImages s) (hidden s) false (transform s)
     (timers s) (console s).

Definition show (s : t) : t :=
  mk (options s) (isFlipped s) (isAnimating s) (isInitialized s)
     (parsedConfig s) (dimensions s) (loadedImages s) false (flipped s)
     (transform s) (timers s) (console s).

Definition hide (s : t) : t :=
  reset
    (mk (options s) (isFlipped s) (isAnimating s) (isInitialized s)
        (parsedConfig s) (dimensions s) (loadedImages s) true (flipped s)
        (transform s) (timers s) (console s)).

(** [isVisible()] *)
Definition isVisible (s : t) : bool := negb (hidden s).

(** The fields the loading steps of [setOptions] leave alone. *)
Definition keeps (s s' : t) : Prop :=
  options s' = options s
  /\ isInitialized s' = isInitialized s
  /\ isFlipped s' = isFlipped s
  /\ isAnimating s' = isAnimating s
  /\ timers s' = timers s.

(** *** setOptions: loading and rendering *)

(** An operation on the instance: the state it leaves and whether it
    returned or threw (for an [async] method: whether its promise was
    fulfilled or rejected).  The state reached before a throw is kept. *)
Definition Act (A : Type) : Type := t -> t * result A.

Definition seq (a b : Act unit) : Act unit :=
  fun s =>
    match a s with
    | (s', Ok _) => b s'
    | (s', Throw e) => (s', Throw e)
    end.

Definition lift (f : t -> t) : Act unit := fun s => (f s, Ok tt).

(** What [fetch(configPath)] followed by [response.json()] can give. *)
Inductive FetchOutcome : Type :=
| NetworkError
| Response (ok : bool) (json : option jsval).

Definition content_key (index : nat) : string :=
  "content_" +:+ NilZero.string_of_uint (Nat.to_uint index).

Section Environment.

(** The collaborators: the network, the image decoder, and the DOM work of
    [_createContentAreas], [_applyLayout] and [_mountContents], which may
    change the instance and may throw. *)
Variable fetch : string -> FetchOutcome.
Variable loadImage : string -> option (N * N).
Variable paint : Act unit.

(** The body of the [try] block of [_loadConfig]. *)
Definition fetchConfig (configPath themeBase : string)
  : result (NormalizedConfig * list string) :=
  match fetch configPath with
  | NetworkError => Throw (TypeError "Failed to fetch")
  | Response false _ =>
      Throw (Error ("Failed to load theme config: " +:+ configPath))
  | Response true None => Throw (SyntaxError "Unexpected token")
  | Response true (Some rawConfig) => ConfigParser.parse rawConfig themeBase
  end.

Definition _loadConfig : Act unit :=
  fun s =>
    let themeBase :=
      match options s with
      | Some o => themePath o
      | None => None
      end in
    match themeBase with
    | Some themeBase =>
        if String.eqb themeBase EmptyString
        then (s, Throw (Error "themePath is required in options"))
        else
          let configPath :=
            (if Str.endsWith themeBase "/" then themeBase
             else themeBase +:+ "/") +:+ "config.json" in
          match fetchConfig configPath themeBase with
          | Ok (config, warnings) => (set_config config (log warnings s), Ok tt)
          | Throw _ =>
              let s := log ["Failed to load theme:"] s in
              match ConfigParser.parse (VObj []) themeBase with
              | Ok (config, warnings) =>
                  (set_config config (log warnings s), Ok tt)
              | Throw e => (s, Throw e)
              end
          end
    | None => (s, Throw (Error "themePath is required in options"))
    end.

Definition loadSingle (url key : string) (s : t) : t :=
  match loadImage url with
  | Some (w, h) => set_images (<[key := Asset.mk w h url]> (loadedImages s)) s
  | None => log ["Failed to load image: " +:+ url] s
  end.

(** A frame image is loaded when [config.image] is truthy; after [parse]
    with a non-empty base a truthy image is a string. *)
Definition loadFrame (image : jsval) (key : string) (s : t) : t :=
  match image with
  | VStr url => if truthy image then loadSingle url key s else s
  | _ => s
  end.

Fixpoint loadContents (index : nat) (contents : list ContentItem) (s : t) : t :=
  match contents with
  | [] => s
  | content :: rest =>
      let s :=
        match src content with
        | Some url =>
            if String.eqb (type content) "image"
               && negb (String.eqb url EmptyString)
            then loadSingle url (content_key index) s
            else s
        | None => s
        end in
      loadContents (S index) rest s
  end.

Definition _loadImages : Act unit :=
  fun s =>
    let s := set_images ∅ s in
    match parsedConfig s, options s with
    | Some config, Some o =>
        let s := loadFrame (SideConfig.image (front config)) "frontFrame" s in
        let s := loadFrame (SideConfig.image (back config)) "backFrame" s in
        (loadContents 0 (contents o) s, Ok tt)
    | _, _ => (s, Throw (TypeError "Cannot read properties of null"))
    end.

Definition resolveDimensions : Act unit :=
  fun s =>
    match parsedConfig s with
    | Some config =>
        (set_dimensions (ConfigParser.getDimensions config (loadedImages s)) s,
         Ok tt)
    | None => (s, Throw (TypeError "Cannot read properties of null"))
    end.

Definition _loadAndRender : Act unit :=
  seq _loadConfig (seq _loadImages (seq resolveDimensions paint)).

Definition _init : Act unit := seq _loadAndRender (lift show).

Definition _updateContent : Act unit :=
  fun s =>
    match _loadAndRender (reset s) with
    | (s', Ok _) => (show s', Ok tt)
    | (s', Throw _) => (log ["update content failed"] s', Ok tt)
    end.

Definition setOptions (options : Options) : Act unit :=
  fun s =>
    let s := set_options options s in
    if isInitialized s then _updateContent s
    else
      match _init s with
      | (s', Ok _) => (set_initialized s', Ok tt)
      | (s', Throw e) => (s', Throw e)
      end.

End Environment.

(** Calls and timer callbacks as a sequence of events. *)
Inductive event : Type := Flip | Timeout | Reset | Show | Hide.

Definition step (s : t) (e : event) : t :=
  match e with
  | Flip => flip s
  | Timeout => timeout s
  | Reset => reset s
  | Show => show s
  | Hide => hide s
  end.

Definition run (s : t) (es : list event) : t := fold_left step es s.

(** The states a controller goes through: from construction, by any
    sequence of calls and timer callbacks. *)
Inductive reachable : t -> Prop :=
| reach_new c s : constructor c = Ok s -> reachable s
| reach_step s e : reachable s -> reachable (step s e).

End RealPic.

(** ** Predicates and reference definitions used by the statements *)

Module Descriptor.

(** A property read that cannot throw: [v.k] on a value that is neither
    [null] nor [undefined]. *)
Definition prop (v : jsval) (k : string) : jsval :=
  match v with
  | VObj fs => assoc k fs
  | _ => VUndef
  end.

(** [rawConfig.front || {}] and [rawConfig.back || {}] *)
Definition side_of (rawConfig : jsval) (k : string) : jsval :=
  or_else (prop rawConfig k) (VObj []).

(** The four fields of a side with their defaults, read without the
    error cases of [get]. *)
Definition defaulted_side (sideConfig : jsval) : SideConfig.t :=
  SideConfig.mk
    (or_else (prop sideConfig "image") VNull)
    (or_else (prop sideConfig "background")
       (VStr ConfigParser.DEFAULT_BACKGROUND))
    (coalesce (prop sideConfig "width") VNull)
    (coalesce (prop sideConfig "height") VNull).

(** A frame image [_resolveImagePaths] can resolve: there is no base path
    (paths are left alone), or the image is falsy, or it is a string. *)
Definition path_ok (themeBase : string) (image : jsval) : bool :=
  String.eqb themeBase EmptyString
  || negb (truthy image)
  || match image with VStr _ => true | _ => false end.

Definition image_ok (themeBase : string) (sideConfig : jsval) : bool :=
  path_ok themeBase (prop sideConfig "image").

(** No entry of a non-empty [contentArea] array is [null]. *)
Definition areas_ok (rawConfig : jsval) : bool :=
  match or_else (prop rawConfig "contentArea") (VArr []) with
  | VArr items => forallb (fun a => negb (nullish a)) items
  | _ => true
  end.

(** The descriptors [ConfigParser.parse] accepts. *)
Definition well_formed (rawConfig : jsval) (themeBase : string) : bool :=
  negb (nullish rawConfig)
  && image_ok themeBase (side_of rawConfig "front")
  && image_ok themeBase (side_of rawConfig "back")
  && areas_ok rawConfig.

(** How the sides and areas of a configuration returned by [parse] are
    determined by the descriptor. *)
Definition parsed_from (rawConfig : jsval) (config : NormalizedConfig) : Prop :=
  let f := side_of rawConfig "front" in
  let b := side_of rawConfig "back" in
  let background s :=
    or_else (prop s "background") (VStr ConfigParser.DEFAULT_BACKGROUND) in
  SideConfig.width (front config) = coalesce (prop f "width") VNull
  /\ SideConfig.height (front config) = coalesce (prop f "height") VNull
  /\ SideConfig.background (front config) = background f
  /\ truthy (SideConfig.image (front config)) = truthy (prop f "image")
  /\ (truthy (prop f "image") = false -> SideConfig.image (front config) = VNull)
  /\ SideConfig.width (back config)
     = (if nullish (prop b "width") then SideConfig.width (front config)
        else prop b "width")
  /\ SideConfig.height (back config)
     = (if nullish (prop b "height") then SideConfig.height (front config)
        else prop b "height")
  /\ SideConfig.background (back config) = background b
  /\ truthy (SideConfig.image (back config)) = truthy (prop b "image")
  /\ (truthy (prop b "image") = false -> SideConfig.image (back config) = VNull)
  /\ ConfigParser._parseContentAreas
       (or_else (prop rawConfig "contentArea") (VArr []))
     = Ok (contentArea config).

(** A side of a configuration returned by [parse]: no field is
    [undefined], the background is truthy, the image is [null] or truthy. *)
Definition side_defaulted (c : SideConfig.t) : Prop :=
  truthy (SideConfig.background c) = true
  /\ (SideConfig.image c = VNull \/ truthy (SideConfig.image c) = true)
  /\ is_undefined (SideConfig.width c) = false
  /\ is_undefined (SideConfig.height c) = false.

(** An area produced from an entry of a non-empty list: every field is
    defined. *)
Definition area_defaulted (a : ContentArea.t) : Prop :=
  nullish (ContentArea.area a) = false
  /\ truthy (ContentArea.side a) = true
  /\ nullish (ContentArea.x a) = false
  /\ nullish (ContentArea.y a) = false
  /\ nullish (ContentArea.width a) = false
  /\ nullish (ContentArea.height a) = false
  /\ truthy (ContentArea.position a) = true
  /\ truthy (ContentArea.fit a) = true
  /\ truthy (ContentArea.style a) = true.

(** Width and height of both sides are a value or [null], never
    [undefined]: what [_parseSideConfig] guarantees. *)
Definition normalized (config : NormalizedConfig) : Prop :=
  is_undefined (SideConfig.width (front config)) = false
  /\ is_undefined (SideConfig.height (front config)) = false
  /\ is_undefined (SideConfig.width (back config)) = false
  /\ is_undefined (SideConfig.height (back config)) = false.

End Descriptor.

Module Chain.

(** One axis of the fallback chain: the explicit value, else the frame
    image's, else the content image's, else the fixed default. *)
Definition axis (explicit : jsval) (frame content : option N) (fallback : Z)
  : jsval :=
  if nullish explicit then
    match frame, content with
    | Some n, _ => VNum (Num.of_N n)
    | None, Some n => VNum (Num.of_N n)
    | None, None => num fallback
    end
  else explicit.

Definition resolve (config : NormalizedConfig)
  (frame content : option Asset.t) : Dimensions :=
  let w := axis (SideConfig.width (front config))
             (Asset.width <$> frame) (Asset.width <$> content) 800 in
  let h := axis (SideConfig.height (front config))
             (Asset.height <$> frame) (Asset.height <$> content) 600 in
  mkDimensions (Size.mk w h)
    (Size.mk (coalesce (SideConfig.width (back config)) w)
             (coalesce (SideConfig.height (back config)) h))
    (Size.mk w h).

(** The position of the first image-type item of the content list. *)
Fixpoint first_image_index (index : nat) (contents : list RealPic.ContentItem)
  : option nat :=
  match contents with
  | [] => None
  | c :: rest =>
      if String.eqb (RealPic.type c) "image" then Some index
      else first_image_index (S index) rest
  end.

(** The chain as the specification words it: "explicit config size, then
    front frame image size, then first image-type content's intrinsic size,
    then fixed 800x600". *)
Definition spec_getDimensions (config : NormalizedConfig)
  (loadedImages : gmap string Asset.t) (contents : list RealPic.ContentItem)
  : Dimensions :=
  resolve config (loadedImages !! "frontFrame")
    (i ← first_image_index 0 contents; loadedImages !! RealPic.content_key i).

End Chain.

Module Ideal.


End Ideal.

(** ** Sample data *)

Module Examples.

(** A content list whose first item is text and whose second is an image,
    and a decoder that knows the image as 400 by 300. *)
Definition text_then_image : list RealPic.ContentItem :=
  [ RealPic.mkItem None "text" None (Some "caption") None;
    RealPic.mkItem None "image" (Some "photo.jpg") None None ].

Definition decoder (url : string) : option (N * N) :=
  if String.eqb url "photo.jpg" then Some (400%N, 300%N) else None.

(** The normalization of [{}]. *)
Definition bare_config : NormalizedConfig :=
  mkConfig (SideConfig.mk VNull (VStr "#eeeeee") VNull VNull)
           (SideConfig.mk VNull (VStr "#eeeeee") VNull VNull)
           ConfigParser.default_areas.

(** A fresh instance, as [new RealPic(container)] leaves it. *)
Definition fresh : RealPic.t :=
  RealPic.mk None false false false None None ∅ true false EmptyString 0 [].

(** An instance holding [bare_config] and the content list above, before
    its images are loaded. *)
Definition configured : RealPic.t :=
  RealPic.set_config bare_config
    (RealPic.set_options
       (RealPic.mkOptions (Some "/themes/x/") text_then_image) fresh).

(** A network on which every request fails, and DOM work that succeeds
    without touching the instance. *)
Definition offline (url : string) : RealPic.FetchOutcome := RealPic.NetworkError.

Definition no_paint : RealPic.Act unit := fun s => (s, Ok tt).

End Examples.

(** ** Content areas: style keys, mounting *)

Module AreaLayout.

Definition is_upper (c : ascii) : bool :=
  let n := Str.code c in ((65 <=? n) && (n <=? 90))%N.

(** [toLowerCase] on one code unit below 256: A-Z and the Latin-1 capitals
    U+00C0..U+00DE other than the multiplication sign. *)
Definition lower (c : ascii) : ascii :=
  let n := Str.code c in
  if ((65 <=? n) && (n <=? 90)
      || (192 <=? n) && (n <=? 222) && negb (n =? 215))%N
  then ascii_of_N (n + 32)
  else c.

Fixpoint toLowerCase (s : string) : string :=
  match s with
  | String c r => String (lower c) (toLowerCase r)
  | EmptyString => EmptyString
  end.

(** [key.replace(/([A-Z])/g, '-$1')] *)
Fixpoint hyphenate (key : string) : string :=
  match key with
  | String c r =>
      if is_upper c then String "-" (String c (hyphenate r))
      else String c (hyphenate r)
  | EmptyString => EmptyString
  end.

(** The style property name [_applyAreaLayout] assigns for a key of
    [config.style]. *)
Definition cssKey (key : string) : string := toLowerCase (hyphenate key).

End AreaLayout.

Module Mount.

Import RealPic.

(** The own properties of [alignMap]: align-items, justify-content and
    text-align for a position name. *)
Definition alignMap (position : string) : option (string * string * string) :=
  if String.eqb position "top" then Some ("flex-start", "center", "center")
  else if String.eqb position "bottom" then Some ("flex-end", "center", "center")
  else if String.eqb position "left" then Some ("center", "flex-start", "left")
  else if String.eqb position "right" then Some ("center", "flex-end", "right")
  else if String.eqb position "center" then Some ("center", "center", "center")
  else None.

(** The string a value denotes as a property key when that string can be a
    position name: a string itself, or an array of one such value (an
    array's key is its elements joined by commas).  Numbers, booleans and
    objects never denote one of the names. *)
Fixpoint key_name (v : jsval) : option string :=
  match v with
  | VStr s => Some s
  | VArr [e] => key_name e
  | _ => None
  end.

(** [const [alignItems, justifyContent, textAlign] =
     alignMap[areaConfig.position || 'center']]: destructuring throws when
    the lookup does not give one of the five arrays. *)
Definition textAlignment (position : jsval)
  : result (string * string * string) :=
  match key_name (or_else position (VStr "center")) with
  | Some p =>
      match alignMap p with
      | Some a => Ok a
      | None => Throw (TypeError "alignMap[position] is not iterable")
      end
  | None => Throw (TypeError "alignMap[position] is not iterable")
  end.

(** SameValueZero on the keys of [contentAreas]; two objects or arrays read
    from JSON are never the same reference. *)
Definition same_value_zero (a b : jsval) : bool :=
  match a, b with
  | VUndef, VUndef | VNull, VNull => true
  | VBool x, VBool y => Bool.eqb x y
  | VNum NaN, VNum NaN => true
  | VNum (Inf s), VNum (Inf t) => Bool.eqb s t
  | VNum (Fin x), VNum (Fin y) => Qeq_bool x y
  | VStr x, VStr y => String.eqb x y
  | _, _ => false
  end.

(** The [Map] [this.contentAreas], in insertion order. *)
Definition AreaMap : Type := list (jsval * ContentArea.t).

(** [map.set(key, value)] *)
Fixpoint map_set (key : jsval) (value : ContentArea.t) (m : AreaMap) : AreaMap :=
  match m with
  | [] => [(key, value)]
  | (k, v) :: rest =>
      if same_value_zero k key then (k, value) :: rest
      else (k, v) :: map_set key value rest
  end.

(** [map.get(key)] *)
Fixpoint map_get (key : jsval) (m : AreaMap) : option ContentArea.t :=
  match m with
  | [] => None
  | (k, v) :: rest => if same_value_zero k key then Some v else map_get key rest
  end.

Definition has_key (k : string) (fs : list (string * jsval)) : bool :=
  existsb (fun kv => String.eqb k (fst kv)) fs.

(** Whether converting a value read from JSON to a string returns: an
    object that has an own property [toString] (never a function in JSON)
    cannot be converted, an array is joined from its elements, everything
    else converts. *)
Fixpoint stringifies (v : jsval) : bool :=
  match v with
  | VObj fs => negb (has_key "toString" fs)
  | VArr items => forallb stringifies items
  | _ => true
  end.

(** One round of the loop of [_createContentAreas]: the four [dataset]
    assignments convert their value to a string, then the area is stored
    under its id. *)
Definition add_area (m : AreaMap) (areaConfig : ContentArea.t) : result AreaMap :=
  if stringifies (ContentArea.area areaConfig)
     && stringifies (ContentArea.side areaConfig)
     && stringifies (ContentArea.position areaConfig)
     && stringifies (ContentArea.fit areaConfig)
  then Ok (map_set (ContentArea.area areaConfig) areaConfig m)
  else Throw (TypeError "Cannot convert object to primitive value").

Fixpoint add_areas (m : AreaMap) (contentArea : list ContentArea.t)
  : result AreaMap :=
  match contentArea with
  | [] => Ok m
  | areaConfig :: rest =>
      m' <- add_area m areaConfig ;;
      add_areas m' rest
  end.

(** The map [_createContentAreas] builds from [parsedConfig.contentArea],
    starting from the cleared map. *)
Definition _createContentAreas (contentArea : list ContentArea.t)
  : result AreaMap :=
  add_areas [] contentArea.

(** [contentData.area !== undefined ? contentData.area : index] *)
Definition areaId (contentData : ContentItem) (index : nat) : jsval :=
  match item_area contentData with
  | Some z => num z
  | None => num (Z.of_nat index)
  end.

(** The area [_mountContents] finds for a content item, if any: the result
    of [this.contentAreas.get(areaId)].  When there is none the item is
    skipped with a warning. *)
Definition area_for (contentAreas : AreaMap) (contentData : ContentItem)
  (index : nat) : option ContentArea.t :=
  map_get (areaId contentData index) contentAreas.

End Mount.

(** ** Pointer tilt *)

Module Pointer.

Definition PERSPECTIVE_MAX_ROTATION : float := 4%float.

Definition PERSPECTIVE_MAX_ROTATION_MOBILE : float := 12%float.

(** What [perspectiveWrapper.getBoundingClientRect()] returns. *)
Record Rect : Type := mkRect {
  rect_left : float;
  rect_top : float;
  rect_width : float;
  rect_height : float
}.

(** The pointer fields of a [RealPic] instance: [_lastMouseX] and
    [_lastMouseY] (both set or both [undefined]), [_isTouching],
    [_rafPending], the number of frame callbacks requested and not yet run,
    and the rotation ([rotateX], [rotateY], in degrees) last written to the
    viewport transform by [_updatePerspective]. *)
Record t : Type := mk {
  lastMouse : option (float * float);
  isTouching : bool;
  rafPending : bool;
  frames : nat;
  tilt : option (float * float)
}.

Definition initial : t := mk None false false 0 None.

(** What a handler reads from outside the pointer fields when it runs:
    [this.isAnimating] and the viewport rectangle. *)
Record env : Type := mkEnv {
  isAnimating : bool;
  rect : Rect
}.

(** The pair ([rotateX], [rotateY]) that [_updatePerspective] writes for
    the pointer position ([x], [y]). *)
Definition rotation (e : env) (touching : bool) (x y : float) : float * float :=
  let r := rect e in
  let centerX := (rect_left r + rect_width r / 2)%float in
  let centerY := (rect_top r + rect_height r / 2)%float in
  let offsetX := ((x - centerX) / (rect_width r / 2))%float in
  let offsetY := ((centerY - y) / (rect_height r / 2))%float in
  let maxRotation :=
    if touching then PERSPECTIVE_MAX_ROTATION_MOBILE
    else PERSPECTIVE_MAX_ROTATION in
  ((offsetY * maxRotation)%float, (offsetX * maxRotation)%float).

Definition _updatePerspective (e : env) (s : t) : t :=
  if isAnimating e then s
  else
    match lastMouse s with
    | None => s
    | Some (x, y) =>
        mk (lastMouse s) (isTouching s) (rafPending s) (frames s)
           (Some (rotation e (isTouching s) x y))
    end.

Definition updatePointer (e : env) (x y : float) (s : t) : t :=
  if isAnimating e then s
  else
    if rafPending s
    then mk (Some (x, y)) (isTouching s) true (frames s) (tilt s)
    else mk (Some (x, y)) (isTouching s) true (S (frames s)) (tilt s).

(** The callback passed to [requestAnimationFrame], run when one is due. *)
Definition frame (e : env) (s : t) : t :=
  match frames s with
  | O => s
  | S n =>
      _updatePerspective e
        (mk (lastMouse s) (isTouching s) false n (tilt s))
  end.

Definition mousemove (e : env) (x y : float) (s : t) : t := updatePointer e x y s.

Definition mouseleave (e : env) (s : t) : t :=
  _updatePerspective e
    (mk None (isTouching s) (rafPending s) (frames s) (tilt s)).

Definition touchstart (e : env) (x y : float) (s : t) : t :=
  if isAnimating e then s
  else
    _updatePerspective e
      (mk (Some (x, y)) true (rafPending s) (frames s) (tilt s)).

Definition touchmove (e : env) (x y : float) (s : t) : t :=
  if negb (isTouching s) || isAnimating e then s
  else updatePointer e x y s.

Definition touchend (e : env) (s : t) : t :=
  _updatePerspective e
    (mk None false (rafPending s) (frames s) (tilt s)).

Inductive event : Type :=
| MouseMove (x y : float)
| MouseLeave
| TouchStart (x y : float)
| TouchMove (x y : float)
| TouchEnd
| Frame.

Definition step (s : t) (ev : env * event) : t :=
  let (e, what) := ev in
  match what with
  | MouseMove x y => mousemove e x y s
  | MouseLeave => mouseleave e s
  | TouchStart x y => touchstart e x y s
  | TouchMove x y => touchmove e x y s
  | TouchEnd => touchend e s
  | Frame => frame e s
  end.

Definition run (s : t) (evs : list (env * event)) : t := fold_left step evs s.

End Pointer.

(** ** The viewer shell *)

Module Viewer.

(** The options of [RealPicViewer] that the functions below read. *)
Record ViewerOptions : Type := mkViewerOptions {
  originPath : string;
  themesPath : string;
  defaultTheme : string
}.

(** [getThemePath(theme)]; [None] is a missing theme. *)
Definition getThemePath (o : ViewerOptions) (theme : option string) : string :=
  match theme with
  | Some t =>
      if String.eqb t EmptyString || String.eqb (Str.trim t) EmptyString
      then themesPath o +:+ defaultTheme o +:+ "/"
      else themesPath o +:+ t +:+ "/"
  | None => themesPath o +:+ defaultTheme o +:+ "/"
  end.

(** The options [show(image)] passes to [setOptions]: the photo for area 0
    and a text for area 1 ([image.description] in one version of the
    viewer, [image.postscript] in the other; [text || ''] either way). *)
Definition showOptions (o : ViewerOptions) (filename : string)
  (title text theme : option string) : RealPic.Options :=
  RealPic.mkOptions
    (Some (getThemePath o theme))
    [ RealPic.mkItem (Some 0%Z) "image" (Some (originPath o +:+ filename))
        None title;
      RealPic.mkItem (Some 1%Z) "text" None
        (Some (match text with
               | Some t => t
               | None => EmptyString
               end))
        None ].

(** The fields of a viewer [close()] and its timers touch: the card, the
    open flag, the modal's [active] class, [document.body.style.overflow],
    and the pending 300 ms timers (for [realpic.hide()] and for [onClose]). *)
Record t : Type := mk {
  realpic : option RealPic.t;
  isOpen : bool;
  active : bool;
  overflow : string;
  hideTimers : nat;
  closeTimers : nat
}.

(** [close()]; [hasOnClose] says whether [options.onClose] is set. *)
Definition close (hasOnClose : bool) (s : t) : t :=
  if negb (isOpen s) then s
  else
    mk (realpic s) false false EmptyString (S (hideTimers s))
       (if hasOnClose then S (closeTimers s) else closeTimers s).

(** The timer callback [() => this.realpic?.hide()], run when one is due. *)
Definition hideTimeout (s : t) : t :=
  match hideTimers s with
  | O => s
  | S n =>
      mk (RealPic.hide <$> realpic s) (isOpen s) (active s) (overflow s) n
         (closeTimers s)
  end.

(** [_handleKeydown(e)] *)
Definition _handleKeydown (hasOnClose : bool) (key : string) (s : t) : t :=
  if String.eqb key "Escape" && isOpen s then close hasOnClose s else s.

End Viewer.

(** ** The controller as a caller meets it

    [RealPic] above takes the options in the shape the viewer passes them
    and an instance whose elements exist.  Here the container and the
    options are arbitrary values, every element field a method dereferences
    may be absent, and the frames and the area map that [_updateContent]
    clears are part of the state. *)

Module Boundary.

(** What a caller passes as the mount container: a DOM element, or a
    value that is not one. *)
Inductive Container : Type :=
| Element (e : RealPic.HTMLElement)
| Value (v : jsval).

(** [rootElement]: whether its class list holds ['realpic-hidden'] and
    ['realpic-flipped']. *)
Record Root : Type := mkRoot {
  hidden : bool;
  flipped : bool
}.

(** A frame element: the three properties [_clearFrames] resets. *)
Record Frame : Type := mkFrame {
  innerHTML : string;
  cssText : string;
  className : string
}.

Definition blank : Frame := mkFrame EmptyString EmptyString "realpic-frame".

(** An entry of [loadedImages]: the natural size of a decoded image and the
    address as it was given. *)
Record Loaded : Type := mkLoaded {
  width : N;
  height : N;
  url : jsval
}.

(** A line written to the console: a text, or a text followed by a value. *)
Inductive Line : Type :=
| Text (s : string)
| About (s : string) (v : jsval).

(** The fields of a [RealPic] instance.  An element field is [None] while
    the property is [undefined]; [perspectiveWrapper] holds its
    [style.transform]; [timers] counts the callbacks [flip] has scheduled
    that have not run yet. *)
Record t : Type := mk {
  options : jsval;
  isFlipped : bool;
  isAnimating : bool;
  isInitialized : bool;
  parsedConfig : option NormalizedConfig;
  dimensions : option Dimensions;
  loadedImages : gmap string Loaded;
  contentAreas : Mount.AreaMap;
  rootElement : option Root;
  perspectiveWrapper : option string;
  frontFrame : option Frame;
  backFrame : option Frame;
  timers : nat;
  console : list Line
}.

Definition set_options (v : jsval) (s : t) : t :=
  mk v (isFlipped s) (isAnimating s) (isInitialized s) (parsedConfig s)
     (dimensions s) (loadedImages s) (contentAreas s) (rootElement s)
     (perspectiveWrapper s) (frontFrame s) (backFrame s) (timers s) (console s).

Definition set_isFlipped (b : bool) (s : t) : t :=
  mk (options s) b (isAnimating s) (isInitialized s) (parsedConfig s)
     (dimensions s) (loadedImages s) (contentAreas s) (rootElement s)
     (perspectiveWrapper s) (frontFrame s) (backFrame s) (timers s) (console s).

Definition set_isAnimating (b : bool) (s : t) : t :=
  mk (options s) (isFlipped s) b (isInitialized s) (parsedConfig s)
     (dimensions s) (loadedImages s) (contentAreas s) (rootElement s)
     (perspectiveWrapper s) (frontFrame s) (backFrame s) (timers s) (console s).

Definition set_isInitialized (b : bool) (s : t) : t :=
  mk (options s) (isFlipped s) (isAnimating s) b (parsedConfig s)
     (dimensions s) (loadedImages s) (contentAreas s) (rootElement s)
     (perspectiveWrapper s) (frontFrame s) (backFrame s) (timers s) (console s).

Definition set_parsedConfig (c : NormalizedConfig) (s : t) : t :=
  mk (options s) (isFlipped s) (isAnimating s) (isInitialized s) (Some c)
     (dimensions s) (loadedImages s) (contentAreas s) (rootElement s)
     (perspectiveWrapper s) (frontFrame s) (backFrame s) (timers s) (console s).

Definition set_dimensions (d : Dimensions) (s : t) : t :=
  mk (options s) (isFlipped s) (isAnimating s) (isInitialized s)
     (parsedConfig s) (Some d) (loadedImages s) (contentAreas s)
     (rootElement s) (perspectiveWrapper s) (frontFrame s) (backFrame s)
     (timers s) (console s).

Definition set_loadedImages (m : gmap string Loaded) (s : t) : t :=
  mk (options s) (isFlipped s) (isAnimating s) (isInitialized s)
     (parsedConfig s) (dimensions s) m (contentAreas s) (rootElement s)
     (perspectiveWrapper s) (frontFrame s) (backFrame s) (timers s) (console s).

Definition set_contentAreas (m : Mount.AreaMap) (s : t) : t :=
  mk (options s) (isFlipped s) (isAnimating s) (isInitialized s)
     (parsedConfig s) (dimensions s) (loadedImages s) m (rootElement s)
     (perspectiveWrapper s) (frontFrame s) (backFrame s) (timers s) (console s).

Definition set_rootElement (r : Root) (s : t) : t :=
  mk (options s) (isFlipped s) (isAnimating s) (isInitialized s)
     (parsedConfig s) (dimensions s) (loadedImages s) (contentAreas s)
     (Some r) (perspectiveWrapper s) (frontFrame s) (backFrame s) (timers s)
     (console s).

Definition set_transform (v : string) (s : t) : t :=
  mk (options s) (isFlipped s) (isAnimating s) (isInitialized s)
     (parsedConfig s) (dimensions s) (loadedImages s) (contentAreas s)
     (rootElement s) (Some v) (frontFrame s) (backFrame s) (timers s)
     (console s).

Definition set_frontFrame (f : Frame) (s : t) : t :=
  mk (options s) (isFlipped s) (isAnimating s) (isInitialized s)
     (parsedConfig s) (dimensions s) (loadedImages s) (contentAreas s)
     (rootElement s) (perspectiveWrapper s) (Some f) (backFrame s) (timers s)
     (console s).

Definition set_backFrame (f : Frame) (s : t) : t :=
  mk (options s) (isFlipped s) (isAnimating s) (isInitialized s)
     (parsedConfig s) (dimensions s) (loadedImages s) (contentAreas s)
     (rootElement s) (perspectiveWrapper s) (frontFrame s) (Some f) (timers s)
     (console s).

Definition set_timers (n : nat) (s : t) : t :=
  mk (options s) (isFlipped s) (isAnimating s) (isInitialized s)
     (parsedConfig s) (dimensions s) (loadedImages s) (contentAreas s)
     (rootElement s) (perspectiveWrapper s) (frontFrame s) (backFrame s) n
     (console s).

Definition log (lines : list Line) (s : t) : t :=
  mk (options s) (isFlipped s) (isAnimating s) (isInitialized s)
     (parsedConfig s) (dimensions s) (loadedImages s) (contentAreas s)
     (rootElement s) (perspectiveWrapper s) (frontFrame s) (backFrame s)
     (timers s) (console s ++ lines)%list.

(** An operation on the instance: the state it leaves and whether it
    returned or threw (for an [async] method: the state when its promise
    settles, and whether it was fulfilled or rejected). *)
Definition Act (A : Type) : Type := t -> t * result A.

Definition seq (a b : Act unit) : Act unit :=
  fun s =>
    match a s with
    | (s', Ok _) => b s'
    | (s', Throw e) => (s', Throw e)
    end.

Definition undefined (what : string) : exn :=
  TypeError ("Cannot read properties of undefined: " +:+ what).

(** [new RealPic(container)].  [_createDOM] assigns [container.innerHTML]
    and calls [container.classList.add], which throws for every value
    that is not an element: a primitive cannot take the property (the
    class body is strict code), and an array or an object read from data
    has no callable [classList.add].  When options are passed as well the
    constructor starts [setOptions(options)] without awaiting it, so the
    outcome of that call never reaches the caller of the constructor. *)
Definition constructor (container : Container) : result t :=
  match container with
  | Value v =>
      if truthy v
      then Throw (TypeError "container.classList.add is not a function")
      else Throw (Error "Container element is required")
  | Element _ =>
      Ok (mk VNull false false false None None ∅ []
            (Some (mkRoot true false)) (Some EmptyString)
            (Some blank) (Some blank) 0 [])
  end.

(** *** flip, reset, show, hide *)

Definition flip : Act unit :=
  fun s =>
    if isAnimating s then (s, Ok tt)
    else
      let s := set_isFlipped (negb (isFlipped s)) (set_isAnimating true s) in
      match perspectiveWrapper s with
      | None => (s, Throw (undefined "style"))
      | Some _ =>
          let s := set_transform "rotateX(0) rotateY(0) translateZ(0)" s in
          match rootElement s with
          | None => (s, Throw (undefined "classList"))
          | Some r =>
              (set_timers (S (timers s))
                 (set_rootElement (mkRoot (hidden r) (isFlipped s)) s),
               Ok tt)
          end
      end.

(** The callback [flip] passes to [setTimeout(..., 600)], run when one is
    due. *)
Definition timeout (s : t) : t :=
  match timers s with
  | O => s
  | S n => set_timers n (set_isAnimating false s)
  end.

Definition reset : Act unit :=
  fun s =>
    let s := set_isFlipped false s in
    match rootElement s with
    | None => (s, Throw (undefined "classList"))
    | Some r => (set_rootElement (mkRoot (hidden r) false) s, Ok tt)
    end.

Definition show : Act unit :=
  fun s =>
    match rootElement s with
    | None => (s, Ok tt)
    | Some r => (set_rootElement (mkRoot false (flipped r)) s, Ok tt)
    end.

Definition hide : Act unit :=
  fun s =>
    reset
      match rootElement s with
      | None => s
      | Some r => set_rootElement (mkRoot true (flipped r)) s
      end.

(** *** setOptions *)

(** [frame.innerHTML = ''; frame.style.cssText = '';
     frame.className = 'realpic-frame'] for the front frame, then for the
    back frame. *)
Definition _clearFrames : Act unit :=
  fun s =>
    match frontFrame s with
    | None => (s, Throw (undefined "innerHTML"))
    | Some _ =>
        let s := set_frontFrame blank s in
        match backFrame s with
        | None => (s, Throw (undefined "innerHTML"))
        | Some _ => (set_backFrame blank s, Ok tt)
        end
    end.

(** [v?.k] *)
Definition get_opt (v : jsval) (k : string) : jsval :=
  match get v k with
  | Ok x => x
  | Throw _ => VUndef
  end.

(** [loadSingle(url, key)], as started. *)
Inductive Task : Type := task (url : jsval) (key : string).

Definition task_url (k : Task) : jsval := let 'task url _ := k in url.

(** [if (image) tasks.push(loadSingle(image, key))] *)
Definition frameTask (image : jsval) (key : string) : list Task :=
  if truthy image then [task image key] else [].

(** [contents.forEach((content, index) => ...)] from [index] on: the loads
    it starts, and whether the callback threw on the way.  [content.type]
    and [content.src] throw on [null] and [undefined]. *)
Fixpoint forEachContent (index : nat) (contents : list jsval)
  : list Task * result unit :=
  match contents with
  | [] => ([], Ok tt)
  | content :: rest =>
      match get content "type" with
      | Throw e => ([], Throw e)
      | Ok type =>
          let started :=
            if is_string type "image" && truthy (get_opt content "src")
            then [task (get_opt content "src") (RealPic.content_key index)]
            else [] in
          let (more, r) := forEachContent (S index) rest in
          ((started ++ more)%list, r)
      end
  end.

(** What [paint] below leaves: the area map, the two frames, and the
    lines it wrote to the console. *)
Record Drawn : Type := mkDrawn {
  drawn_areas : Mount.AreaMap;
  drawn_front : Frame;
  drawn_back : Frame;
  drawn_lines : list Line
}.

Section Environment.

(** The collaborators: the network; the image decoder, asked with the
    value assigned to [img.src]; and the DOM work that follows the first
    three statements of [_createContentAreas] (the rest of it,
    [_applyLayout] and [_mountContents]), which reads the instance, may
    throw, and writes the area map, the frames and the console. *)
Variable fetch : string -> RealPic.FetchOutcome.
Variable loadImage : jsval -> option (N * N).
Variable paint : t -> Drawn * result unit.

Definition _loadConfig : Act unit :=
  fun s =>
    let themeBase := get_opt (options s) "themePath" in
    if negb (truthy themeBase)
    then (s, Throw (Error "themePath is required in options"))
    else
      match themeBase with
      | VStr themeBase =>
          let configPath :=
            (if Str.endsWith themeBase "/" then themeBase
             else themeBase +:+ "/") +:+ "config.json" in
          match RealPic.fetchConfig fetch configPath themeBase with
          | Ok (config, warnings) =>
              (set_parsedConfig config (log (Text <$> warnings) s), Ok tt)
          | Throw _ =>
              let s := log [Text "Failed to load theme:"] s in
              match ConfigParser.parse (VObj []) themeBase with
              | Ok (config, warnings) =>
                  (set_parsedConfig config (log (Text <$> warnings) s), Ok tt)
              | Throw e => (s, Throw e)
              end
          end
      | _ => (s, Throw (TypeError "themeBase.endsWith is not a function"))
      end.

(** The [load] or [error] event of a started load. *)
Definition settle (s : t) (k : Task) : t :=
  let 'task url key := k in
  match loadImage url with
  | Some (w, h) =>
      set_loadedImages (<[key := mkLoaded w h url]> (loadedImages s)) s
  | None => log [About "Failed to load image: " url] s
  end.

(** [_loadImages].  A load whose address cannot be converted to a string
    rejects its promise, and [Promise.all] with it; when the call fulfils,
    every load it started has settled.  When it rejects, no load event has
    run yet: [loadedImages] is the empty object that was just assigned. *)
Definition _loadImages : Act unit :=
  fun s =>
    let s := set_loadedImages ∅ s in
    match parsedConfig s with
    | None => (s, Throw (undefined "front"))
    | Some config =>
        let frames :=
          (frameTask (SideConfig.image (front config)) "frontFrame"
           ++ frameTask (SideConfig.image (back config)) "backFrame")%list in
        match get (options s) "contents" with
        | Throw e => (s, Throw e)
        | Ok contents =>
            match or_else contents (VArr []) with
            | VArr items =>
                match forEachContent 0 items with
                | (_, Throw e) => (s, Throw e)
                | (started, Ok _) =>
                    let tasks := (frames ++ started)%list in
                    if forallb (fun k => Mount.stringifies (task_url k)) tasks
                    then (fold_left settle tasks s, Ok tt)
                    else
                      (s, Throw (TypeError
                                   "Cannot convert object to primitive value"))
                end
            | _ => (s, Throw (TypeError "contents.forEach is not a function"))
            end
        end
    end.

(** The entry of [loadedImages] as [getDimensions] reads it: the size. *)
Definition asset (l : Loaded) : Asset.t :=
  Asset.mk (width l) (height l)
    match url l with VStr u => u | _ => EmptyString end.

Definition resolveDimensions : Act unit :=
  fun s =>
    match parsedConfig s with
    | Some config =>
        (set_dimensions
           (ConfigParser.getDimensions config (asset <$> loadedImages s)) s,
         Ok tt)
    | None => (s, Throw (undefined "front"))
    end.

(** [_createContentAreas(); _applyLayout(); await _mountContents()]:
    the map is cleared, the content of the front frame, then of the back
    frame, is emptied, and the rest is [paint]. *)
Definition draw : Act unit :=
  fun s =>
    let s := set_contentAreas [] s in
    match frontFrame s with
    | None => (s, Throw (undefined "innerHTML"))
    | Some f =>
        let s :=
          set_frontFrame (mkFrame EmptyString (cssText f) (className f)) s in
        match backFrame s with
        | None => (s, Throw (undefined "innerHTML"))
        | Some b =>
            let s :=
              set_backFrame (mkFrame EmptyString (cssText b) (className b)) s in
            let (d, r) := paint s in
            (log (drawn_lines d)
               (set_backFrame (drawn_back d)
                  (set_frontFrame (drawn_front d)
                     (set_contentAreas (drawn_areas d) s))),
             r)
        end
    end.

Definition _loadAndRender : Act unit :=
  seq _loadConfig (seq _loadImages (seq resolveDimensions draw)).

(** [_init]; the resize observer it installs is not part of the state. *)
Definition _init : Act unit := seq _loadAndRender show.

Definition _updateContent : Act unit :=
  seq reset
    (seq _clearFrames
       (fun s =>
          match seq _loadAndRender show (set_contentAreas [] s) with
          | (s', Ok _) => (s', Ok tt)
          | (s', Throw e) => (log [Text "update content failed"] s', Ok tt)
          end)).

Definition setOptions (options : jsval) : Act unit :=
  fun s =>
    let s := set_options options s in
    if isInitialized s then _updateContent s
    else
      match _init s with
      | (s', Ok _) => (set_isInitialized true s', Ok tt)
      | (s', Throw e) => (s', Throw e)
      end.

End Environment.

(** The states an instance goes through: from construction, by any
    sequence of calls, with any options and any environment, and of timer
    callbacks. *)
Inductive reachable : t -> Prop :=
| reach_new c s : constructor c = Ok s -> reachable s
| reach_flip s : reachable s -> reachable (fst (flip s))
| reach_reset s : reachable s -> reachable (fst (reset s))
| reach_show s : reachable s -> reachable (fst (show s))
| reach_hide s : reachable s -> reachable (fst (hide s))
| reach_timeout s : reachable s -> reachable (timeout s)
| reach_setOptions fetch loadImage paint options s :
    reachable s ->
    reachable (fst (setOptions fetch loadImage paint options s)).

(** Every element the methods dereference exists. *)
Definition built (s : t) : bool :=
  match rootElement s, perspectiveWrapper s, frontFrame s, backFrame s with
  | Some _, Some _, Some _, Some _ => true
  | _, _, _, _ => false
  end.

(** An item of [contents] that [_loadImages] gets past: not [null] or
    [undefined], and when it is an image with a truthy [src], one that
    converts to a string. *)
Definition item_ok (content : jsval) : bool :=
  negb (nullish content)
  && (negb (is_string (get_opt content "type") "image"
            && truthy (get_opt content "src"))
      || Mount.stringifies (get_opt content "src")).

(** The options the first [setOptions] gets past: [themePath] is a
    non-empty string, and [contents] is falsy or an array of items that
    are [item_ok]. *)
Definition accepted (options : jsval) : bool :=
  match get_opt options "themePath" with
  | VStr themeBase =>
      negb (String.eqb themeBase EmptyString)
      && match get_opt options "contents" with
         | VArr items => forallb item_ok items
         | contents => negb (truthy contents)
         end
  | _ => false
  end.

(** Options read from [{ themePath, contents }]. *)
Definition options_of (themePath contents : jsval) : jsval :=
  VObj [("themePath", themePath); ("contents", contents)].

End Boundary.

(** ** Notions used by further statements *)

Module Notions.

(** The base [_resolveImagePaths] prepends: the theme path with a trailing
    slash. *)
Definition theme_base (themeBase : string) : string :=
  if Str.endsWith themeBase "/" then themeBase else themeBase +:+ "/".

(** A frame image after path resolution: none, or a non-empty path that
    starts with ["http"], with ["/"] or with the theme base. *)
Definition resolved_image (base : string) (image : jsval) : Prop :=
  image = VNull
  \/ exists q,
      image = VStr q
      /\ String.eqb q EmptyString = false
      /\ Str.startsWith q "http" || Str.startsWith q "/" || Str.startsWith q base
         = true.

(** No code unit of the string is an upper-case letter A-Z. *)
Fixpoint no_upper (s : string) : bool :=
  match s with
  | String c r => negb (AreaLayout.is_upper c) && no_upper r
  | EmptyString => true
  end.

(** The entry [_loadImages] stores for a content item: the decoded size of
    its [src] when the item is an image with a non-empty [src] that the
    decoder accepts. *)
Definition decoded (loadImage : string -> option (N * N))
  (content : RealPic.ContentItem) : option Asset.t :=
  match RealPic.src content with
  | Some url =>
      if String.eqb (RealPic.type content) "image"
         && negb (String.eqb url EmptyString)
      then
        match loadImage url with
        | Some (w, h) => Some (Asset.mk w h url)
        | None => None
        end
      else None
  | None => None
  end.

(** One round of the loop of [_loadImages] over the contents. *)
Definition load_item (loadImage : string -> option (N * N)) (index : nat)
  (content : RealPic.ContentItem) (s : RealPic.t) : RealPic.t :=
  match RealPic.src content with
  | Some url =>
      if String.eqb (RealPic.type content) "image"
         && negb (String.eqb url EmptyString)
      then RealPic.loadSingle loadImage url (RealPic.content_key index) s
      else s
  | None => s
  end.

(** The entry [_loadImages] stores for a frame image. *)
Definition decoded_frame (loadImage : string -> option (N * N))
  (image : jsval) : option Asset.t :=
  match image with
  | VStr url =>
      if truthy image then
        match loadImage url with
        | Some (w, h) => Some (Asset.mk w h url)
        | None => None
        end
      else None
  | _ => None
  end.

(** The last area of a list whose id is the given key, as [Map] keys
    compare. *)
Definition last_with_id (key : jsval) (contentArea : list ContentArea.t)
  : option ContentArea.t :=
  find (fun a => Mount.same_value_zero (ContentArea.area a) key)
    (rev contentArea).

(** A key of [contentAreas] that is not an object or an array. *)
Definition primitive (v : jsval) : bool :=
  match v with VArr _ | VObj _ => false | _ => true end.

End Notions.

(** * Properties *)

(** ** Numbers and strings *)

Module StrFacts.

Import Str.

Lemma eqb_true (s p : string) : String.eqb s p = true -> s = p.
Proof. apply String.eqb_eq. Qed.

Lemma endsWith_cons (a : ascii) (r p : string) :
  endsWith (String a r) p = true ->
  String a r = p \/ endsWith r p = true.
Proof.
  cbn [endsWith].
  destruct (String.eqb (String a r) p) eqn:E.
  - left. now apply eqb_true.
  - now right.
Qed.

Lemma endsWith_nil (p : string) : endsWith EmptyString p = true -> p = EmptyString.
Proof.
  cbn [endsWith].
  destruct (String.eqb EmptyString p) eqn:E; [|discriminate].
  intros _. symmetry. now apply eqb_true.
Qed.

Lemma trimEnd_fixed (s : string) : last_nonwhite s = true -> trimEnd s = s.
Proof.
  induction s as [|c r IH]; [discriminate|].
  destruct r as [|d r'].
  - cbn. destruct (is_white c); [discriminate | reflexivity].
  - intros H. change (last_nonwhite (String d r') = true) in H.
    specialize (IH H).
    change (trimEnd (String c (String d r')))
      with (match trimEnd (String d r') with
            | EmptyString =>
                if is_white c then EmptyString else String c EmptyString
            | String x y => String c (String x y)
            end).
    now rewrite IH.
Qed.

Lemma endsWith_last (s p : string) :
  last_nonwhite p = true -> endsWith s p = true -> last_nonwhite s = true.
Proof.
  intros Hp. induction s as [|a r IH]; intros H.
  - apply endsWith_nil in H. subst p. discriminate.
  - apply endsWith_cons in H as [->|H]; [assumption|].
    specialize (IH H). destruct r; [discriminate | exact IH].
Qed.

Lemma endsWith_trimStart (s p : string) :
  head_nonwhite p = true -> endsWith s p = true ->
  endsWith (trimStart s) p = true.
Proof.
  intros Hp. induction s as [|a r IH]; intros H; [exact H|].
  cbn [trimStart]. destruct (is_white a) eqn:W; [|exact H].
  apply endsWith_cons in H as [<-|H]; [|now apply IH].
  cbn in Hp. rewrite W in Hp. discriminate.
Qed.

(** A suffix that neither starts nor ends with white space survives
    [trim]. *)
Lemma endsWith_trim (s p : string) :
  head_nonwhite p = true -> last_nonwhite p = true ->
  endsWith s p = true -> endsWith (trim s) p = true.
Proof.
  intros Hh Hl H. unfold trim.
  pose proof (endsWith_trimStart s p Hh H) as H1.
  rewrite trimEnd_fixed; [exact H1|].
  now apply (endsWith_last _ p).
Qed.

Lemma endsWith_px_not_percent (s : string) :
  endsWith s "px" = true -> endsWith s "%" = false.
Proof.
  induction s as [|a r IH]; intros H.
  - apply endsWith_nil in H. discriminate.
  - apply endsWith_cons in H as [->|H]; [reflexivity|].
    cbn [endsWith]. rewrite (IH H).
    destruct r as [|b r']; [apply endsWith_nil in H; discriminate|].
    destruct (String.eqb (String a (String b r')) "%") eqn:E; [|reflexivity].
    apply eqb_true in E. discriminate.
Qed.

End StrFacts.

Module NumFacts.

Lemma le_fin (x y : Q) : Num.le (Fin x) (Fin y) = true <-> (x <= y)%Q.
Proof. apply Qle_bool_iff. Qed.

Lemma le_fin_false (x y : Q) : Num.le (Fin x) (Fin y) = false <-> (y < x)%Q.
Proof.
  cbn. split; intros H.
  - apply Qnot_le_lt. intros L. apply Qle_bool_iff in L. congruence.
  - destruct (Qle_bool x y) eqn:E; [|reflexivity].
    apply Qle_bool_iff in E. exfalso. now apply (Qlt_not_le y x).
Qed.

Lemma is_zero_false (q : Q) : (0 < q)%Q -> Num.is_zero q = false.
Proof.
  unfold Num.is_zero, Qlt. cbn. intros H. apply Z.eqb_neq. lia.
Qed.

End NumFacts.

(** ** [_parseDimension] *)

Module ParseDimension.

Import RealPic.

Local Open Scope Q_scope.

(** C1.  [_parseDimension] is a function of its two arguments, and it
    disambiguates a dimension value five ways: a number [v <= 1] gives
    [v * b]; a number [v > 1] gives [v]; a string ending in ["%"] gives
    [parseFloat / 100 * b]; a string ending in ["px"] gives its parsed
    number; any other string follows the number rule on its parsed number.
    In particular 0.5, 560, "50%", "560px" and 1000 against base 1000 give
    500, 560, 500, 560 and 1000, and the number 1 gives the base. *)
Theorem parseDimension_five_way :
  (forall (v : Q) (b : jsnum),
      v <= 1 -> _parseDimension (DNum (Fin v)) b = Num.mul (Fin v) b)
  /\ (forall (v : Q) (b : jsnum),
      1 < v -> _parseDimension (DNum (Fin v)) b = Fin v)
  /\ (forall (s : string) (b : jsnum),
      Str.endsWith s "%" = true ->
      _parseDimension (DStr s) b
      = Num.mul (Num.div (Str.parseFloat (Str.trim s)) (Fin 100)) b)
  /\ (forall (s : string) (b : jsnum),
      Str.endsWith s "px" = true ->
      _parseDimension (DStr s) b = Str.parseFloat (Str.trim s))
  /\ (forall (s : string) (b : jsnum),
      Str.endsWith (Str.trim s) "%" = false ->
      Str.endsWith (Str.trim s) "px" = false ->
      _parseDimension (DStr s) b
      = _parseDimension (DNum (Str.parseFloat (Str.trim s))) b)
  /\ _parseDimension (DNum (Fin 0.5)) (Fin 1000) =n= Fin 500
  /\ _parseDimension (DNum (Fin 560)) (Fin 1000) =n= Fin 560
  /\ _parseDimension (DStr "50%") (Fin 1000) =n= Fin 500
  /\ _parseDimension (DStr "560px") (Fin 1000) =n= Fin 560
  /\ _parseDimension (DNum (Fin 1000)) (Fin 1000) =n= Fin 1000
  /\ (forall b : Q, _parseDimension (DNum (Fin 1)) (Fin b) =n= Fin b).
Proof.
  repeat split.
  - intros v b Hv. unfold _parseDimension, Num.of_Z.
    now rewrite (proj2 (NumFacts.le_fin v (inject_Z 1)) Hv).
  - intros v b Hv. unfold _parseDimension, Num.of_Z.
    now rewrite (proj2 (NumFacts.le_fin_false v (inject_Z 1)) Hv).
  - intros s b Hs. cbn [_parseDimension].
    now rewrite (StrFacts.endsWith_trim s "%" eq_refl eq_refl Hs).
  - intros s b Hs. cbn [_parseDimension].
    pose proof (StrFacts.endsWith_trim s "px" eq_refl eq_refl Hs) as Ht.
    now rewrite (StrFacts.endsWith_px_not_percent _ Ht), Ht.
  - intros s b H1 H2. cbn [_parseDimension]. now rewrite H1, H2.
  - intros b. unfold _parseDimension, Num.of_Z.
    rewrite (proj2 (NumFacts.le_fin 1 (inject_Z 1))) by (unfold Qle; cbn; lia).
    unfold Num.mul, Num.eqv. ring.
Qed.

Lemma parseDimension_five_way_witness :
  _parseDimension (DNum (Fin 0.25)) (Fin 800) = Num.mul (Fin 0.25) (Fin 800)
  /\ _parseDimension (DNum (Fin 46)) (Fin 800) = Fin 46
  /\ _parseDimension (DStr " 10%") (Fin 800)
     = Num.mul (Num.div (Str.parseFloat (Str.trim " 10%")) (Fin 100)) (Fin 800)
  /\ _parseDimension (DStr "990px") (Fin 800) = Str.parseFloat (Str.trim "990px")
  /\ _parseDimension (DStr "0.5") (Fin 800)
     = _parseDimension (DNum (Str.parseFloat (Str.trim "0.5"))) (Fin 800).
Proof.
  destruct parseDimension_five_way as (H1 & H2 & H3 & H4 & H5 & _).
  split; [apply H1; unfold Qle; cbn; lia|].
  split; [apply H2; unfold Qlt; cbn; lia|].
  split; [apply H3; reflexivity|].
  split; [apply H4; reflexivity | apply H5; reflexivity].
Defined.

End ParseDimension.

(** ** ConfigParser: normalization *)

Module ParserFacts.

Import ConfigParser Descriptor.

Lemma get_prop (v : jsval) (k : string) :
  nullish v = false -> get v k = Ok (prop v k).
Proof. destruct v; cbn; congruence. Qed.

Lemma get_inv (v : jsval) (k : string) (r : jsval) :
  get v k = Ok r -> nullish v = false /\ r = prop v k.
Proof. destruct v; cbn; intros H; inversion H; auto. Qed.

Lemma truthy_not_nullish (v : jsval) : truthy v = true -> nullish v = false.
Proof. destruct v; cbn; congruence. Qed.

Lemma or_else_truthy (a b : jsval) : truthy b = true -> truthy (or_else a b) = true.
Proof. unfold or_else. destruct (truthy a) eqn:E; auto. Qed.

Lemma side_of_not_nullish (rawConfig : jsval) (k : string) :
  nullish (side_of rawConfig k) = false.
Proof. apply truthy_not_nullish. now apply or_else_truthy. Qed.

Lemma coalesce_defined (a b : jsval) : nullish b = false -> nullish (coalesce a b) = false.
Proof. unfold coalesce. destruct (nullish a) eqn:E; auto. Qed.

Lemma coalesce_not_undef (a : jsval) : is_undefined (coalesce a VNull) = false.
Proof. now destruct a. Qed.

(** [_parseSideConfig] returns on every value that is not [null] or
    [undefined], and its result is the four defaulted fields. *)
Lemma parseSideConfig_ok (sideConfig : jsval) :
  nullish sideConfig = false ->
  _parseSideConfig sideConfig = Ok (defaulted_side sideConfig).
Proof.
  intros H. unfold _parseSideConfig.
  rewrite !(get_prop _ _ H). cbn [bind]. f_equal.
  unfold defaulted_side.
  destruct (negb (truthy (prop sideConfig "image"))
            && negb (truthy (prop sideConfig "width"))
            && negb (truthy (prop sideConfig "height"))
            && negb (truthy (prop sideConfig "background"))) eqn:E;
    [|reflexivity].
  apply andb_prop in E as [_ E]. apply negb_true_iff in E.
  unfold SideConfig.set_background, or_else. cbn. now rewrite E.
Qed.

Lemma parseSideConfig_inv (sideConfig : jsval) (c : SideConfig.t) :
  _parseSideConfig sideConfig = Ok c ->
  nullish sideConfig = false /\ c = defaulted_side sideConfig.
Proof.
  intros H. destruct (nullish sideConfig) eqn:N.
  - destruct sideConfig; discriminate.
  - rewrite (parseSideConfig_ok _ N) in H. inversion H. auto.
Qed.

Lemma defaulted_side_ok (sideConfig : jsval) :
  side_defaulted (defaulted_side sideConfig).
Proof.
  unfold side_defaulted, defaulted_side. cbn.
  repeat split.
  - now apply or_else_truthy.
  - unfold or_else. destruct (truthy (prop sideConfig "image")) eqn:E; auto.
  - apply coalesce_not_undef.
  - apply coalesce_not_undef.
Qed.

End ParserFacts.

Module AreaFacts.

Import ConfigParser Descriptor ParserFacts.

Lemma parse_area_ok (index : nat) (area : jsval) :
  nullish area = false ->
  exists r, parse_area index area = Ok r /\ area_defaulted r.
Proof.
  intros H. unfold parse_area. rewrite !(get_prop _ _ H). cbn [bind].
  eexists. split; [reflexivity|].
  unfold area_defaulted. cbn.
  repeat split;
    try (apply or_else_truthy; now destruct (index =? 0)%nat);
    apply coalesce_defined; now destruct (index =? 0)%nat.
Qed.

Lemma parse_area_throws (index : nat) (area : jsval) :
  nullish area = true -> returns (parse_area index area) = false.
Proof. destruct area; cbn; congruence. Qed.

Lemma map_areas_ok (areas : list jsval) :
  forall index,
    forallb (fun a => negb (nullish a)) areas = true ->
    exists rs,
      map_areas index areas = Ok rs
      /\ length rs = length areas
      /\ Forall area_defaulted rs.
Proof.
  induction areas as [|a rest IH]; intros index H.
  - exists []. repeat split. constructor.
  - cbn in H. apply andb_prop in H as [Ha Hr].
    apply negb_true_iff in Ha.
    destruct (parse_area_ok index a Ha) as (r & Er & Dr).
    destruct (IH (S index) Hr) as (rs & Ers & Lrs & Frs).
    exists (r :: rs). cbn [map_areas]. rewrite Er. cbn [bind]. rewrite Ers.
    cbn. repeat split; [congruence | now constructor].
Qed.

Lemma map_areas_throws (areas : list jsval) :
  forall index,
    forallb (fun a => negb (nullish a)) areas = false ->
    returns (map_areas index areas) = false.
Proof.
  induction areas as [|a rest IH]; intros index H; [discriminate|].
  cbn in H. cbn [map_areas].
  destruct (nullish a) eqn:Na.
  - destruct a; try discriminate; reflexivity.
  - cbn in H. destruct (parse_area_ok index a Na) as (r & -> & _).
    cbn [bind]. specialize (IH (S index) H).
    destruct (map_areas (S index) rest); [discriminate | reflexivity].
Qed.

(** A value that is not a non-empty array yields the two built-in areas. *)
Lemma parseContentAreas_default (areas : jsval) :
  match areas with VArr (_ :: _) => False | _ => True end ->
  _parseContentAreas areas = Ok default_areas.
Proof. destruct areas as [| | | | |[|a l]|]; cbn; tauto. Qed.

End AreaFacts.

Module PathFacts.

Import ConfigParser Descriptor ParserFacts.

Lemma resolvePath_string (p base : string) :
  exists p', _resolvePath (VStr p) base = Ok (VStr p').
Proof.
  unfold _resolvePath.
  destruct (Str.startsWith p "http" || Str.startsWith p "/");
    [eauto|destruct (Str.startsWith p "./"); eauto].
Qed.

Lemma resolvePath_returns (themeBase : string) (image : jsval) (base : string) :
  String.eqb themeBase EmptyString = false ->
  truthy image = true ->
  returns (_resolvePath image base) = path_ok themeBase image.
Proof.
  intros Hb Ht. unfold path_ok. rewrite Hb, Ht. cbn.
  destruct image; try reflexivity.
  destruct (resolvePath_string s base) as (p' & ->). reflexivity.
Qed.

(** The resolved image of a truthy string is a truthy string again. *)
Lemma resolvePath_truthy (p themeBase : string) (r : jsval) :
  String.eqb themeBase EmptyString = false ->
  truthy (VStr p) = true ->
  _resolvePath (VStr p)
    (if Str.endsWith themeBase "/" then themeBase else themeBase +:+ "/")
  = Ok r ->
  truthy r = true.
Proof.
  intros Hb Hp. destruct themeBase as [|c tb]; [discriminate|].
  assert (exists rest,
             (if Str.endsWith (String c tb) "/" then String c tb
              else String c tb +:+ "/") = String c rest) as (rest & ->).
  { destruct (Str.endsWith (String c tb) "/"); eexists; reflexivity. }
  unfold _resolvePath.
  destruct (Str.startsWith p "http" || Str.startsWith p "/").
  - intros H. inversion H. subst. exact Hp.
  - destruct (Str.startsWith p "./"); intros H; inversion H; reflexivity.
Qed.

End PathFacts.

Module ImagePathFacts.

Import ConfigParser Descriptor ParserFacts PathFacts.

Lemma set_image_same (c : SideConfig.t) :
  SideConfig.set_image (SideConfig.image c) c = c.
Proof. now destruct c. Qed.

Lemma resolve_value (themeBase : string) (image : jsval) :
  String.eqb themeBase EmptyString = false ->
  truthy image = true ->
  path_ok themeBase image = true ->
  exists p,
    _resolvePath image
      (if Str.endsWith themeBase "/" then themeBase else themeBase +:+ "/")
    = Ok p
    /\ truthy p = true.
Proof.
  intros Hb T Hok. unfold path_ok in Hok. rewrite Hb, T in Hok. cbn in Hok.
  destruct image; try discriminate.
  destruct (resolvePath_string s
              (if Str.endsWith themeBase "/" then themeBase
               else themeBase +:+ "/")) as (p' & E).
  exists (VStr p'). split; [exact E|].
  eapply resolvePath_truthy; eauto.
Qed.

Lemma resolveImagePaths_ok (config : NormalizedConfig) (themeBase : string) :
  path_ok themeBase (SideConfig.image (front config)) = true ->
  path_ok themeBase (SideConfig.image (back config)) = true ->
  exists fi bi,
    _resolveImagePaths config themeBase
    = Ok (mkConfig (SideConfig.set_image fi (front config))
            (SideConfig.set_image bi (back config)) (contentArea config))
    /\ truthy fi = truthy (SideConfig.image (front config))
    /\ (truthy fi = false -> fi = SideConfig.image (front config))
    /\ truthy bi = truthy (SideConfig.image (back config))
    /\ (truthy bi = false -> bi = SideConfig.image (back config)).
Proof.
  intros Hf Hb. unfold _resolveImagePaths.
  destruct (String.eqb themeBase EmptyString) eqn:B.
  { exists (SideConfig.image (front config)), (SideConfig.image (back config)).
    rewrite !set_image_same. destruct config. auto. }
  destruct (truthy (SideConfig.image (front config))) eqn:Tf;
    destruct (truthy (SideConfig.image (back config))) eqn:Tb.
  - destruct (resolve_value _ _ B Tf Hf) as (p & -> & Tp).
    cbn. rewrite Tb.
    destruct (resolve_value _ _ B Tb Hb) as (q & -> & Tq).
    exists p, q. cbn. repeat split; congruence.
  - destruct (resolve_value _ _ B Tf Hf) as (p & -> & Tp).
    cbn. rewrite Tb.
    exists p, (SideConfig.image (back config)).
    rewrite set_image_same. repeat split; congruence.
  - cbn. rewrite Tb.
    destruct (resolve_value _ _ B Tb Hb) as (q & -> & Tq).
    exists (SideConfig.image (front config)), q.
    rewrite set_image_same. cbn. repeat split; congruence.
  - cbn. rewrite Tb.
    exists (SideConfig.image (front config)), (SideConfig.image (back config)).
    rewrite !set_image_same. destruct config. auto.
Qed.

Lemma resolveImagePaths_throws (config : NormalizedConfig) (themeBase : string) :
  path_ok themeBase (SideConfig.image (front config))
  && path_ok themeBase (SideConfig.image (back config)) = false ->
  returns (_resolveImagePaths config themeBase) = false.
Proof.
  intros H. unfold _resolveImagePaths.
  destruct (String.eqb themeBase EmptyString) eqn:B.
  { unfold path_ok in H. rewrite B in H. discriminate. }
  destruct (truthy (SideConfig.image (front config))) eqn:Tf.
  - pose proof (resolvePath_returns themeBase _
                  (if Str.endsWith themeBase "/" then themeBase
                   else themeBase +:+ "/") B Tf) as R.
    destruct (path_ok themeBase (SideConfig.image (front config))) eqn:Pf.
    + destruct (_resolvePath (SideConfig.image (front config)) _) eqn:E;
        [|discriminate].
      cbn. cbn in H.
      destruct (truthy (SideConfig.image (back config))) eqn:Tb.
      * pose proof (resolvePath_returns themeBase _
                  (if Str.endsWith themeBase "/" then themeBase
                   else themeBase +:+ "/") B Tb) as R'.
        rewrite H in R'.
        destruct (_resolvePath (SideConfig.image (back config)) _);
          [discriminate | reflexivity].
      * unfold path_ok in H. rewrite Tb, B in H. discriminate.
    + destruct (_resolvePath (SideConfig.image (front config)) _);
        [discriminate | reflexivity].
  - cbn.
    assert (path_ok themeBase (SideConfig.image (front config)) = true) as Pf.
    { unfold path_ok. rewrite Tf, B. reflexivity. }
    rewrite Pf in H. cbn in H.
    destruct (truthy (SideConfig.image (back config))) eqn:Tb.
    + pose proof (resolvePath_returns themeBase _
                  (if Str.endsWith themeBase "/" then themeBase
                   else themeBase +:+ "/") B Tb) as R'.
      rewrite H in R'.
      destruct (_resolvePath (SideConfig.image (back config)) _);
        [discriminate | reflexivity].
    + unfold path_ok in H. rewrite Tb, B in H. discriminate.
Qed.

End ImagePathFacts.

Module ParseFacts.

Import ConfigParser Descriptor ParserFacts AreaFacts PathFacts ImagePathFacts.

Lemma parseContentAreas_returns (areas : jsval) :
  returns (_parseContentAreas areas)
  = match areas with
    | VArr items => forallb (fun a => negb (nullish a)) items
    | _ => true
    end.
Proof.
  destruct areas as [| | | | |items|]; try reflexivity.
  destruct items as [|a l]; [reflexivity|].
  cbn [_parseContentAreas].
  destruct (forallb (fun a => negb (nullish a)) (a :: l)) eqn:E.
  - destruct (map_areas_ok (a :: l) 0 E) as (rs & -> & _). reflexivity.
  - now apply map_areas_throws.
Qed.

Lemma is_null_coalesce (v : jsval) : is_null (coalesce v VNull) = nullish v.
Proof. now destruct v. Qed.

Lemma coalesce_id (v : jsval) : nullish v = false -> coalesce v VNull = v.
Proof. now destruct v. Qed.

Lemma or_else_null (v : jsval) :
  truthy (or_else v VNull) = truthy v
  /\ (truthy v = false -> or_else v VNull = VNull)
  /\ (truthy v = true -> or_else v VNull = v).
Proof.
  unfold or_else. destruct (truthy v) eqn:E;
    repeat split; intros; try congruence; reflexivity.
Qed.

Lemma path_ok_or_else (themeBase : string) (v : jsval) :
  path_ok themeBase (or_else v VNull) = path_ok themeBase v.
Proof.
  unfold path_ok, or_else. destruct (truthy v) eqn:E; rewrite ?E; [reflexivity|].
  cbn. now rewrite !orb_true_r.
Qed.

Lemma resolveDependencies_spec (f b : SideConfig.t) (areas : list ContentArea.t) :
  _resolveDependencies (mkConfig f b areas)
  = mkConfig f
      (SideConfig.mk (SideConfig.image b) (SideConfig.background b)
         (if is_null (SideConfig.width b) then SideConfig.width f
          else SideConfig.width b)
         (if is_null (SideConfig.height b) then SideConfig.height f
          else SideConfig.height b))
      areas.
Proof.
  unfold _resolveDependencies. destruct b as [i bg w h]. cbn.
  destruct (is_null w); cbn; destruct (is_null h); reflexivity.
Qed.

Lemma parse_ok (rawConfig : jsval) (themeBase : string) :
  well_formed rawConfig themeBase = true ->
  exists config,
    parse rawConfig themeBase = Ok (config, _validate config)
    /\ parsed_from rawConfig config.
Proof.
  unfold well_formed. intros H.
  apply andb_prop in H as [H Ha]. apply andb_prop in H as [H Hb].
  apply andb_prop in H as [Hn Hf]. apply negb_true_iff in Hn.
  unfold areas_ok in Ha. rewrite <- parseContentAreas_returns in Ha.
  destruct (_parseContentAreas (or_else (prop rawConfig "contentArea") (VArr [])))
    as [areas|] eqn:Ea; [clear Ha|discriminate].
  unfold parse. rewrite !(get_prop _ _ Hn). cbn [bind].
  fold (side_of rawConfig "front"). fold (side_of rawConfig "back").
  rewrite !(parseSideConfig_ok _ (side_of_not_nullish _ _)). cbn [bind].
  rewrite Ea. cbn [bind]. rewrite resolveDependencies_spec.
  set (f := side_of rawConfig "front") in *.
  set (b := side_of rawConfig "back") in *.
  match goal with
  | |- context [_resolveImagePaths ?c themeBase] =>
      destruct (resolveImagePaths_ok c themeBase) as (fi & bi & -> & F1 & F2 & B1 & B2)
  end.
  { cbn. now rewrite path_ok_or_else. }
  { cbn. now rewrite path_ok_or_else. }
  cbn [bind]. eexists. split; [reflexivity|].
  cbn in F1, F2, B1, B2.
  destruct (or_else_null (prop f "image")) as (Tf & Nf & _).
  destruct (or_else_null (prop b "image")) as (Tb & Nb & _).
  unfold parsed_from. cbn. fold f. fold b.
  rewrite !is_null_coalesce.
  repeat split; try congruence.
  - intros E. rewrite F2 by congruence. auto.
  - destruct (nullish (prop b "width")) eqn:N; [reflexivity|now apply coalesce_id].
  - destruct (nullish (prop b "height")) eqn:N; [reflexivity|now apply coalesce_id].
  - intros E. rewrite B2 by congruence. auto.
Qed.

Lemma parse_throws (rawConfig : jsval) (themeBase : string) :
  well_formed rawConfig themeBase = false ->
  returns (parse rawConfig themeBase) = false.
Proof.
  unfold well_formed. intros H.
  destruct (nullish rawConfig) eqn:Hn.
  { destruct rawConfig; try discriminate; reflexivity. }
  cbn in H. unfold parse. rewrite !(get_prop _ _ Hn). cbn [bind].
  fold (side_of rawConfig "front"). fold (side_of rawConfig "back").
  rewrite !(parseSideConfig_ok _ (side_of_not_nullish _ _)). cbn [bind].
  destruct (areas_ok rawConfig) eqn:Ha.
  - unfold areas_ok in Ha. rewrite <- parseContentAreas_returns in Ha.
    destruct (_parseContentAreas (or_else (prop rawConfig "contentArea") (VArr [])))
      as [areas|] eqn:Ea; [clear Ha|discriminate].
    cbn [bind]. rewrite resolveDependencies_spec.
    rewrite andb_true_r in H.
    match goal with
    | |- context [_resolveImagePaths ?c themeBase] =>
        pose proof (resolveImagePaths_throws c themeBase) as T
    end.
    cbn in T. rewrite !path_ok_or_else in T. specialize (T H).
    destruct (_resolveImagePaths _ themeBase); [discriminate|reflexivity].
  - unfold areas_ok in Ha. rewrite <- parseContentAreas_returns in Ha.
    destruct (_parseContentAreas (or_else (prop rawConfig "contentArea") (VArr [])));
      [discriminate|reflexivity].
Qed.

Lemma parse_inv (rawConfig : jsval) (themeBase : string)
  (config : NormalizedConfig) (warnings : list string) :
  parse rawConfig themeBase = Ok (config, warnings) ->
  well_formed rawConfig themeBase = true
  /\ warnings = _validate config
  /\ parsed_from rawConfig config.
Proof.
  intros H. destruct (well_formed rawConfig themeBase) eqn:W.
  - destruct (parse_ok _ _ W) as (c & E & P). rewrite E in H.
    inversion H. subst. auto.
  - apply parse_throws in W. rewrite H in W. discriminate.
Qed.

End ParseFacts.

(** ** [getDimensions]: explicit sizes *)

Module DimensionFacts.

Import ConfigParser.

Lemma fill_from_explicit_width (img : option Asset.t) (w h : jsval) :
  nullish w = false -> fst (fill_from img (w, h)) = w.
Proof.
  intros N. unfold fill_from.
  destruct (is_null w || is_null h); [|reflexivity].
  destruct img; [|reflexivity]. cbn. unfold coalesce. now rewrite N.
Qed.

Lemma fill_from_explicit_height (img : option Asset.t) (w h : jsval) :
  nullish h = false -> snd (fill_from img (w, h)) = h.
Proof.
  intros N. unfold fill_from.
  destruct (is_null w || is_null h); [|reflexivity].
  destruct img; [|reflexivity]. cbn. unfold coalesce. now rewrite N.
Qed.

Lemma front_width_explicit (config : NormalizedConfig)
  (loadedImages : gmap string Asset.t) (v : jsval) :
  SideConfig.width (front config) = v -> nullish v = false ->
  Size.width (dim_front (getDimensions config loadedImages)) = v
  /\ Size.width (realpic (getDimensions config loadedImages)) = v.
Proof.
  intros E N. unfold getDimensions. cbn [dim_front realpic Size.width].
  rewrite E.
  destruct (fill_from (loadedImages !! "frontFrame")
              (v, SideConfig.height (front config))) as [w1 h1] eqn:F1.
  pose proof (fill_from_explicit_width (loadedImages !! "frontFrame") v
                (SideConfig.height (front config)) N) as W1.
  rewrite F1 in W1. cbn in W1. subst w1.
  rewrite (fill_from_explicit_width _ v h1 N).
  unfold coalesce. rewrite N. auto.
Qed.

Lemma front_height_explicit (config : NormalizedConfig)
  (loadedImages : gmap string Asset.t) (v : jsval) :
  SideConfig.height (front config) = v -> nullish v = false ->
  Size.height (dim_front (getDimensions config loadedImages)) = v
  /\ Size.height (realpic (getDimensions config loadedImages)) = v.
Proof.
  intros E N. unfold getDimensions. cbn [dim_front realpic Size.height].
  rewrite E.
  destruct (fill_from (loadedImages !! "frontFrame")
              (SideConfig.width (front config), v)) as [w1 h1] eqn:F1.
  pose proof (fill_from_explicit_height (loadedImages !! "frontFrame")
                (SideConfig.width (front config)) v N) as H1.
  rewrite F1 in H1. cbn in H1. subst h1.
  rewrite (fill_from_explicit_height _ w1 v N).
  unfold coalesce. rewrite N. auto.
Qed.

Lemma back_width_explicit (config : NormalizedConfig)
  (loadedImages : gmap string Asset.t) (v : jsval) :
  SideConfig.width (back config) = v -> nullish v = false ->
  Size.width (dim_back (getDimensions config loadedImages)) = v.
Proof.
  intros E N. unfold getDimensions. cbn [dim_back Size.width].
  rewrite E. unfold coalesce at 1. now rewrite N.
Qed.

Lemma back_height_explicit (config : NormalizedConfig)
  (loadedImages : gmap string Asset.t) (v : jsval) :
  SideConfig.height (back config) = v -> nullish v = false ->
  Size.height (dim_back (getDimensions config loadedImages)) = v.
Proof.
  intros E N. unfold getDimensions. cbn [dim_back Size.height].
  rewrite E. unfold coalesce at 1. now rewrite N.
Qed.

End DimensionFacts.

(** ** Normalization: main results *)

Module Normalization.

Import ConfigParser Descriptor ParserFacts AreaFacts ParseFacts.

(** C2.  Normalizing the empty descriptor [{}] with base ["/themes/x/"]:
    both sides get the default background ["#eeeeee"] and no image, and the
    content-area list is the two built-in areas, area 0 on ["front"] and
    area 1 on ["back"].  These two areas carry no geometry: [x], [y],
    [width], [height], [position] and [fit] are all [undefined], not
    0/0/1/1 and 0.1/0.1/0.8/0.8 with [center] and [contain]. *)
Theorem parse_empty_descriptor :
  parse (VObj []) "/themes/x/"
  = Ok (mkConfig
          (SideConfig.mk VNull (VStr "#eeeeee") VNull VNull)
          (SideConfig.mk VNull (VStr "#eeeeee") VNull VNull)
          [ ContentArea.mk (num 0) (VStr "front")
              VUndef VUndef VUndef VUndef VUndef VUndef VUndef;
            ContentArea.mk (num 1) (VStr "back")
              VUndef VUndef VUndef VUndef VUndef VUndef VUndef ],
        []).
Proof. reflexivity. Qed.

(** The same holds for every descriptor whose [contentArea] is missing,
    empty or not an array. *)
Lemma default_areas_without_geometry (rawConfig : jsval) (themeBase : string)
  (config : NormalizedConfig) (warnings : list string) :
  match prop rawConfig "contentArea" with
  | VArr (_ :: _) => False
  | _ => True
  end ->
  parse rawConfig themeBase = Ok (config, warnings) ->
  contentArea config = default_areas
  /\ Forall (fun a => ContentArea.x a = VUndef /\ ContentArea.y a = VUndef
                      /\ ContentArea.width a = VUndef
                      /\ ContentArea.height a = VUndef
                      /\ ContentArea.position a = VUndef
                      /\ ContentArea.fit a = VUndef)
       (contentArea config).
Proof.
  intros Hc H. apply parse_inv in H as (_ & _ & P).
  unfold parsed_from in P.
  do 10 (destruct P as [_ P]).
  rewrite parseContentAreas_default in P.
  - inversion P as [E]. split; [reflexivity|].
    repeat constructor.
  - unfold or_else.
    destruct (truthy (prop rawConfig "contentArea")); [exact Hc | exact I].
Qed.

(** C8.  The dependency pass copies [front.width] into [back.width] when
    the latter is [null], and likewise for [height]; it leaves the front
    and the areas alone and a second pass changes nothing.  So when
    [back.width] is unset ([undefined] or [null]) and [front.width] is set
    to [v], the normalized configuration has [back.width = v] and
    [front.width = v].  Normalizing
    [{front:{width:800,height:600}, back:{}}] gives [back.width = 800] and
    [back.height = 600]. *)
Theorem back_inherits_front_size :
  (forall config : NormalizedConfig,
      (is_null (SideConfig.width (back config)) = true ->
       SideConfig.width (back (_resolveDependencies config))
       = SideConfig.width (front config))
      /\ (is_null (SideConfig.height (back config)) = true ->
          SideConfig.height (back (_resolveDependencies config))
          = SideConfig.height (front config))
      /\ front (_resolveDependencies config) = front config
      /\ contentArea (_resolveDependencies config) = contentArea config
      /\ _resolveDependencies (_resolveDependencies config)
         = _resolveDependencies config)
  /\ (forall (rawConfig : jsval) (themeBase : string) (v : jsval),
      well_formed rawConfig themeBase = true ->
      prop (side_of rawConfig "front") "width" = v ->
      nullish v = false ->
      nullish (prop (side_of rawConfig "back") "width") = true ->
      exists config,
        parse rawConfig themeBase = Ok (config, _validate config)
        /\ SideConfig.width (front config) = v
        /\ SideConfig.width (back config) = v)
  /\ (forall (rawConfig : jsval) (themeBase : string) (v : jsval),
      well_formed rawConfig themeBase = true ->
      prop (side_of rawConfig "front") "height" = v ->
      nullish v = false ->
      nullish (prop (side_of rawConfig "back") "height") = true ->
      exists config,
        parse rawConfig themeBase = Ok (config, _validate config)
        /\ SideConfig.height (front config) = v
        /\ SideConfig.height (back config) = v)
  /\ (exists config warnings,
        parse (VObj [("front", VObj [("width", num 800); ("height", num 600)]);
                     ("back", VObj [])]) "/themes/x/"
        = Ok (config, warnings)
        /\ SideConfig.width (back config) = num 800
        /\ SideConfig.height (back config) = num 600).
Proof.
  split; [|split; [|split]].
  - intros [f b areas]. rewrite !resolveDependencies_spec.
    cbn [front back contentArea SideConfig.width SideConfig.height].
    repeat split.
    + now intros ->.
    + now intros ->.
    + destruct b as [i bg w h]. cbn.
      destruct (is_null w) eqn:W, (is_null h) eqn:H; rewrite ?W, ?H;
        try reflexivity;
        destruct (is_null (SideConfig.width f)),
          (is_null (SideConfig.height f)); reflexivity.
  - intros rawConfig themeBase v W Hf Hv Hb.
    destruct (parse_ok _ _ W) as (config & E & P).
    exists config. split; [exact E|].
    destruct P as (Fw & _ & _ & _ & _ & Bw & _).
    rewrite Hb in Bw. rewrite Hf in Fw. rewrite (coalesce_id _ Hv) in Fw.
    split; congruence.
  - intros rawConfig themeBase v W Hf Hv Hb.
    destruct (parse_ok _ _ W) as (config & E & P).
    exists config. split; [exact E|].
    destruct P as (_ & Fh & _ & _ & _ & _ & Bh & _).
    rewrite Hb in Bh. rewrite Hf in Fh. rewrite (coalesce_id _ Hv) in Fh.
    split; congruence.
  - eexists _, _. split; [reflexivity|]. split; reflexivity.
Qed.

Lemma back_inherits_front_size_witness :
  exists config,
    parse (VObj [("front", VObj [("width", num 1036); ("image", VStr "./frame-A.png")]);
                 ("back", VObj [("background", VStr "#f5f5f5")])])
      "./themes/postcard"
    = Ok (config, _validate config)
    /\ SideConfig.width (front config) = num 1036
    /\ SideConfig.width (back config) = num 1036.
Proof.
  apply (proj1 (proj2 back_inherits_front_size)
           (VObj [("front", VObj [("width", num 1036);
                                  ("image", VStr "./frame-A.png")]);
                  ("back", VObj [("background", VStr "#f5f5f5")])])
           "./themes/postcard" (num 1036));
    reflexivity.
Defined.

(** C10.  An explicit [width: 0] (or [height: 0]) of a side survives
    normalization and dimension resolution: the front keeps 0 whatever
    images are loaded (so does the card), the back keeps its own 0 instead
    of the front's value, whereas an explicitly empty [background] is
    replaced by the default colour.  So a resolved face dimension can be
    zero. *)
Theorem explicit_zero_is_kept :
  (forall sideConfig : jsval,
      nullish sideConfig = false ->
      exists c,
        _parseSideConfig sideConfig = Ok c
        /\ (prop sideConfig "width" = num 0 -> SideConfig.width c = num 0)
        /\ (prop sideConfig "height" = num 0 -> SideConfig.height c = num 0)
        /\ (prop sideConfig "background" = VStr EmptyString ->
            SideConfig.background c = VStr DEFAULT_BACKGROUND))
  /\ (forall config : NormalizedConfig,
      (SideConfig.width (back config) = num 0 ->
       SideConfig.width (back (_resolveDependencies config)) = num 0)
      /\ (SideConfig.height (back config) = num 0 ->
          SideConfig.height (back (_resolveDependencies config)) = num 0))
  /\ (forall (rawConfig : jsval) (themeBase : string),
      well_formed rawConfig themeBase = true ->
      exists config,
        parse rawConfig themeBase = Ok (config, _validate config)
        /\ (prop (side_of rawConfig "front") "width" = num 0 ->
            SideConfig.width (front config) = num 0
            /\ forall loadedImages,
                Size.width (dim_front (getDimensions config loadedImages)) = num 0
                /\ Size.width (realpic (getDimensions config loadedImages)) = num 0)
        /\ (prop (side_of rawConfig "front") "height" = num 0 ->
            SideConfig.height (front config) = num 0
            /\ forall loadedImages,
                Size.height (dim_front (getDimensions config loadedImages)) = num 0
                /\ Size.height (realpic (getDimensions config loadedImages)) = num 0)
        /\ (prop (side_of rawConfig "back") "width" = num 0 ->
            SideConfig.width (back config) = num 0
            /\ forall loadedImages,
                Size.width (dim_back (getDimensions config loadedImages)) = num 0)
        /\ (prop (side_of rawConfig "back") "height" = num 0 ->
            SideConfig.height (back config) = num 0
            /\ forall loadedImages,
                Size.height (dim_back (getDimensions config loadedImages)) = num 0)
        /\ (prop (side_of rawConfig "front") "background" = VStr EmptyString ->
            SideConfig.background (front config) = VStr DEFAULT_BACKGROUND)
        /\ (prop (side_of rawConfig "back") "background" = VStr EmptyString ->
            SideConfig.background (back config) = VStr DEFAULT_BACKGROUND))
  /\ (exists config warnings,
        parse (VObj [("front", VObj [("width", num 0); ("height", num 600)])])
          "/themes/x/"
        = Ok (config, warnings)
        /\ Size.width (dim_front (getDimensions config ∅)) = num 0).
Proof.
  split; [|split; [|split]].
  - intros sideConfig N. exists (defaulted_side sideConfig).
    split; [now apply parseSideConfig_ok|].
    unfold defaulted_side. cbn.
    repeat split; intros ->; reflexivity.
  - intros [f b areas]. rewrite resolveDependencies_spec. cbn.
    split; intros ->; reflexivity.
  - intros rawConfig themeBase W.
    destruct (parse_ok _ _ W) as (config & E & P).
    exists config. split; [exact E|].
    destruct P as (Fw & Fh & Fb & _ & _ & Bw & Bh & Bb & _).
    split; [|split; [|split; [|split; [|split]]]]; intros H.
    + rewrite H in Fw. split; [exact Fw|]. intros imgs.
      now apply DimensionFacts.front_width_explicit.
    + rewrite H in Fh. split; [exact Fh|]. intros imgs.
      now apply DimensionFacts.front_height_explicit.
    + rewrite H in Bw. split; [exact Bw|]. intros imgs.
      now apply DimensionFacts.back_width_explicit.
    + rewrite H in Bh. split; [exact Bh|]. intros imgs.
      now apply DimensionFacts.back_height_explicit.
    + rewrite Fb, H. reflexivity.
    + rewrite Bb, H. reflexivity.
  - eexists _, _. split; reflexivity.
Qed.

Lemma explicit_zero_is_kept_witness :
  exists config,
    parse (VObj [("front", VObj [("width", num 0)]);
                 ("back", VObj [("height", num 0);
                                ("background", VStr EmptyString)])])
      "/themes/x/"
    = Ok (config, _validate config)
    /\ SideConfig.width (front config) = num 0
    /\ SideConfig.height (back config) = num 0
    /\ SideConfig.background (back config) = VStr DEFAULT_BACKGROUND.
Proof.
  destruct (proj1 (proj2 (proj2 explicit_zero_is_kept))
              (VObj [("front", VObj [("width", num 0)]);
                     ("back", VObj [("height", num 0);
                                    ("background", VStr EmptyString)])])
              "/themes/x/" eq_refl)
    as (config & E & Fw & _ & _ & Bh & _ & Bb).
  exists config. split; [exact E|].
  split; [exact (proj1 (Fw eq_refl))|].
  split; [exact (proj1 (Bh eq_refl)) | exact (Bb eq_refl)].
Defined.

End Normalization.

(** ** Dimension resolution: main results *)

Module Resolution.

Import ConfigParser Descriptor.

Lemma getDimensions_resolve (config : NormalizedConfig)
  (loadedImages : gmap string Asset.t) :
  normalized config ->
  getDimensions config loadedImages
  = Chain.resolve config (loadedImages !! "frontFrame")
      (loadedImages !! "content_0").
Proof.
  intros (Fw & Fh & _ & _). unfold getDimensions, Chain.resolve.
  generalize (loadedImages !! "frontFrame") as frame.
  generalize (loadedImages !! "content_0") as content.
  intros content frame.
  destruct config as [[fi fb fw fh] b areas]. cbn in Fw, Fh.
  cbn [front back SideConfig.width SideConfig.height].
  unfold fill_from, Chain.axis.
  destruct fw; try discriminate; destruct fh; try discriminate;
    destruct frame, content; reflexivity.
Qed.

Lemma parse_normalized (rawConfig : jsval) (themeBase : string)
  (config : NormalizedConfig) (warnings : list string) :
  parse rawConfig themeBase = Ok (config, warnings) -> normalized config.
Proof.
  intros H. apply ParseFacts.parse_inv in H as (_ & _ & P).
  destruct P as (Fw & Fh & _ & _ & _ & Bw & Bh & _).
  unfold normalized. rewrite Bw, Bh, Fw, Fh.
  repeat split; try apply ParserFacts.coalesce_not_undef.
  - destruct (prop (side_of rawConfig "back") "width") eqn:E; try reflexivity;
      apply ParserFacts.coalesce_not_undef.
  - destruct (prop (side_of rawConfig "back") "height") eqn:E; try reflexivity;
      apply ParserFacts.coalesce_not_undef.
Qed.

(** C3 (as amended).  On a normalized configuration [getDimensions] resolves
    each axis of the front by the chain: the explicit size, else the size of
    the loaded front frame image, else the size of the loaded image at
    content index 0 ([loadedImages.content_0]), else 800 (width) or 600
    (height); the axes are resolved independently; the back takes its own
    explicit value per axis, else the front's resolved one; the card size is
    the front size; and with no explicit size and no loaded image all three
    are 800 by 600.  Every configuration [parse] returns is normalized. *)
Theorem getDimensions_fallback_chain :
  (forall (config : NormalizedConfig) (loadedImages : gmap string Asset.t),
      normalized config ->
      getDimensions config loadedImages
      = Chain.resolve config (loadedImages !! "frontFrame")
          (loadedImages !! "content_0"))
  /\ (forall (config : NormalizedConfig) (loadedImages : gmap string Asset.t),
      realpic (getDimensions config loadedImages)
      = dim_front (getDimensions config loadedImages))
  /\ (forall (config : NormalizedConfig),
      SideConfig.width (front config) = VNull ->
      SideConfig.height (front config) = VNull ->
      SideConfig.width (back config) = VNull ->
      SideConfig.height (back config) = VNull ->
      getDimensions config ∅
      = mkDimensions (Size.mk (num 800) (num 600))
          (Size.mk (num 800) (num 600)) (Size.mk (num 800) (num 600)))
  /\ (forall (rawConfig : jsval) (themeBase : string)
        (config : NormalizedConfig) (warnings : list string),
      parse rawConfig themeBase = Ok (config, warnings) -> normalized config)
  /\ Size.width
       (dim_front
          (getDimensions
             (mkConfig (SideConfig.mk VNull (VStr "#eeeeee") (num 500) VNull)
                (SideConfig.mk VNull (VStr "#eeeeee") (num 500) VNull) [])
             {[ "frontFrame" := Asset.mk 1000 700 "/themes/x/frame.png" ]}))
     = num 500
  /\ Size.height
       (dim_front
          (getDimensions
             (mkConfig (SideConfig.mk VNull (VStr "#eeeeee") (num 500) VNull)
                (SideConfig.mk VNull (VStr "#eeeeee") (num 500) VNull) [])
             {[ "frontFrame" := Asset.mk 1000 700 "/themes/x/frame.png" ]}))
     = num 700.
Proof.
  split; [exact getDimensions_resolve|].
  split; [reflexivity|].
  split.
  - intros config Fw Fh Bw Bh. unfold getDimensions, fill_from.
    rewrite Fw, Fh, Bw, Bh. reflexivity.
  - split; [exact parse_normalized|]. split; reflexivity.
Qed.

Lemma getDimensions_fallback_chain_witness :
  getDimensions Examples.bare_config
    {[ "content_0" := Asset.mk 1200 900 "/images/a.jpg" ]}
  = Chain.resolve Examples.bare_config
      (({[ "content_0" := Asset.mk 1200 900 "/images/a.jpg" ]}
          : gmap string Asset.t) !! "frontFrame")
      (({[ "content_0" := Asset.mk 1200 900 "/images/a.jpg" ]}
          : gmap string Asset.t) !! "content_0")
  /\ getDimensions Examples.bare_config ∅
     = mkDimensions (Size.mk (num 800) (num 600))
         (Size.mk (num 800) (num 600)) (Size.mk (num 800) (num 600)).
Proof.
  destruct getDimensions_fallback_chain as (H1 & _ & H3 & _).
  split.
  - apply (H1 Examples.bare_config
             {[ "content_0" := Asset.mk 1200 900 "/images/a.jpg" ]}).
    repeat split; reflexivity.
  - apply (H3 Examples.bare_config); reflexivity.
Defined.

(** C3 as stated fails: with a text item first and an image second, the
    image is loaded under [content_1]; the first image-type content has
    size 400 by 300, yet the resolved front size is 800 by 600. *)
Lemma first_image_content_not_used :
  let s :=
    fst (RealPic.seq (RealPic._loadImages Examples.decoder)
           RealPic.resolveDimensions Examples.configured) in
  RealPic.loadedImages s !! "content_1"
  = Some (Asset.mk 400 300 "photo.jpg")
  /\ Chain.first_image_index 0 Examples.text_then_image = Some 1%nat
  /\ dim_front
       (Chain.spec_getDimensions Examples.bare_config (RealPic.loadedImages s)
          Examples.text_then_image)
     = Size.mk (num 400) (num 300)
  /\ RealPic.dimensions s
     = Some (getDimensions Examples.bare_config (RealPic.loadedImages s))
  /\ dim_front (getDimensions Examples.bare_config (RealPic.loadedImages s))
     = Size.mk (num 800) (num 600)
  /\ getDimensions Examples.bare_config (RealPic.loadedImages s)
     <> Chain.spec_getDimensions Examples.bare_config (RealPic.loadedImages s)
          Examples.text_then_image.
Proof.
  cbv zeta. repeat split; try reflexivity.
  intros E. apply (f_equal dim_front) in E. vm_compute in E. discriminate.
Qed.

End Resolution.

(** ** Binary64: rounding of products and quotients

    What [PrimFloat.mul] and [PrimFloat.div] return is specified by
    [SFmul] and [SFdiv] on [spec_float]; the lemmas below bound the
    rounding of a positive normal result that stays clear of overflow. *)

Module Digits.

Local Open Scope Z_scope.











End Digits.

Module Rounding.

Import F64 Digits.

Local Open Scope Q_scope.






Lemma pow2_lt (a b : Z) : (a < b)%Z -> 2 ^ a < 2 ^ b.
Proof. intros H. apply Qpower_lt_compat_l; [exact H | reflexivity]. Qed.

Lemma pow2_le_inv (a b : Z) : 2 ^ a <= 2 ^ b -> (a <= b)%Z.
Proof. intros H. apply Qpower_le_compat_l_inv with 2; [exact H | reflexivity]. Qed.

















End Rounding.

Module F64Facts.

Import F64 Digits Rounding.

Local Open Scope Q_scope.

Ltac qcompute := vm_compute; first [discriminate | reflexivity].






End F64Facts.

(** ** Layout: the card scale *)

Module LayoutFacts.

Import RealPic F64 Rounding F64Facts Ideal.

Local Open Scope Q_scope.










End LayoutFacts.

Module Layout.

Import RealPic F64 Rounding F64Facts Ideal LayoutFacts.

Local Open Scope Q_scope.


Lemma sized_1920 : sized 1920 /\ sized 1080 /\ sized 800 /\ sized 600
  /\ sized 1125.
Proof. repeat split; qcompute. Qed.


(** C4, as first stated, fails for the card of 1125 by 600 in a viewport of
    1920 by 1080: the scaled width is 1920.0000000000002, wider than the
    viewport; neither side equals the viewport's; and the sides are not in
    the ratio 1125 : 600. *)
Lemma card_can_exceed_viewport :
  sized 1920 /\ sized 1080 /\ sized 1125 /\ sized 600
  /\ scaledW (_applyLayout 1920 1080 1125 600) = 0x1.e000000000001p+10%float
  /\ value 1920 < value (scaledW (_applyLayout 1920 1080 1125 600))
  /\ ~ value (scaledW (_applyLayout 1920 1080 1125 600)) == value 1920
  /\ ~ value (scaledH (_applyLayout 1920 1080 1125 600)) == value 1080
  /\ ~ value (scaledW (_applyLayout 1920 1080 1125 600)) * value 600
       == value (scaledH (_applyLayout 1920 1080 1125 600)) * value 1125.
Proof.
  repeat split; try qcompute.
Qed.

End Layout.

(** ** The controller: loading *)

Module LoadFacts.

Import RealPic.

Section WithEnvironment.

Variable fetch : string -> FetchOutcome.
Variable loadImage : string -> option (N * N).
Variable paint : Act unit.

Lemma parse_empty_ok (themeBase : string) :
  exists config,
    ConfigParser.parse (VObj []) themeBase
    = Ok (config, ConfigParser._validate config).
Proof.
  destruct (ParseFacts.parse_ok (VObj []) themeBase) as (c & E & _); [|eauto].
  unfold Descriptor.well_formed, Descriptor.image_ok, Descriptor.path_ok.
  cbn. now rewrite !orb_true_r.
Qed.

Lemma loadConfig_ok (s : t) (o : Options) (themeBase : string) :
  options s = Some o -> themePath o = Some themeBase ->
  String.eqb themeBase EmptyString = false ->
  exists s' config,
    _loadConfig fetch s = (s', Ok tt)
    /\ parsedConfig s' = Some config
    /\ keeps s s'.
Proof.
  intros Ho Ht Hb. unfold _loadConfig. rewrite Ho, Ht, Hb.
  destruct (fetchConfig fetch _ themeBase) as [[config warnings]|e].
  - eexists _, config. repeat split.
  - destruct (parse_empty_ok themeBase) as (config & ->).
    eexists _, config. repeat split.
Qed.


Lemma loadSingle_keeps (url key : string) (s : t) :
  keeps s (loadSingle loadImage url key s)
  /\ parsedConfig (loadSingle loadImage url key s) = parsedConfig s.
Proof.
  unfold loadSingle. destruct (loadImage url) as [[w h]|]; repeat split.
Qed.

Lemma loadFrame_keeps (image : jsval) (key : string) (s : t) :
  keeps s (loadFrame loadImage image key s)
  /\ parsedConfig (loadFrame loadImage image key s) = parsedConfig s.
Proof.
  unfold loadFrame. destruct image; try (repeat split; fail).
  destruct (truthy (VStr s0)); [apply loadSingle_keeps | repeat split].
Qed.

Lemma keeps_trans (a b c : t) : keeps a b -> keeps b c -> keeps a c.
Proof. unfold keeps. intuition congruence. Qed.

Lemma loadContents_keeps (contents : list ContentItem) :
  forall (index : nat) (s : t),
    keeps s (loadContents loadImage index contents s)
    /\ parsedConfig (loadContents loadImage index contents s) = parsedConfig s.
Proof.
  induction contents as [|c rest IH]; intros index s; [repeat split|].
  cbn [loadContents].
  match goal with
  | |- context [loadContents loadImage (S index) rest ?x] =>
      destruct (IH (S index) x) as (K & P);
      assert (keeps s x /\ parsedConfig x = parsedConfig s) as (K0 & P0)
  end.
  { destruct (src c) as [url|]; [|repeat split].
    destruct (String.eqb (type c) "image" && negb (String.eqb url EmptyString));
      [apply loadSingle_keeps | repeat split]. }
  split; [eapply keeps_trans; eauto | congruence].
Qed.

Lemma loadImages_ok (s : t) (o : Options) (config : NormalizedConfig) :
  options s = Some o -> parsedConfig s = Some config ->
  exists s',
    _loadImages loadImage s = (s', Ok tt)
    /\ parsedConfig s' = Some config
    /\ keeps s s'.
Proof.
  intros Ho Hc. unfold _loadImages.
  change (parsedConfig (set_images ∅ s)) with (parsedConfig s).
  change (options (set_images ∅ s)) with (options s).
  rewrite Ho, Hc. eexists. split; [reflexivity|].
  match goal with
  | |- context [loadContents loadImage 0 (contents o) ?x] =>
      destruct (loadContents_keeps (contents o) 0 x) as (K & P)
  end.
  match type of K with
  | keeps (loadFrame _ _ _ ?y) _ =>
      destruct (loadFrame_keeps (SideConfig.image (back config)) "backFrame" y)
        as (K1 & P1);
      destruct (loadFrame_keeps (SideConfig.image (front config)) "frontFrame"
                  (set_images ∅ s)) as (K2 & P2)
  end.
  split; [rewrite P, P1, P2; exact Hc|].
  eapply keeps_trans; [|exact K]. eapply keeps_trans; [|exact K1].
  eapply keeps_trans; [|exact K2]. repeat split.
Qed.

Lemma resolveDimensions_ok (s : t) (config : NormalizedConfig) :
  parsedConfig s = Some config ->
  exists s', resolveDimensions s = (s', Ok tt) /\ keeps s s'.
Proof.
  intros Hc. unfold resolveDimensions. rewrite Hc.
  eexists. split; [reflexivity|repeat split].
Qed.

(** With a theme path, [_loadAndRender] gets as far as the DOM work
    whatever the network and the decoder answer, and ends as that ends. *)
Lemma loadAndRender_reaches_paint (s : t) (o : Options) (themeBase : string) :
  options s = Some o -> themePath o = Some themeBase ->
  String.eqb themeBase EmptyString = false ->
  exists s', keeps s s' /\ _loadAndRender fetch loadImage paint s = paint s'.
Proof.
  intros Ho Ht Hb. unfold _loadAndRender, seq.
  destruct (loadConfig_ok s o themeBase Ho Ht Hb) as (s1 & config & -> & C1 & K1).
  assert (options s1 = Some o) as Ho1 by (destruct K1 as (E & _); congruence).
  destruct (loadImages_ok s1 o config Ho1 C1) as (s2 & -> & C2 & K2).
  destruct (resolveDimensions_ok s2 config C2) as (s3 & -> & K3).
  exists s3. split; [|reflexivity].
  eapply keeps_trans; [exact K1|]. eapply keeps_trans; eauto.
Qed.

Lemma updateContent_returns (s : t) : snd (_updateContent fetch loadImage paint s) = Ok tt.
Proof.
  unfold _updateContent.
  destruct (_loadAndRender fetch loadImage paint (reset s)) as [s' [[]|e]];
    reflexivity.
Qed.

End WithEnvironment.

End LoadFacts.

(** ** Normalization never fails on well-formed descriptors *)

Module Robustness.

Import ConfigParser Descriptor ParserFacts AreaFacts ParseFacts.

Lemma parse_returns (rawConfig : jsval) (themeBase : string) :
  returns (parse rawConfig themeBase) = well_formed rawConfig themeBase.
Proof.
  destruct (well_formed rawConfig themeBase) eqn:W.
  - destruct (parse_ok _ _ W) as (c & -> & _). reflexivity.
  - now apply parse_throws.
Qed.

Lemma parsed_sides_defaulted (rawConfig : jsval) (config : NormalizedConfig) :
  parsed_from rawConfig config ->
  side_defaulted (front config) /\ side_defaulted (back config).
Proof.
  intros (Fw & Fh & Fb & Fi & Fn & Bw & Bh & Bb & Bi & Bn & _).
  assert (forall v, is_undefined (coalesce v VNull) = false) as U
      by apply coalesce_not_undef.
  unfold side_defaulted. rewrite Fw, Fh, Fb, Bb, Bw, Bh, Fw, Fh.
  repeat split; try apply U; try (now apply or_else_truthy).
  - destruct (truthy (prop (side_of rawConfig "front") "image")) eqn:T;
      [right; congruence | left; auto].
  - destruct (truthy (prop (side_of rawConfig "back") "image")) eqn:T;
      [right; congruence | left; auto].
  - destruct (prop (side_of rawConfig "back") "width"); try reflexivity; apply U.
  - destruct (prop (side_of rawConfig "back") "height"); try reflexivity; apply U.
Qed.

Lemma parsed_areas_defaulted (rawConfig : jsval) (themeBase : string)
  (config : NormalizedConfig) (a : jsval) (rest : list jsval) :
  well_formed rawConfig themeBase = true ->
  parsed_from rawConfig config ->
  prop rawConfig "contentArea" = VArr (a :: rest) ->
  length (contentArea config) = S (length rest)
  /\ Forall area_defaulted (contentArea config).
Proof.
  intros W P E. unfold well_formed in W. apply andb_prop in W as [_ W].
  unfold areas_ok in W. do 10 (destruct P as [_ P]).
  rewrite E in W, P. cbn in P.
  change ((negb (nullish a) && forallb (fun a => negb (nullish a)) rest))
    with (forallb (fun a => negb (nullish a)) (a :: rest)) in W.
  cbn [or_else truthy] in W.
  destruct (map_areas_ok (a :: rest) 0 W) as (rs & Ers & L & F).
  cbn [map_areas] in Ers. rewrite Ers in P. inversion P. subst. auto.
Qed.

Lemma validate_warnings (config : NormalizedConfig) :
  (length (_validate config) <= 2)%nat
  /\ (_validate config = []
      <-> is_string (side_at config 0) "front" = true
          /\ is_string (side_at config 1) "back" = true).
Proof.
  unfold _validate.
  destruct (is_string (side_at config 0) "front"),
    (is_string (side_at config 1) "back"); cbn; split; try lia;
    split; try tauto; try discriminate; intros [? ?]; discriminate.
Qed.

(** C9 (as amended).  [parse] returns exactly on the well-formed
    descriptors: those that are not [null], whose side images are strings
    when truthy (if a base path is given), and whose non-empty
    [contentArea] array has no [null] entry.  On them the result has a
    default for every side field, and every area made from an entry of a
    non-empty list has every field defined.  [_validate] only yields at most
    two warning lines, none exactly when area 0 is on ["front"] and area 1
    on ["back"].  On every other descriptor [parse] throws; [_loadConfig]
    catches that and installs the normalization of [{}]. *)
Theorem parse_total_on_well_formed :
  (forall (rawConfig : jsval) (themeBase : string),
      returns (parse rawConfig themeBase) = well_formed rawConfig themeBase)
  /\ (forall (rawConfig : jsval) (themeBase : string),
      well_formed rawConfig themeBase = true ->
      exists config,
        parse rawConfig themeBase = Ok (config, _validate config)
        /\ side_defaulted (front config)
        /\ side_defaulted (back config)
        /\ (forall a rest,
              prop rawConfig "contentArea" = VArr (a :: rest) ->
              length (contentArea config) = S (length rest)
              /\ Forall area_defaulted (contentArea config)))
  /\ (forall config : NormalizedConfig,
      (length (_validate config) <= 2)%nat
      /\ (_validate config = []
          <-> is_string (side_at config 0) "front" = true
              /\ is_string (side_at config 1) "back" = true))
  /\ (forall (fetch : string -> RealPic.FetchOutcome) (s : RealPic.t)
        (o : RealPic.Options) (themeBase : string),
      RealPic.options s = Some o ->
      RealPic.themePath o = Some themeBase ->
      String.eqb themeBase EmptyString = false ->
      exists s' config,
        RealPic._loadConfig fetch s = (s', Ok tt)
        /\ RealPic.parsedConfig s' = Some config).
Proof.
  split; [exact parse_returns|]. split; [|split; [exact validate_warnings|]].
  - intros rawConfig themeBase W.
    destruct (parse_ok _ _ W) as (config & E & P).
    exists config. split; [exact E|].
    destruct (parsed_sides_defaulted _ _ P) as (F & B).
    split; [exact F|]. split; [exact B|].
    intros a rest Ea.
    exact (parsed_areas_defaulted rawConfig themeBase config a rest W P Ea).
  - intros fetch s o themeBase Ho Ht Hb.
    destruct (LoadFacts.loadConfig_ok fetch s o themeBase Ho Ht Hb)
      as (s' & config & E & C & _).
    eauto.
Qed.

Lemma parse_total_on_well_formed_witness :
  exists config,
    parse (VObj [("front", VObj [("image", VStr "./frame-A.png")]);
                 ("contentArea",
                  VArr [VObj [("x", num 46); ("side", VStr "front")];
                        VObj [("x", VStr "10%")]])])
      "./themes/postcard/"
    = Ok (config, _validate config)
    /\ side_defaulted (front config)
    /\ side_defaulted (back config)
    /\ length (contentArea config) = 2%nat.
Proof.
  destruct (proj1 (proj2 parse_total_on_well_formed)
              (VObj [("front", VObj [("image", VStr "./frame-A.png")]);
                     ("contentArea",
                      VArr [VObj [("x", num 46); ("side", VStr "front")];
                            VObj [("x", VStr "10%")]])])
              "./themes/postcard/" eq_refl)
    as (config & E & F & B & A).
  exists config. split; [exact E|]. split; [exact F|]. split; [exact B|].
  exact (proj1 (A _ _ eq_refl)).
Defined.

(** C9 as stated fails: a descriptor whose frame image is a number, one
    whose area list holds [null], and the descriptor [null] itself make
    [parse] throw. *)
Lemma parse_throws_on_malformed :
  parse (VObj [("front", VObj [("image", num 123)])]) "/themes/x/"
  = Throw (TypeError "path.startsWith is not a function")
  /\ returns (parse (VObj [("contentArea", VArr [VNull])]) "/themes/x/") = false
  /\ returns (parse VNull "/themes/x/") = false.
Proof. repeat split. Qed.

End Robustness.

(** ** The controller: flip, reset, show, hide, setOptions *)

Module Controller.

Import RealPic.

(** On every state a controller goes through, the flipped class mirrors
    [isFlipped], and a timer callback is pending exactly while
    [isAnimating] holds: at most one at a time. *)
Lemma reachable_invariant (s : t) :
  reachable s ->
  flipped s = isFlipped s
  /\ timers s = (if isAnimating s then 1 else 0)%nat.
Proof.
  induction 1 as [c s E|s e R (IHf & IHt)].
  - destruct c; [|discriminate]. cbn in E. inversion E. subst. split; reflexivity.
  - destruct e; cbn [step].
    + unfold flip. destruct (isAnimating s) eqn:A.
      * now rewrite A.
      * cbn. rewrite IHt. split; reflexivity.
    + unfold timeout. rewrite IHt.
      destruct (isAnimating s) eqn:A; cbn; rewrite ?A; auto.
    + cbn. auto.
    + cbn. auto.
    + cbn. auto.
Qed.

(** While an animation is in progress any number of further [flip()]
    calls changes nothing. *)
Lemma flips_dropped (n : nat) (s : t) :
  isAnimating s = true -> run s (repeat Flip n) = s.
Proof.
  intros A. induction n as [|n IH]; [reflexivity|].
  cbn [repeat run fold_left step]. unfold flip. rewrite A. exact IH.
Qed.

(** C6.  While [isAnimating] is true [flip()] leaves the whole state
    unchanged.  Starting from a state that is not animating, a second
    [flip()] before the timer callback is therefore dropped: two calls
    toggle [isFlipped] once, and after the callback has run [isFlipped] is
    the negation of its value before the calls and [isAnimating] is
    false again. *)
Theorem flip_dropped_while_animating :
  (forall s : t, isAnimating s = true -> flip s = s)
  /\ (forall s : t,
      isAnimating s = false ->
      isAnimating (flip s) = true
      /\ isFlipped (flip s) = negb (isFlipped s)
      /\ flip (flip s) = flip s
      /\ isFlipped (run s [Flip; Flip; Timeout]) = negb (isFlipped s)
      /\ flipped (run s [Flip; Flip; Timeout]) = negb (isFlipped s)
      /\ isAnimating (run s [Flip; Flip; Timeout]) = false
      /\ timers (run s [Flip; Flip; Timeout]) = timers s).
Proof.
  split.
  - intros s A. unfold flip. now rewrite A.
  - intros s A.
    assert (isAnimating (flip s) = true) as A1 by (unfold flip; now rewrite A).
    assert (flip (flip s) = flip s) as F2 by (unfold flip at 1; now rewrite A1).
    unfold run. cbn [fold_left step]. rewrite F2.
    unfold flip. rewrite A. cbn. repeat split.
Qed.

Lemma flip_dropped_while_animating_witness :
  isAnimating (flip Examples.fresh) = true
  /\ isFlipped (flip Examples.fresh) = negb (isFlipped Examples.fresh)
  /\ flip (flip Examples.fresh) = flip Examples.fresh
  /\ isFlipped (run Examples.fresh [Flip; Flip; Timeout])
     = negb (isFlipped Examples.fresh)
  /\ flipped (run Examples.fresh [Flip; Flip; Timeout])
     = negb (isFlipped Examples.fresh)
  /\ isAnimating (run Examples.fresh [Flip; Flip; Timeout]) = false
  /\ timers (run Examples.fresh [Flip; Flip; Timeout]) = timers Examples.fresh.
Proof.
  apply (proj2 flip_dropped_while_animating Examples.fresh). reflexivity.
Defined.

(** C7.  Whatever the state, [hide()] followed by [show()] leaves the
    controller visible and front-facing: [isFlipped] is false and the
    flipped class is absent.  [hide()] adds the hidden class and then
    performs [reset()], and [reset()] sets [isFlipped] to false and removes
    the flipped class without starting an animation. *)
Theorem hide_then_show_is_front (s : t) :
  isFlipped (show (hide s)) = false
  /\ flipped (show (hide s)) = false
  /\ hidden (show (hide s)) = false
  /\ isVisible (show (hide s)) = true
  /\ hidden (hide s) = true
  /\ isFlipped (hide s) = false
  /\ flipped (hide s) = false
  /\ isFlipped (reset s) = false
  /\ flipped (reset s) = false
  /\ isAnimating (reset s) = isAnimating s
  /\ timers (reset s) = timers s
  /\ transform (reset s) = transform s.
Proof. repeat split. Qed.

Section WithEnvironment.

Variable fetch : string -> FetchOutcome.
Variable loadImage : string -> option (N * N).
Variable paint : Act unit.

Lemma setOptions_initialized (o : Options) (s : t) :
  isInitialized s = true ->
  snd (setOptions fetch loadImage paint o s) = Ok tt.
Proof.
  intros I. unfold setOptions.
  change (isInitialized (set_options o s)) with (isInitialized s).
  rewrite I. apply LoadFacts.updateContent_returns.
Qed.


Lemma setOptions_first_time (o : Options) (s : t) (themeBase : string) :
  isInitialized s = false ->
  themePath o = Some themeBase ->
  String.eqb themeBase EmptyString = false ->
  (forall s', returns (snd (paint s')) = true) ->
  snd (setOptions fetch loadImage paint o s) = Ok tt
  /\ isInitialized (fst (setOptions fetch loadImage paint o s)) = true
  /\ hidden (fst (setOptions fetch loadImage paint o s)) = false.
Proof.
  intros I T B P. unfold setOptions.
  change (isInitialized (set_options o s)) with (isInitialized s).
  rewrite I. unfold _init, seq.
  destruct (LoadFacts.loadAndRender_reaches_paint fetch loadImage paint
              (set_options o s) o themeBase eq_refl T B) as (s' & _ & ->).
  specialize (P s'). destruct (paint s') as [s'' [[]|e]]; [|discriminate].
  repeat split.
Qed.

End WithEnvironment.




End Controller.

Module PathResults.

Import ConfigParser Descriptor ParserFacts AreaFacts PathFacts ImagePathFacts ParseFacts Notions.

Lemma prefix_app (a b : string) : String.prefix a (a +:+ b) = true.
Proof.
  induction a as [|c a IH]; [now destruct b|].
  change (String c a +:+ b) with (String c (a +:+ b)).
  cbn [String.prefix]. destruct (ascii_dec c c) as [_|N]; [exact IH | now elim N].
Qed.

Lemma resolvePath_shape (p base : string) (r : jsval) :
  _resolvePath (VStr p) base = Ok r ->
  exists q,
    r = VStr q
    /\ Str.startsWith q "http" || Str.startsWith q "/" || Str.startsWith q base
       = true.
Proof.
  unfold _resolvePath.
  destruct (Str.startsWith p "http" || Str.startsWith p "/") eqn:A.
  - intros H. inversion H. exists p. now rewrite A.
  - destruct (Str.startsWith p "./"); intros H; inversion H;
      eexists; (split; [reflexivity|]);
      unfold Str.startsWith; now rewrite prefix_app, !orb_true_r.
Qed.

(** What path resolution does to one side. *)
Lemma resolve_side_image (themeBase : string) (image : jsval) (r : jsval) :
  String.eqb themeBase EmptyString = false ->
  truthy image = true ->
  _resolvePath image (theme_base themeBase) = Ok r ->
  resolved_image (theme_base themeBase) r.
Proof.
  intros B T H. destruct image; try discriminate.
  pose proof (resolvePath_truthy s themeBase r B T H) as Tr.
  destruct (resolvePath_shape _ _ _ H) as (q & -> & S).
  right. exists q. split; [reflexivity|]. split; [|exact S].
  cbn in Tr. now apply negb_true_iff in Tr.
Qed.

Lemma resolveImagePaths_resolved (config config' : NormalizedConfig)
  (themeBase : string) :
  String.eqb themeBase EmptyString = false ->
  (truthy (SideConfig.image (front config)) = false ->
   SideConfig.image (front config) = VNull) ->
  (truthy (SideConfig.image (back config)) = false ->
   SideConfig.image (back config) = VNull) ->
  _resolveImagePaths config themeBase = Ok config' ->
  resolved_image (theme_base themeBase) (SideConfig.image (front config'))
  /\ resolved_image (theme_base themeBase) (SideConfig.image (back config')).
Proof.
  intros B Nf Nb. unfold _resolveImagePaths. rewrite B.
  fold (theme_base themeBase).
  destruct (truthy (SideConfig.image (front config))) eqn:Tf.
  - destruct (_resolvePath (SideConfig.image (front config)) _) as [p|] eqn:Ef;
      [|discriminate].
    cbn [bind back front contentArea].
    pose proof (resolve_side_image _ _ _ B Tf Ef) as Rf.
    destruct (truthy (SideConfig.image (back config))) eqn:Tb.
    + destruct (_resolvePath (SideConfig.image (back config)) _) as [q|] eqn:Eb;
        [|discriminate].
      pose proof (resolve_side_image _ _ _ B Tb Eb) as Rb.
      cbn. intros H. inversion H. subst. cbn. auto.
    + intros H. inversion H. subst. cbn. split; [exact Rf|]. left. auto.
  - cbn [bind].
    destruct (truthy (SideConfig.image (back config))) eqn:Tb.
    + destruct (_resolvePath (SideConfig.image (back config)) _) as [q|] eqn:Eb;
        [|discriminate].
      pose proof (resolve_side_image _ _ _ B Tb Eb) as Rb.
      cbn. intros H. inversion H. subst. cbn. split; [left; auto | exact Rb].
    + intros H. inversion H. subst. split; left; auto.
Qed.

Lemma parse_resolves_images (rawConfig : jsval) (themeBase : string)
  (config : NormalizedConfig) (warnings : list string) :
  String.eqb themeBase EmptyString = false ->
  parse rawConfig themeBase = Ok (config, warnings) ->
  resolved_image (theme_base themeBase) (SideConfig.image (front config))
  /\ resolved_image (theme_base themeBase) (SideConfig.image (back config))
  /\ Str.endsWith (theme_base themeBase) "/" = true.
Proof.
  intros B H.
  assert (Str.endsWith (theme_base themeBase) "/" = true) as E.
  { unfold theme_base. destruct (Str.endsWith themeBase "/") eqn:S; [exact S|].
    clear. induction themeBase as [|c r IH]; [reflexivity|].
    change (String c r +:+ "/") with (String c (r +:+ "/")).
    cbn [Str.endsWith]. rewrite IH. now destruct (String.eqb _ _). }
  destruct (parse_inv _ _ _ _ H) as (W & _ & _).
  unfold well_formed in W. apply andb_prop in W as [W _].
  apply andb_prop in W as [W _]. apply andb_prop in W as [Hn _].
  apply negb_true_iff in Hn.
  unfold parse in H. rewrite !(get_prop _ _ Hn) in H. cbn [bind] in H.
  fold (side_of rawConfig "front") in H. fold (side_of rawConfig "back") in H.
  rewrite !(parseSideConfig_ok _ (side_of_not_nullish _ _)) in H.
  cbn [bind] in H.
  destruct (_parseContentAreas _) as [areas|]; [|discriminate].
  cbn [bind] in H. rewrite resolveDependencies_spec in H.
  destruct (_resolveImagePaths _ themeBase) as [config'|] eqn:R; [|discriminate].
  cbn [bind] in H. inversion H. subst config'.
  apply resolveImagePaths_resolved in R; [|exact B| |].
  - destruct R as [Rf Rb]. auto.
  - cbn. intros T.
    now apply (proj1 (proj2 (or_else_null _))), (eq_trans (eq_sym (proj1 (or_else_null _)))).
  - cbn. intros T.
    now apply (proj1 (proj2 (or_else_null _))), (eq_trans (eq_sym (proj1 (or_else_null _)))).
Qed.



End PathResults.

Module AreaResults.

Import ConfigParser Descriptor ParserFacts AreaFacts ParseFacts Notions.

Lemma map_areas_nth (areas : list jsval) :
  forall (index : nat) (rs : list ContentArea.t),
    map_areas index areas = Ok rs ->
    length rs = length areas
    /\ forall (i : nat) (a : jsval),
        nth_error areas i = Some a ->
        exists r,
          parse_area (index + i) a = Ok r /\ nth_error rs i = Some r.
Proof.
  induction areas as [|a0 rest IH]; intros index rs H.
  - cbn in H. inversion H. split; [reflexivity|]. intros [|i] a E; discriminate.
  - cbn [map_areas] in H.
    destruct (parse_area index a0) as [r0|] eqn:E0; [|discriminate].
    cbn [bind] in H.
    destruct (map_areas (S index) rest) as [rs'|] eqn:Er; [|discriminate].
    cbn [bind] in H. inversion H. subst rs. clear H.
    destruct (IH _ _ Er) as (L & N).
    split; [cbn; congruence|].
    intros [|i] a E.
    + cbn in E. inversion E. subst a. exists r0.
      rewrite Nat.add_0_r. auto.
    + cbn in E. destruct (N i a E) as (r & Pr & Nr).
      exists r. rewrite Nat.add_succ_r. auto.
Qed.

(** X2.  A non-empty [contentArea] array is normalized entry by entry, in
    order: the result has the length of the array, and entry [i] keeps
    every field the author gave and defaults the others by position: the
    id to [i], the side to ["front"] for [i = 0] and to ["back"] for every
    later entry, [x]/[y] to 0 (first) or 0.1 (later), [width]/[height] to 1
    (first) or 0.8 (later), position to ["center"], fit to ["contain"]. *)
Theorem areas_defaulted_by_position (a0 : jsval) (rest : list jsval)
  (rs : list ContentArea.t) :
  _parseContentAreas (VArr (a0 :: rest)) = Ok rs ->
  length rs = S (length rest)
  /\ forall (i : nat) (a : jsval),
      nth_error (a0 :: rest) i = Some a ->
      exists r,
        nth_error rs i = Some r
        /\ ContentArea.area r = coalesce (prop a "area") (num (Z.of_nat i))
        /\ ContentArea.side r
           = or_else (prop a "side")
               (VStr (if Nat.eqb i 0 then "front" else "back"))
        /\ ContentArea.x r
           = coalesce (prop a "x") (if Nat.eqb i 0 then num 0 else frac 1 10)
        /\ ContentArea.y r
           = coalesce (prop a "y") (if Nat.eqb i 0 then num 0 else frac 1 10)
        /\ ContentArea.width r
           = coalesce (prop a "width") (if Nat.eqb i 0 then num 1 else frac 8 10)
        /\ ContentArea.height r
           = coalesce (prop a "height") (if Nat.eqb i 0 then num 1 else frac 8 10)
        /\ ContentArea.position r = or_else (prop a "position") (VStr "center")
        /\ ContentArea.fit r = or_else (prop a "fit") (VStr "contain").
Proof.
  cbn [_parseContentAreas]. intros H.
  destruct (map_areas_nth _ _ _ H) as (L & N).
  split; [exact L|].
  intros i a E. destruct (N i a E) as (r & P & Nr).
  exists r. split; [exact Nr|]. cbn [Nat.add] in P.
  destruct (nullish a) eqn:Na.
  { pose proof (parse_area_throws i a Na) as T. rewrite P in T. discriminate. }
  unfold parse_area in P. rewrite !(get_prop _ _ Na) in P. cbn [bind] in P.
  inversion P. cbn. repeat split.
Qed.

Lemma areas_defaulted_by_position_witness :
  exists rs r,
    _parseContentAreas (VArr [VObj [("x", num 46)]; VObj []; VObj [("side", VStr "front")]])
    = Ok rs
    /\ length rs = 3%nat
    /\ nth_error rs 2 = Some r
    /\ ContentArea.area r = num 2
    /\ ContentArea.side r = VStr "front"
    /\ ContentArea.x r = frac 1 10.
Proof.
  eexists _, _. split; [reflexivity|].
  destruct (areas_defaulted_by_position
              (VObj [("x", num 46)]) [VObj []; VObj [("side", VStr "front")]]
              _ eq_refl) as (L & N).
  split; [exact L|].
  destruct (N 2%nat (VObj [("side", VStr "front")]) eq_refl)
    as (r & Nr & A & S & X & _).
  cbn in Nr. inversion Nr. subst r.
  split; [reflexivity|]. split; [exact A|]. split; [exact S | exact X].
Defined.

(** X3.  What [_validate] reports for a configuration [parse] returns: a
    missing or empty [contentArea] list never warns; a list of exactly one
    entry always warns that [contentArea[1]] should be on the back, whatever
    the entry says. *)
Theorem validate_by_list_shape (rawConfig : jsval) (themeBase : string)
  (config : NormalizedConfig) (warnings : list string) :
  parse rawConfig themeBase = Ok (config, warnings) ->
  (match prop rawConfig "contentArea" with
   | VArr (_ :: _) => False
   | _ => True
   end -> warnings = [])
  /\ (forall a, prop rawConfig "contentArea" = VArr [a] ->
      In ("Config warning: contentArea[1] should have side=" +:+ quoted "back")
         warnings).
Proof.
  intros H. destruct (parse_inv _ _ _ _ H) as (W & -> & P).
  split.
  - intros S.
    destruct (Normalization.default_areas_without_geometry _ _ _ _ S H) as (E & _).
    unfold _validate, side_at. rewrite E. reflexivity.
  - intros a E.
    destruct (Robustness.parsed_areas_defaulted _ _ _ _ _ W P E) as (L & _).
    unfold _validate, side_at.
    destruct (contentArea config) as [|r0 [|r1 rs]]; try discriminate.
    cbn [nth_error is_string]. apply in_or_app. right. now left.
Qed.

Lemma validate_by_list_shape_witness :
  exists config warnings,
    parse (VObj [("contentArea", VArr [VObj [("side", VStr "back")]])]) "/themes/x/"
    = Ok (config, warnings)
    /\ In ("Config warning: contentArea[1] should have side=" +:+ quoted "back")
         warnings.
Proof.
  eexists _, _. split; [reflexivity|].
  exact (proj2 (validate_by_list_shape
                  (VObj [("contentArea", VArr [VObj [("side", VStr "back")]])])
                  "/themes/x/" _ _ eq_refl)
           (VObj [("side", VStr "back")]) eq_refl).
Defined.

(** X4.  On each axis where the back descriptor gives no size, the resolved
    back size equals the resolved front size, whatever images are loaded
    (also when the front size itself comes from an image or from the
    800 by 600 default). *)
Theorem back_size_follows_front (rawConfig : jsval) (themeBase : string)
  (config : NormalizedConfig) (warnings : list string)
  (loadedImages : gmap string Asset.t) :
  parse rawConfig themeBase = Ok (config, warnings) ->
  (nullish (prop (side_of rawConfig "back") "width") = true ->
   Size.width (dim_back (getDimensions config loadedImages))
   = Size.width (dim_front (getDimensions config loadedImages)))
  /\ (nullish (prop (side_of rawConfig "back") "height") = true ->
      Size.height (dim_back (getDimensions config loadedImages))
      = Size.height (dim_front (getDimensions config loadedImages))).
Proof.
  intros H. destruct (parse_inv _ _ _ _ H) as (_ & _ & P).
  destruct P as (_ & _ & _ & _ & _ & Bw & Bh & _).
  split; intros N.
  - rewrite N in Bw.
    destruct (nullish (SideConfig.width (front config))) eqn:F.
    + unfold getDimensions. cbn [dim_back dim_front Size.width].
      rewrite Bw. unfold coalesce at 1. now rewrite F.
    + destruct (DimensionFacts.front_width_explicit config loadedImages _ eq_refl F)
        as (-> & _).
      now apply DimensionFacts.back_width_explicit.
  - rewrite N in Bh.
    destruct (nullish (SideConfig.height (front config))) eqn:F.
    + unfold getDimensions. cbn [dim_back dim_front Size.height].
      rewrite Bh. unfold coalesce at 1. now rewrite F.
    + destruct (DimensionFacts.front_height_explicit config loadedImages _ eq_refl F)
        as (-> & _).
      now apply DimensionFacts.back_height_explicit.
Qed.

Lemma back_size_follows_front_witness :
  exists config warnings,
    parse (VObj [("back", VObj [("height", num 500)])]) "/themes/x/"
    = Ok (config, warnings)
    /\ Size.width
         (dim_back (getDimensions config
                      {[ "frontFrame" := Asset.mk 1036 730 "/themes/x/a.png" ]}))
       = Size.width
           (dim_front (getDimensions config
                         {[ "frontFrame" := Asset.mk 1036 730 "/themes/x/a.png" ]})).
Proof.
  eexists _, _. split; [reflexivity|].
  exact (proj1 (back_size_follows_front
                  (VObj [("back", VObj [("height", num 500)])]) "/themes/x/"
                  _ _ {[ "frontFrame" := Asset.mk 1036 730 "/themes/x/a.png" ]}
                  eq_refl) eq_refl).
Defined.

End AreaResults.

Module FaceLayout.

Import RealPic F64 Rounding F64Facts Ideal LayoutFacts.

Local Open Scope Q_scope.





End FaceLayout.

Module AreaResultsLayout.

Import RealPic AreaLayout Notions.

Lemma lower_not_upper (c : ascii) : is_upper (lower c) = false.
Proof. destruct c as [[] [] [] [] [] [] [] []]; reflexivity. Qed.

Lemma lower_lower (c : ascii) : lower (lower c) = lower c.
Proof. destruct c as [[] [] [] [] [] [] [] []]; reflexivity. Qed.

Lemma toLowerCase_no_upper (s : string) : no_upper (toLowerCase s) = true.
Proof.
  induction s as [|c r IH]; [reflexivity|].
  cbn. now rewrite lower_not_upper, IH.
Qed.

Lemma toLowerCase_twice (s : string) :
  toLowerCase (toLowerCase s) = toLowerCase s.
Proof.
  induction s as [|c r IH]; [reflexivity|].
  cbn. now rewrite lower_lower, IH.
Qed.

Lemma hyphenate_fixed (s : string) : no_upper s = true -> hyphenate s = s.
Proof.
  induction s as [|c r IH]; [reflexivity|].
  cbn. intros H. apply andb_prop in H as [U R].
  apply negb_true_iff in U. now rewrite U, IH.
Qed.

(** X8.  The style property name made from a key of [config.style] never
    contains an upper-case letter A-Z, and converting it again changes
    nothing.  Each capital becomes a hyphen and its lower-case letter:
    [fontSize] gives [font-size] and [WebkitTransform] gives
    [-webkit-transform]. *)
Theorem cssKey_is_kebab_case :
  (forall key : string, no_upper (cssKey key) = true)
  /\ (forall key : string, cssKey (cssKey key) = cssKey key)
  /\ cssKey "fontSize" = "font-size"
  /\ cssKey "WebkitTransform" = "-webkit-transform"
  /\ cssKey "color" = "color".
Proof.
  split; [intros key; apply toLowerCase_no_upper|].
  split; [|repeat split].
  intros key. unfold cssKey.
  rewrite (hyphenate_fixed _ (toLowerCase_no_upper _)).
  apply toLowerCase_twice.
Qed.

End AreaResultsLayout.

Module MountResults.

Import RealPic Mount Notions.

(** X9.  The alignment of a text area: a missing or otherwise falsy
    [position] is centred; a string position is accepted exactly when it is
    empty or one of [top], [bottom], [left], [right], [center]; any other
    string, every number other than 0 and [true] make the destructuring of
    the lookup throw a [TypeError]. *)
Theorem textAlignment_accepts_five_names :
  (forall position : jsval,
      truthy position = false ->
      textAlignment position = Ok ("center", "center", "center"))
  /\ (forall p : string,
      returns (textAlignment (VStr p)) = true
      <-> In p [EmptyString; "top"; "bottom"; "left"; "right"; "center"])
  /\ (forall n : jsnum,
      truthy (VNum n) = true -> returns (textAlignment (VNum n)) = false)
  /\ returns (textAlignment (VBool true)) = false
  /\ (forall fs, returns (textAlignment (VObj fs)) = false).
Proof.
  split; [|split; [|split; [|split]]].
  - intros position T. unfold textAlignment, or_else. now rewrite T.
  - intros p. unfold textAlignment, or_else. cbn [truthy].
    destruct (String.eqb p EmptyString) eqn:E0.
    { apply String.eqb_eq in E0. subst p. cbn. intuition. }
    cbn [negb key_name]. unfold alignMap.
    destruct (String.eqb p "top") eqn:E1;
      [apply String.eqb_eq in E1; subst p; cbn; intuition|].
    destruct (String.eqb p "bottom") eqn:E2;
      [apply String.eqb_eq in E2; subst p; cbn; intuition|].
    destruct (String.eqb p "left") eqn:E3;
      [apply String.eqb_eq in E3; subst p; cbn; intuition|].
    destruct (String.eqb p "right") eqn:E4;
      [apply String.eqb_eq in E4; subst p; cbn; intuition|].
    destruct (String.eqb p "center") eqn:E5;
      [apply String.eqb_eq in E5; subst p; cbn; intuition|].
    cbn. split; [discriminate|].
    intros [<-|[<-|[<-|[<-|[<-|[<-|[]]]]]]]; discriminate.
  - intros n T. unfold textAlignment, or_else. now rewrite T.
  - reflexivity.
  - reflexivity.
Qed.

Lemma textAlignment_accepts_five_names_witness :
  textAlignment VUndef = Ok ("center", "center", "center")
  /\ returns (textAlignment (VStr "left")) = true
  /\ returns (textAlignment (VNum (Fin 2))) = false.
Proof.
  destruct textAlignment_accepts_five_names as (H1 & H2 & H3 & _).
  split; [apply H1; reflexivity|].
  split; [apply H2; cbn; tauto | apply H3; reflexivity].
Defined.

End MountResults.

Module AreaMapResults.

Import RealPic Mount Notions.

Lemma svz_sym (a b : jsval) : same_value_zero a b = same_value_zero b a.
Proof.
  destruct a as [| |x|[|s|x]|x|l|fs], b as [| |y|[|t|y]|y|l'|fs']; cbn;
    try reflexivity.
  - now destruct x, y.
  - now destruct s, t.
  - destruct (Qeq_bool x y) eqn:E, (Qeq_bool y x) eqn:E'; try reflexivity.
    + apply Qeq_bool_iff in E. symmetry in E. apply Qeq_bool_iff in E. congruence.
    + apply Qeq_bool_iff in E'. symmetry in E'. apply Qeq_bool_iff in E'. congruence.
  - apply String.eqb_sym.
Qed.

Lemma svz_trans (a b c : jsval) :
  same_value_zero a b = true -> same_value_zero b c = true ->
  same_value_zero a c = true.
Proof.
  destruct a as [| |x|[|s|x]|x|l|fs], b as [| |y|[|t|y]|y|l'|fs'];
    cbn; try discriminate;
    destruct c as [| |z|[|u|z]|z|l''|fs'']; cbn; try discriminate; try tauto.
  - destruct x, y, z; cbn; congruence.
  - destruct s, t, u; cbn; congruence.
  - intros H1 H2. apply Qeq_bool_iff in H1, H2. apply Qeq_bool_iff.
    now rewrite H1.
  - intros H1 H2. apply String.eqb_eq in H1, H2. apply String.eqb_eq. congruence.
Qed.

Lemma svz_congr (e k' k : jsval) :
  same_value_zero e k' = true -> same_value_zero e k = same_value_zero k' k.
Proof.
  intros H. destruct (same_value_zero e k) eqn:A, (same_value_zero k' k) eqn:B;
    try reflexivity.
  - rewrite svz_sym in H. pose proof (svz_trans _ _ _ H A). congruence.
  - pose proof (svz_trans _ _ _ H B). congruence.
Qed.

(** Reading a key after one [set]. *)
Lemma map_get_set (k' : jsval) (v : ContentArea.t) (m : AreaMap) (k : jsval) :
  map_get k (map_set k' v m)
  = if same_value_zero k' k then Some v else map_get k m.
Proof.
  induction m as [|[e v0] rest IH]; [reflexivity|].
  cbn [map_set]. destruct (same_value_zero e k') eqn:E.
  - cbn [map_get]. rewrite (svz_congr e k' k E).
    now destruct (same_value_zero k' k).
  - cbn [map_get]. rewrite IH.
    destruct (same_value_zero e k) eqn:A; [|reflexivity].
    destruct (same_value_zero k' k) eqn:B; [|reflexivity].
    rewrite svz_sym in B. pose proof (svz_trans _ _ _ A B). congruence.
Qed.

Lemma find_snoc {A} (f : A -> bool) (l : list A) (x : A) :
  find f (l ++ [x])
  = match find f l with
    | Some y => Some y
    | None => if f x then Some x else None
    end.
Proof.
  induction l as [|y l IH]; [reflexivity|].
  cbn. now destruct (f y).
Qed.

Lemma add_areas_get (contentArea : list ContentArea.t) :
  forall (m0 m : AreaMap) (k : jsval),
    add_areas m0 contentArea = Ok m ->
    map_get k m
    = match last_with_id k contentArea with
      | Some a => Some a
      | None => map_get k m0
      end.
Proof.
  induction contentArea as [|a rest IH]; intros m0 m k H.
  - cbn in H. inversion H. reflexivity.
  - cbn [add_areas] in H. unfold add_area in H.
    destruct (stringifies _ && stringifies _ && stringifies _ && stringifies _);
      [|discriminate].
    cbn [bind] in H. rewrite (IH _ _ k H).
    unfold last_with_id. cbn [rev]. rewrite find_snoc.
    destruct (find _ (rev rest)); [reflexivity|].
    rewrite map_get_set.
    now destruct (same_value_zero (ContentArea.area a) k).
Qed.

Lemma add_areas_returns (contentArea : list ContentArea.t) :
  forall m0 : AreaMap,
    returns (add_areas m0 contentArea)
    = forallb (fun a => stringifies (ContentArea.area a)
                        && stringifies (ContentArea.side a)
                        && stringifies (ContentArea.position a)
                        && stringifies (ContentArea.fit a)) contentArea.
Proof.
  induction contentArea as [|a rest IH]; intros m0; [reflexivity|].
  cbn [add_areas forallb]. unfold add_area.
  destruct (stringifies _ && stringifies _ && stringifies _ && stringifies _);
    [cbn [bind]; apply IH | reflexivity].
Qed.

(** X11.  [_createContentAreas] succeeds exactly when the id, side,
    position and fit of every area can be converted to a string.  The map
    it builds sends a key to the last area of the list that carries this
    id, so when two areas share an id the content item for that id is
    mounted into the later one, and an item whose id no area carries finds
    nothing (it is skipped with a warning). *)
Theorem content_goes_to_last_area_with_id (contentArea : list ContentArea.t) :
  returns (_createContentAreas contentArea)
  = forallb (fun a => stringifies (ContentArea.area a)
                      && stringifies (ContentArea.side a)
                      && stringifies (ContentArea.position a)
                      && stringifies (ContentArea.fit a)) contentArea
  /\ forall (contentAreas : AreaMap),
      _createContentAreas contentArea = Ok contentAreas ->
      forall (contentData : ContentItem) (index : nat),
        area_for contentAreas contentData index
        = last_with_id (areaId contentData index) contentArea
        /\ (area_for contentAreas contentData index = None
            <-> Forall (fun a => same_value_zero (ContentArea.area a)
                                   (areaId contentData index) = false)
                  contentArea).
Proof.
  split; [apply add_areas_returns|].
  intros contentAreas H contentData index.
  unfold area_for. rewrite (add_areas_get _ _ _ (areaId contentData index) H).
  cbn [map_get].
  assert (forall o : option ContentArea.t,
             match o with Some a => Some a | None => None end = o) as Id
      by (now intros []).
  rewrite Id. split; [reflexivity|].
  unfold last_with_id. split.
  - intros N. apply List.Forall_forall. intros a Ha.
    apply (find_none _ _ N). rewrite <- in_rev. exact Ha.
  - intros F. rewrite List.Forall_forall in F.
    destruct (find _ (rev contentArea)) as [a|] eqn:E; [|reflexivity].
    apply find_some in E as [Ha Ea].
    apply in_rev in Ha. rewrite (F a Ha) in Ea. discriminate.
Qed.

Lemma content_goes_to_last_area_with_id_witness :
  exists contentAreas,
    _createContentAreas
      [ ContentArea.mk (num 0) (VStr "front") (num 0) (num 0) (num 1) (num 1)
          (VStr "center") (VStr "contain") (VObj []);
        ContentArea.mk (num 0) (VStr "back") (num 0) (num 0) (num 1) (num 1)
          (VStr "top") (VStr "contain") (VObj []) ]
    = Ok contentAreas
    /\ area_for contentAreas (mkItem (Some 0%Z) "image" (Some "a.jpg") None None) 0
       = Some (ContentArea.mk (num 0) (VStr "back") (num 0) (num 0) (num 1) (num 1)
                 (VStr "top") (VStr "contain") (VObj []))
    /\ area_for contentAreas (mkItem None "text" None (Some "hi") None) 1 = None.
Proof.
  eexists. split; [reflexivity|].
  pose proof (proj2 (content_goes_to_last_area_with_id
                [ ContentArea.mk (num 0) (VStr "front") (num 0) (num 0) (num 1) (num 1)
                    (VStr "center") (VStr "contain") (VObj []);
                  ContentArea.mk (num 0) (VStr "back") (num 0) (num 0) (num 1) (num 1)
                    (VStr "top") (VStr "contain") (VObj []) ]) _ eq_refl) as H.
  split.
  - exact (proj1 (H (mkItem (Some 0%Z) "image" (Some "a.jpg") None None) 0%nat)).
  - exact (proj1 (H (mkItem None "text" None (Some "hi") None) 1%nat)).
Defined.

Lemma find_middle {A} (f : A -> bool) (l l' : list A) (x : A) :
  Forall (fun y => f y = false) l -> f x = true ->
  find f (l ++ x :: l') = Some x.
Proof.
  induction 1 as [|y l Hy _ IH]; intros Hx; cbn.
  - now rewrite Hx.
  - rewrite Hy. now apply IH.
Qed.

Lemma svz_num (i j : nat) :
  same_value_zero (num (Z.of_nat i)) (num (Z.of_nat j)) = Nat.eqb i j.
Proof.
  cbn. unfold Qeq_bool. cbn. rewrite !Z.mul_1_r.
  destruct (Nat.eqb i j) eqn:E.
  - apply Nat.eqb_eq in E. subst. apply Z.eqb_refl.
  - apply Nat.eqb_neq in E. apply Z.eqb_neq. lia.
Qed.

(** X12.  When every area carries its position in the list as id (which is
    what normalization gives when the theme names no ids), the content
    item at index [i], whether it names area [i] or no area at all, is
    mounted into the area at position [i].  With the two built-in areas the
    viewer's photo (area 0) goes to the front area and its text (area 1)
    to the back area. *)
Theorem item_meets_area_at_its_index (contentArea : list ContentArea.t)
  (contentAreas : AreaMap) :
  (forall (i : nat) (a : ContentArea.t),
      nth_error contentArea i = Some a ->
      ContentArea.area a = num (Z.of_nat i)) ->
  _createContentAreas contentArea = Ok contentAreas ->
  forall (i : nat) (a : ContentArea.t) (contentData : ContentItem),
    nth_error contentArea i = Some a ->
    item_area contentData = None \/ item_area contentData = Some (Z.of_nat i) ->
    area_for contentAreas contentData i = Some a.
Proof.
  intros Ids H i a contentData Ni Hid.
  unfold area_for. rewrite (add_areas_get _ _ _ _ H). cbn [map_get].
  assert (areaId contentData i = num (Z.of_nat i)) as ->.
  { unfold areaId. destruct Hid as [->| ->]; reflexivity. }
  destruct (nth_error_split _ _ Ni) as (l1 & l2 & -> & L).
  unfold last_with_id. rewrite rev_app_distr. cbn [rev]. rewrite <- app_assoc.
  cbn [app]. rewrite find_middle; [reflexivity| |].
  - apply List.Forall_forall. intros y Hy. apply in_rev in Hy.
    apply In_nth_error in Hy as (j & Hj).
    assert (nth_error (l1 ++ a :: l2) (length l1 + S j) = Some y) as Ny.
    { rewrite nth_error_app2 by lia.
      replace (length l1 + S j - length l1)%nat with (S j) by lia. exact Hj. }
    rewrite (Ids _ _ Ny), svz_num. apply Nat.eqb_neq. lia.
  - rewrite (Ids _ _ Ni), svz_num. apply Nat.eqb_refl.
Qed.

Lemma item_meets_area_at_its_index_witness :
  exists contentAreas front back,
    _createContentAreas (contentArea Examples.bare_config) = Ok contentAreas
    /\ nth_error (contentArea Examples.bare_config) 0 = Some front
    /\ nth_error (contentArea Examples.bare_config) 1 = Some back
    /\ area_for contentAreas
         (mkItem (Some 0%Z) "image" (Some "/images/a.jpg") None None) 0
       = Some front
    /\ area_for contentAreas (mkItem (Some 1%Z) "text" None (Some "hi") None) 1
       = Some back.
Proof.
  eexists _, _, _. split; [reflexivity|].
  split; [reflexivity|]. split; [reflexivity|].
  assert (forall (i : nat) (a : ContentArea.t),
             nth_error (contentArea Examples.bare_config) i = Some a ->
             ContentArea.area a = num (Z.of_nat i)) as Ids.
  { intros [|[|i]] a E; cbn in E; inversion E; reflexivity || (destruct i; discriminate). }
  split.
  - apply (item_meets_area_at_its_index _ _ Ids eq_refl 0%nat); [reflexivity|].
    right. reflexivity.
  - apply (item_meets_area_at_its_index _ _ Ids eq_refl 1%nat); [reflexivity|].
    right. reflexivity.
Defined.

End AreaMapResults.

Module ControllerResults.

Import RealPic Notions.

Lemma run_reachable (es : list event) :
  forall s : t, reachable s -> reachable (run s es).
Proof.
  induction es as [|e es IH]; intros s R; [exact R|].
  cbn [run fold_left]. apply IH. now apply reach_step.
Qed.

(** X13.  Over any sequence of [flip], [reset], [show], [hide] calls and
    timer callbacks after construction, the flipped class is on the root
    element exactly when [isFlipped] is true, and a timer callback of
    [flip] is pending exactly while [isAnimating] is true: never more than
    one. *)
Theorem flags_stay_consistent (container : option HTMLElement) (s0 : t)
  (es : list event) :
  constructor container = Ok s0 ->
  flipped (run s0 es) = isFlipped (run s0 es)
  /\ timers (run s0 es) = (if isAnimating (run s0 es) then 1 else 0)%nat
  /\ (timers (run s0 es) <= 1)%nat.
Proof.
  intros C.
  destruct (Controller.reachable_invariant (run s0 es)) as (F & T).
  { apply run_reachable. now apply (reach_new container). }
  split; [exact F|]. split; [exact T|].
  rewrite T. destruct (isAnimating (run s0 es)); lia.
Qed.

Lemma flags_stay_consistent_witness :
  flipped (run Examples.fresh [Flip; Hide; Flip; Timeout; Show; Flip])
  = isFlipped (run Examples.fresh [Flip; Hide; Flip; Timeout; Show; Flip])
  /\ timers (run Examples.fresh [Flip; Hide; Flip; Timeout; Show; Flip])
     = (if isAnimating (run Examples.fresh [Flip; Hide; Flip; Timeout; Show; Flip])
        then 1 else 0)%nat
  /\ (timers (run Examples.fresh [Flip; Hide; Flip; Timeout; Show; Flip]) <= 1)%nat.
Proof.
  apply (flags_stay_consistent (Some (element "viewerContainer"))). reflexivity.
Defined.



Lemma parse_empty_any_base (themeBase : string) :
  ConfigParser.parse (VObj []) themeBase = Ok (Examples.bare_config, []).
Proof.
  unfold ConfigParser.parse. cbn. unfold ConfigParser._resolveImagePaths.
  cbn. now destruct (String.eqb themeBase EmptyString).
Qed.

(** X15.  With a theme path, [_loadConfig] always leaves a configuration:
    when the request fails, the response is not ok, the body is not JSON
    or the descriptor makes [parse] throw, it logs the failure and installs
    the normalization of [{}] (default backgrounds, no images, the two
    built-in areas); otherwise it installs what [parse] returned and logs
    its warnings.  The file requested is [config.json] directly under the
    theme path, with exactly one slash between. *)
Theorem loadConfig_falls_back_to_bare
  (fetch : string -> FetchOutcome) (s : t) (o : Options) (themeBase : string) :
  options s = Some o ->
  themePath o = Some themeBase ->
  String.eqb themeBase EmptyString = false ->
  let attempt :=
    fetchConfig fetch (theme_base themeBase +:+ "config.json") themeBase in
  (returns attempt = false ->
   _loadConfig fetch s
   = (set_config Examples.bare_config (log [] (log ["Failed to load theme:"] s)),
      Ok tt))
  /\ (forall config warnings,
        attempt = Ok (config, warnings) ->
        _loadConfig fetch s = (set_config config (log warnings s), Ok tt)).
Proof.
  intros Ho Ht Hb. cbv zeta. unfold _loadConfig. rewrite Ho, Ht, Hb.
  fold (theme_base themeBase).
  destruct (fetchConfig fetch _ themeBase) as [[config warnings]|e].
  - split; [discriminate|]. intros c w E. now inversion E.
  - split; [|discriminate]. intros _. now rewrite parse_empty_any_base.
Qed.

Lemma loadConfig_falls_back_to_bare_witness :
  _loadConfig Examples.offline Examples.configured
  = (set_config Examples.bare_config
       (log [] (log ["Failed to load theme:"] Examples.configured)),
     Ok tt).
Proof.
  apply (proj1 (loadConfig_falls_back_to_bare Examples.offline Examples.configured
                  (mkOptions (Some "/themes/x/") Examples.text_then_image)
                  "/themes/x/" eq_refl eq_refl eq_refl)).
  reflexivity.
Defined.

End ControllerResults.

Module ImageResults.

Import RealPic Notions.

Lemma unorm_not_nil (d : Decimal.uint) : Decimal.unorm d <> Decimal.Nil.
Proof. unfold Decimal.unorm. destruct (Decimal.nzhead d); discriminate. Qed.

Lemma to_uint_not_nil (n : nat) : Nat.to_uint n <> Decimal.Nil.
Proof.
  rewrite <- (DecimalNat.Unsigned.of_to n) at 1.
  rewrite DecimalNat.Unsigned.to_of. apply unorm_not_nil.
Qed.

Lemma app_inv_head (a x y : string) : a +:+ x = a +:+ y -> x = y.
Proof.
  induction a as [|c a IH]; [auto|].
  change (String c a +:+ x) with (String c (a +:+ x)).
  change (String c a +:+ y) with (String c (a +:+ y)).
  intros H. injection H as H. auto.
Qed.

Lemma content_key_inj (i j : nat) : content_key i = content_key j -> i = j.
Proof.
  unfold content_key. intros H. apply app_inv_head in H.
  apply (f_equal NilZero.uint_of_string) in H.
  rewrite !NilZero.usu in H by apply to_uint_not_nil.
  inversion H as [E]. now apply DecimalNat.Unsigned.to_uint_inj.
Qed.

Lemma content_key_not_frame (j : nat) :
  content_key j <> "frontFrame" /\ content_key j <> "backFrame".
Proof. split; discriminate. Qed.

Section WithDecoder.

Variable loadImage : string -> option (N * N).

Lemma loadSingle_lookup (url key : string) (s : t) (k : string) :
  loadedImages (loadSingle loadImage url key s) !! k
  = if String.eqb key k
    then match loadImage url with
         | Some (w, h) => Some (Asset.mk w h url)
         | None => loadedImages s !! k
         end
    else loadedImages s !! k.
Proof.
  unfold loadSingle.
  destruct (String.eqb key k) eqn:E.
  - apply String.eqb_eq in E. subst k.
    destruct (loadImage url) as [[w h]|]; [|reflexivity].
    cbn. apply lookup_insert_eq.
  - apply String.eqb_neq in E.
    destruct (loadImage url) as [[w h]|]; [|reflexivity].
    cbn. now apply lookup_insert_ne.
Qed.

Lemma loadSingle_content (url : string) (index j : nat) (s : t) :
  index <> j ->
  loadedImages (loadSingle loadImage url (content_key index) s) !! content_key j
  = loadedImages s !! content_key j.
Proof.
  intros N. rewrite loadSingle_lookup.
  destruct (String.eqb (content_key index) (content_key j)) eqn:E; [|reflexivity].
  apply String.eqb_eq, content_key_inj in E. contradiction.
Qed.

Lemma load_item_same (index : nat) (content : ContentItem) (s : t) :
  loadedImages (load_item loadImage index content s) !! content_key index
  = match decoded loadImage content with
    | Some a => Some a
    | None => loadedImages s !! content_key index
    end.
Proof.
  unfold load_item, decoded. destruct (src content) as [url|]; [|reflexivity].
  destruct (String.eqb (type content) "image" && negb (String.eqb url EmptyString));
    [|reflexivity].
  rewrite loadSingle_lookup, String.eqb_refl.
  now destruct (loadImage url) as [[w h]|].
Qed.

Lemma load_item_other (index : nat) (content : ContentItem) (s : t) (k : string) :
  k <> content_key index ->
  loadedImages (load_item loadImage index content s) !! k = loadedImages s !! k.
Proof.
  intros N. unfold load_item. destruct (src content) as [url|]; [|reflexivity].
  destruct (String.eqb (type content) "image" && negb (String.eqb url EmptyString));
    [|reflexivity].
  rewrite loadSingle_lookup.
  destruct (String.eqb (content_key index) k) eqn:E; [|reflexivity].
  apply String.eqb_eq in E. congruence.
Qed.

Lemma loadContents_step (index : nat) (content : ContentItem)
  (rest : list ContentItem) (s : t) :
  loadContents loadImage index (content :: rest) s
  = loadContents loadImage (S index) rest (load_item loadImage index content s).
Proof. reflexivity. Qed.

Lemma loadContents_other (contents : list ContentItem) :
  forall (index : nat) (s : t) (k : string),
    (forall j, k <> content_key j) ->
    loadedImages (loadContents loadImage index contents s) !! k
    = loadedImages s !! k.
Proof.
  induction contents as [|c rest IH]; intros index s k N; [reflexivity|].
  rewrite loadContents_step, (IH _ _ _ N). now apply load_item_other.
Qed.

Lemma loadContents_lookup (contents : list ContentItem) :
  forall (index : nat) (s : t) (j : nat),
    loadedImages (loadContents loadImage index contents s) !! content_key j
    = match (if (index <=? j)%nat
             then match nth_error contents (j - index) with
                  | Some c => decoded loadImage c
                  | None => None
                  end
             else None) with
      | Some a => Some a
      | None => loadedImages s !! content_key j
      end.
Proof.
  induction contents as [|c rest IH]; intros index s j.
  - cbn [loadContents]. destruct (index <=? j)%nat; [|reflexivity].
    now destruct (j - index)%nat.
  - rewrite loadContents_step, IH.
    destruct (Nat.lt_trichotomy j index) as [L|[E|G]].
    + rewrite (proj2 (Nat.leb_gt (S index) j)) by lia.
      rewrite (proj2 (Nat.leb_gt index j)) by lia.
      apply load_item_other. intros K. apply content_key_inj in K. lia.
    + subst j. rewrite (proj2 (Nat.leb_gt (S index) index)) by lia.
      rewrite Nat.leb_refl, Nat.sub_diag. cbn [nth_error].
      apply load_item_same.
    + rewrite (proj2 (Nat.leb_le (S index) j)) by lia.
      rewrite (proj2 (Nat.leb_le index j)) by lia.
      replace (j - index)%nat with (S (j - S index)) by lia. cbn [nth_error].
      destruct (match nth_error rest (j - S index) with
                | Some c0 => decoded loadImage c0
                | None => None
                end); [reflexivity|].
      apply load_item_other. intros K. apply content_key_inj in K. lia.
Qed.

Lemma loadFrame_lookup (image : jsval) (key : string) (s : t) (k : string) :
  loadedImages (loadFrame loadImage image key s) !! k
  = if String.eqb key k
    then match decoded_frame loadImage image with
         | Some a => Some a
         | None => loadedImages s !! k
         end
    else loadedImages s !! k.
Proof.
  unfold loadFrame, decoded_frame.
  destruct image; try (now destruct (String.eqb key k)).
  destruct (truthy (VStr s0)); [|now destruct (String.eqb key k)].
  rewrite loadSingle_lookup.
  destruct (String.eqb key k); [|reflexivity].
  now destruct (loadImage s0) as [[w h]|].
Qed.

Lemma loadImages_lookup (s : t) (o : Options) (config : NormalizedConfig) :
  options s = Some o -> parsedConfig s = Some config ->
  let s' := fst (_loadImages loadImage s) in
  snd (_loadImages loadImage s) = Ok tt
  /\ (forall j : nat,
        loadedImages s' !! content_key j
        = match nth_error (contents o) j with
          | Some c => decoded loadImage c
          | None => None
          end)
  /\ loadedImages s' !! "frontFrame"
     = decoded_frame loadImage (SideConfig.image (front config))
  /\ loadedImages s' !! "backFrame"
     = decoded_frame loadImage (SideConfig.image (back config))
  /\ (forall k : string,
        k <> "frontFrame" -> k <> "backFrame" ->
        (forall j, k <> content_key j) ->
        loadedImages s' !! k = None).
Proof.
  intros Ho Hc. cbv zeta. unfold _loadImages.
  change (parsedConfig (set_images ∅ s)) with (parsedConfig s).
  change (options (set_images ∅ s)) with (options s).
  rewrite Ho, Hc. cbn [fst snd].
  split; [reflexivity|].
  split; [|split; [|split]].
  - intros j. rewrite loadContents_lookup. cbn [Nat.leb]. rewrite Nat.sub_0_r.
    destruct (match nth_error (contents o) j with
              | Some c => decoded loadImage c
              | None => None
              end); [reflexivity|].
    destruct (content_key_not_frame j) as (Nf & Nb).
    rewrite !loadFrame_lookup.
    rewrite (proj2 (String.eqb_neq "backFrame" (content_key j))) by congruence.
    rewrite (proj2 (String.eqb_neq "frontFrame" (content_key j))) by congruence.
    apply lookup_empty.
  - rewrite loadContents_other
      by (intros j E; now apply (proj1 (content_key_not_frame j))).
    rewrite !loadFrame_lookup. cbn [String.eqb Ascii.eqb Bool.eqb].
    now destruct (decoded_frame loadImage (SideConfig.image (front config))).
  - rewrite loadContents_other
      by (intros j E; now apply (proj2 (content_key_not_frame j))).
    rewrite loadFrame_lookup, String.eqb_refl.
    destruct (decoded_frame loadImage (SideConfig.image (back config)));
      [reflexivity|].
    rewrite loadFrame_lookup. cbn [String.eqb Ascii.eqb Bool.eqb].
    apply lookup_empty.
  - intros k Nf Nb Nc. rewrite (loadContents_other _ _ _ _ Nc).
    rewrite !loadFrame_lookup.
    rewrite (proj2 (String.eqb_neq "backFrame" k)) by congruence.
    rewrite (proj2 (String.eqb_neq "frontFrame" k)) by congruence.
    apply lookup_empty.
Qed.

(** X16.  After [_loadImages] the map of loaded images holds exactly: under
    [content_<i>] the decoded size of content item [i] when that item is an
    image with a non-empty [src] that decoded, under [frontFrame] and
    [backFrame] the decoded frame images, and nothing else.  Text items,
    failed loads and entries of an earlier configuration are absent. *)
Theorem loadImages_holds_what_decoded (s : t) (o : Options)
  (config : NormalizedConfig) :
  options s = Some o -> parsedConfig s = Some config ->
  let s' := fst (_loadImages loadImage s) in
  snd (_loadImages loadImage s) = Ok tt
  /\ (forall j : nat,
        loadedImages s' !! content_key j
        = match nth_error (contents o) j with
          | Some c => decoded loadImage c
          | None => None
          end)
  /\ loadedImages s' !! "frontFrame"
     = decoded_frame loadImage (SideConfig.image (front config))
  /\ loadedImages s' !! "backFrame"
     = decoded_frame loadImage (SideConfig.image (back config))
  /\ (forall k : string,
        k <> "frontFrame" -> k <> "backFrame" ->
        (forall j, k <> content_key j) ->
        loadedImages s' !! k = None).
Proof. apply loadImages_lookup. Qed.

(** X17.  When the theme gives the front neither a size nor a frame image
    and the first content item is an image that decodes, loading the images
    and resolving the dimensions makes the card and the front face exactly
    as large as that image. *)
Theorem card_takes_photo_size (s : t) (o : Options) (config : NormalizedConfig)
  (photo : ContentItem) (rest : list ContentItem) (url : string) (w h : N) :
  options s = Some o -> parsedConfig s = Some config ->
  contents o = photo :: rest ->
  type photo = "image" -> src photo = Some url ->
  String.eqb url EmptyString = false ->
  loadImage url = Some (w, h) ->
  SideConfig.width (front config) = VNull ->
  SideConfig.height (front config) = VNull ->
  SideConfig.image (front config) = VNull ->
  exists d,
    dimensions (fst (seq (_loadImages loadImage) resolveDimensions s)) = Some d
    /\ dim_front d = Size.mk (VNum (Num.of_N w)) (VNum (Num.of_N h))
    /\ realpic d = Size.mk (VNum (Num.of_N w)) (VNum (Num.of_N h)).
Proof.
  intros Ho Hc Hl Ht Hs Hu Hd Fw Fh Fi.
  destruct (loadImages_lookup s o config Ho Hc) as (R & C & F & _).
  destruct (LoadFacts.loadImages_ok loadImage s o config Ho Hc)
    as (s' & E & Hc' & _).
  rewrite E in C, F. cbn [fst] in C, F.
  unfold seq. rewrite E. unfold resolveDimensions. rewrite Hc'. cbn [fst].
  eexists. split; [reflexivity|].
  unfold ConfigParser.getDimensions, ConfigParser.fill_from.
  rewrite Fw, Fh. cbn [is_null orb].
  rewrite F, Fi. cbn [decoded_frame].
  change "content_0" with (content_key 0). rewrite C, Hl. cbn [nth_error].
  unfold decoded. rewrite Hs, Ht, Hu, Hd. cbn. split; reflexivity.
Qed.

End WithDecoder.

Lemma loadImages_holds_what_decoded_witness :
  loadedImages (fst (_loadImages Examples.decoder Examples.configured))
    !! content_key 1
  = Some (Asset.mk 400 300 "photo.jpg")
  /\ loadedImages (fst (_loadImages Examples.decoder Examples.configured))
       !! content_key 0
     = None.
Proof.
  destruct (loadImages_holds_what_decoded Examples.decoder Examples.configured
              (mkOptions (Some "/themes/x/") Examples.text_then_image)
              Examples.bare_config eq_refl eq_refl) as (_ & C & _).
  split; [exact (C 1%nat) | exact (C 0%nat)].
Defined.

Lemma card_takes_photo_size_witness :
  exists d,
    dimensions
      (fst (seq (_loadImages Examples.decoder) resolveDimensions
              (set_options
                 (mkOptions (Some "/themes/x/")
                    [mkItem (Some 0%Z) "image" (Some "photo.jpg") None None])
                 Examples.configured)))
    = Some d
    /\ dim_front d = Size.mk (VNum (Num.of_N 400)) (VNum (Num.of_N 300))
    /\ realpic d = Size.mk (VNum (Num.of_N 400)) (VNum (Num.of_N 300)).
Proof.
  apply (card_takes_photo_size Examples.decoder
           (set_options
              (mkOptions (Some "/themes/x/")
                 [mkItem (Some 0%Z) "image" (Some "photo.jpg") None None])
              Examples.configured)
           (mkOptions (Some "/themes/x/")
              [mkItem (Some 0%Z) "image" (Some "photo.jpg") None None])
           Examples.bare_config
           (mkItem (Some 0%Z) "image" (Some "photo.jpg") None None) []
           "photo.jpg" 400 300);
    reflexivity.
Defined.

End ImageResults.

Module PointerResults.

Import Pointer.

Lemma step_keeps_frames (s : t) (ev : env * event) :
  frames s = (if rafPending s then 1 else 0)%nat ->
  frames (step s ev) = (if rafPending (step s ev) then 1 else 0)%nat.
Proof.
  intros I. destruct ev as [e what].
  destruct what; cbn [step];
    unfold mousemove, mouseleave, touchstart, touchmove, touchend, frame,
      updatePointer, _updatePerspective;
    destruct (isAnimating e), (rafPending s) eqn:P, (lastMouse s) as [[? ?]|],
      (isTouching s);
    cbn; rewrite ?P, ?I; cbn; rewrite ?P; try reflexivity; try exact I.
Qed.

Lemma run_keeps_frames (evs : list (env * event)) :
  forall s : t,
    frames s = (if rafPending s then 1 else 0)%nat ->
    frames (run s evs) = (if rafPending (run s evs) then 1 else 0)%nat.
Proof.
  induction evs as [|ev evs IH]; intros s I; [exact I|].
  cbn [run fold_left]. apply IH. now apply step_keeps_frames.
Qed.

Lemma moves_coalesce (e : env) (moves : list (float * float)) :
  isAnimating e = false ->
  forall (s : t) (x y : float),
    frames s = (if rafPending s then 1 else 0)%nat ->
    let s' := run s (map (fun p => (e, MouseMove (fst p) (snd p)))
                       (moves ++ [(x, y)])) in
    lastMouse s' = Some (x, y)
    /\ frames s' = 1%nat
    /\ rafPending s' = true
    /\ tilt s' = tilt s
    /\ isTouching s' = isTouching s.
Proof.
  intros A. induction moves as [|[x0 y0] moves IH]; intros s x y I; cbv zeta.
  - cbn. unfold mousemove, updatePointer. rewrite A.
    destruct (rafPending s) eqn:P; cbn; rewrite ?I; repeat split.
  - cbn [app map run fold_left].
    specialize (IH (step s (e, MouseMove x0 y0)) x y
                  (step_keeps_frames s _ I)).
    cbv zeta in IH. destruct IH as (L & F & R & T & U).
    unfold run in *. cbn [fst snd] in *. rewrite L, F, R, T, U.
    repeat split; cbn [step]; unfold mousemove, updatePointer; rewrite A;
      now destruct (rafPending s).
Qed.

(** X19.  Pointer moves are coalesced per frame: over any sequence of
    pointer events and frame callbacks from the start, a frame callback is
    pending exactly while [_rafPending] is set, so never more than one;
    and however many mouse moves arrive before the frame, the one pending
    callback applies the rotation of the last position. *)
Theorem moves_coalesced_per_frame :
  (forall evs : list (env * event),
      frames (run initial evs)
      = (if rafPending (run initial evs) then 1 else 0)%nat
      /\ (frames (run initial evs) <= 1)%nat)
  /\ (forall (e e' : env) (moves : list (float * float)) (x y : float)
        (evs : list (env * event)),
      isAnimating e = false -> isAnimating e' = false ->
      let before := run initial evs in
      let after :=
        run before (map (fun p => (e, MouseMove (fst p) (snd p)))
                      (moves ++ [(x, y)])) in
      frames after = 1%nat
      /\ tilt after = tilt before
      /\ tilt (frame e' after) = Some (rotation e' (isTouching before) x y)
      /\ frames (frame e' after) = 0%nat).
Proof.
  split.
  - intros evs.
    pose proof (run_keeps_frames evs initial eq_refl) as I.
    split; [exact I|]. rewrite I. destruct (rafPending _); lia.
  - intros e e' moves x y evs A A'. cbv zeta.
    pose proof (run_keeps_frames evs initial eq_refl) as I.
    destruct (moves_coalesce e moves A (run initial evs) x y I)
      as (L & F & R & T & U).
    cbv zeta in L, F, R, T, U.
    split; [exact F|]. split; [exact T|].
    unfold frame. rewrite F. unfold _updatePerspective. rewrite A'.
    cbn [lastMouse isTouching]. rewrite L. cbn. rewrite U. auto.
Qed.

Lemma moves_coalesced_per_frame_witness :
  let e := mkEnv false (mkRect 0%float 0%float 800%float 600%float) in
  let after :=
    run (run initial [])
      (map (fun p => (e, MouseMove (fst p) (snd p)))
         ([(10%float, 10%float); (20%float, 15%float)] ++ [(400%float, 300%float)])) in
  frames after = 1%nat
  /\ tilt after = tilt (run initial [])
  /\ tilt (frame e after)
     = Some (rotation e (isTouching (run initial [])) 400%float 300%float)
  /\ frames (frame e after) = 0%nat.
Proof.
  cbv zeta.
  apply (proj2 moves_coalesced_per_frame
           (mkEnv false (mkRect 0%float 0%float 800%float 600%float))
           (mkEnv false (mkRect 0%float 0%float 800%float 600%float))
           [(10%float, 10%float); (20%float, 15%float)] 400%float 300%float []);
    reflexivity.
Defined.

(** X20.  [mouseleave] and [touchend] forget the pointer position and
    write no transform: the rotation last applied stays as it is, and a
    frame callback that was still pending leaves it as well. *)
Theorem leaving_keeps_last_tilt (e e' : env) (s : t) :
  lastMouse (mouseleave e s) = None
  /\ tilt (mouseleave e s) = tilt s
  /\ tilt (frame e' (mouseleave e s)) = tilt s
  /\ lastMouse (touchend e s) = None
  /\ isTouching (touchend e s) = false
  /\ tilt (touchend e s) = tilt s
  /\ tilt (frame e' (touchend e s)) = tilt s.
Proof.
  unfold mouseleave, touchend, frame, _updatePerspective.
  destruct (isAnimating e), (isAnimating e'), (frames s); cbn; repeat split.
Qed.

End PointerResults.

Module ViewerResults.

Import RealPic Notions.

Lemma endsWith_app (s p : string) : Str.endsWith (s +:+ p) p = true.
Proof.
  induction s as [|c s IH].
  - change (EmptyString +:+ p) with p. destruct p; cbn.
    + reflexivity.
    + now rewrite Ascii.eqb_refl, String.eqb_refl.
  - change (String c s +:+ p) with (String c (s +:+ p)).
    cbn [Str.endsWith]. rewrite IH. now destruct (String.eqb _ p).
Qed.

Lemma endsWith_app_r (x y p : string) :
  Str.endsWith y p = true -> Str.endsWith (x +:+ y) p = true.
Proof.
  intros H. induction x as [|c x IH]; [exact H|].
  change (String c x +:+ y) with (String c (x +:+ y)).
  cbn [Str.endsWith]. rewrite IH. now destruct (String.eqb _ p).
Qed.

Lemma endsWith_nonempty (s : string) :
  Str.endsWith s "/" = true -> String.eqb s EmptyString = false.
Proof. destruct s; [discriminate|reflexivity]. Qed.

Lemma getThemePath_slash (o : Viewer.ViewerOptions) (theme : option string) :
  Str.endsWith (Viewer.getThemePath o theme) "/" = true.
Proof.
  unfold Viewer.getThemePath.
  destruct theme as [t|];
    [destruct (String.eqb t EmptyString || String.eqb (Str.trim t) EmptyString)|];
    apply endsWith_app_r, endsWith_app.
Qed.

(** X21.  [Viewer.getThemePath] always returns a non-empty path that ends with a
    slash, using the default theme for a missing, empty or blank theme name.
    So the options the viewer passes to [setOptions] always carry a theme
    path: [config.json] is requested directly under it, the first
    [setOptions] is fulfilled whenever the DOM work succeeds, whatever the
    network and the decoder answer, and later ones are always fulfilled. *)
Theorem viewer_always_supplies_theme_path (o : Viewer.ViewerOptions)
  (theme : option string) :
  Str.endsWith (Viewer.getThemePath o theme) "/" = true
  /\ String.eqb (Viewer.getThemePath o theme) EmptyString = false
  /\ theme_base (Viewer.getThemePath o theme) = Viewer.getThemePath o theme
  /\ (match theme with
      | Some t => String.eqb (Str.trim t) EmptyString = true
      | None => True
      end ->
      Viewer.getThemePath o theme = Viewer.themesPath o +:+ Viewer.defaultTheme o +:+ "/")
  /\ (forall fetch loadImage (paint : Act unit) filename title text (s : t),
        (forall s', returns (snd (paint s')) = true) ->
        snd (setOptions fetch loadImage paint
               (Viewer.showOptions o filename title text theme) s)
        = Ok tt).
Proof.
  pose proof (getThemePath_slash o theme) as E.
  pose proof (endsWith_nonempty _ E) as N.
  split; [exact E|]. split; [exact N|].
  split; [unfold theme_base; now rewrite E|].
  split.
  - unfold Viewer.getThemePath. destruct theme as [t|]; [|reflexivity].
    intros ->. now rewrite orb_true_r.
  - intros fetch loadImage paint filename title text s P.
    destruct (isInitialized s) eqn:I.
    + now apply Controller.setOptions_initialized.
    + apply (Controller.setOptions_first_time fetch loadImage paint
               (Viewer.showOptions o filename title text theme) s
               (Viewer.getThemePath o theme) I eq_refl N P).
Qed.

Lemma viewer_always_supplies_theme_path_witness :
  Viewer.getThemePath (Viewer.mkViewerOptions "/images/" "/static/realpic/themes/" "zmd")
    (Some "   ")
  = "/static/realpic/themes/" +:+ "zmd" +:+ "/"
  /\ snd (setOptions Examples.offline Examples.decoder Examples.no_paint
            (Viewer.showOptions
               (Viewer.mkViewerOptions "/images/" "/static/realpic/themes/" "zmd")
               "a.jpg" None None (Some "   "))
            Examples.fresh)
     = Ok tt.
Proof.
  destruct (viewer_always_supplies_theme_path
              (Viewer.mkViewerOptions "/images/" "/static/realpic/themes/" "zmd")
              (Some "   ")) as (_ & _ & _ & D & F).
  split; [apply D; reflexivity|].
  apply F. reflexivity.
Defined.

(** X22.  Whenever the first content item is of image type, as in the
    options the viewer builds, resolving the dimensions from
    [loadedImages.content_0] is resolving them from the first image-type
    content: on a normalized configuration [getDimensions] then agrees with
    the chain as the specification words it. *)
Theorem first_item_image_agrees (config : NormalizedConfig)
  (loadedImages : gmap string Asset.t) :
  Descriptor.normalized config ->
  (forall contents : list ContentItem,
      Chain.first_image_index 0 contents = Some 0%nat ->
      ConfigParser.getDimensions config loadedImages
      = Chain.spec_getDimensions config loadedImages contents)
  /\ (forall o filename title text theme,
        ConfigParser.getDimensions config loadedImages
        = Chain.spec_getDimensions config loadedImages
            (contents (Viewer.showOptions o filename title text theme))).
Proof.
  intros N.
  assert (forall contents : list ContentItem,
             Chain.first_image_index 0 contents = Some 0%nat ->
             ConfigParser.getDimensions config loadedImages
             = Chain.spec_getDimensions config loadedImages contents) as H.
  { intros contents F. rewrite (Resolution.getDimensions_resolve _ _ N).
    unfold Chain.spec_getDimensions. rewrite F. reflexivity. }
  split; [exact H|].
  intros o filename title text theme. apply H. reflexivity.
Qed.

Lemma first_item_image_agrees_witness :
  ConfigParser.getDimensions Examples.bare_config
    {[ "content_0" := Asset.mk 1200 900 "/images/a.jpg" ]}
  = Chain.spec_getDimensions Examples.bare_config
      {[ "content_0" := Asset.mk 1200 900 "/images/a.jpg" ]}
      (contents (Viewer.showOptions
                   (Viewer.mkViewerOptions "/images/" "/static/realpic/themes/" "zmd")
                   "a.jpg" None None None)).
Proof.
  apply (proj2 (first_item_image_agrees Examples.bare_config
                  {[ "content_0" := Asset.mk 1200 900 "/images/a.jpg" ]}
                  (conj eq_refl (conj eq_refl (conj eq_refl eq_refl))))).
Defined.

(** X23.  [close()] does nothing on a viewer that is not open, so closing
    twice is closing once and schedules a single [hide]; Escape closes only
    an open viewer.  When the scheduled timer runs on a viewer that was
    open, the card is hidden and back on its front face, whatever it showed
    before. *)
Theorem close_once_then_hidden_front (hasOnClose : bool) (s : Viewer.t) :
  Viewer.close hasOnClose (Viewer.close hasOnClose s) = Viewer.close hasOnClose s
  /\ (Viewer.isOpen s = false -> Viewer.close hasOnClose s = s)
  /\ (Viewer.isOpen s = false -> Viewer._handleKeydown hasOnClose "Escape" s = s)
  /\ (forall key, String.eqb key "Escape" = false ->
                  Viewer._handleKeydown hasOnClose key s = s)
  /\ (Viewer.isOpen s = true ->
      Viewer.hideTimers (Viewer.close hasOnClose s) = S (Viewer.hideTimers s)
      /\ Viewer.isOpen (Viewer.close hasOnClose s) = false
      /\ Viewer.active (Viewer.close hasOnClose s) = false
      /\ Viewer.realpic (Viewer.close hasOnClose s) = Viewer.realpic s
      /\ Viewer.realpic (Viewer.hideTimeout (Viewer.close hasOnClose s))
         = RealPic.hide <$> Viewer.realpic s
      /\ forall card,
          Viewer.realpic (Viewer.hideTimeout (Viewer.close hasOnClose s)) = Some card ->
          hidden card = true /\ isFlipped card = false /\ flipped card = false).
Proof.
  split; [|split; [|split; [|split]]].
  - unfold Viewer.close. destruct (Viewer.isOpen s) eqn:O; cbn; [reflexivity|now rewrite O].
  - intros O. unfold Viewer.close. now rewrite O.
  - intros O. unfold Viewer._handleKeydown. rewrite O. now rewrite andb_false_r.
  - intros key K. unfold Viewer._handleKeydown. now rewrite K.
  - intros O. unfold Viewer.close. rewrite O. cbn.
    repeat split.
    all: destruct (Viewer.realpic s) as [c|]; cbn in H; inversion H; reflexivity.
Qed.

Lemma close_once_then_hidden_front_witness :
  Viewer.hideTimers
    (Viewer.close true (Viewer.mk (Some (flip Examples.fresh)) true true "hidden" 0 0))
  = 1%nat
  /\ Viewer.realpic
       (Viewer.hideTimeout
          (Viewer.close true
             (Viewer.mk (Some (flip Examples.fresh)) true true "hidden" 0 0)))
     = RealPic.hide <$> Some (flip Examples.fresh).
Proof.
  destruct (close_once_then_hidden_front true
              (Viewer.mk (Some (flip Examples.fresh)) true true "hidden" 0 0))
    as (_ & _ & _ & _ & H).
  destruct (H eq_refl) as (T & _ & _ & _ & R & _).
  split; [exact T | exact R].
Defined.

End ViewerResults.

Module EdgeResults.

Import RealPic ConfigParser Notions.

Lemma prefix_app_l (a b x : string) :
  String.prefix a b = true -> String.prefix a (b +:+ x) = true.
Proof.
  revert b. induction a as [|c a IH]; intros b H;
    [now destruct (b +:+ x)|].
  destruct b as [|d b]; [discriminate|].
  change (String d b +:+ x) with (String d (b +:+ x)).
  cbn [String.prefix] in *. destruct (ascii_dec c d); [now apply IH|discriminate].
Qed.

Lemma prefix_trans (a b c : string) :
  String.prefix a b = true -> String.prefix b c = true -> String.prefix a c = true.
Proof.
  revert b c. induction a as [|x a IH]; intros b c H1 H2; [now destruct c|].
  destruct b as [|y b]; [discriminate|]. destruct c as [|z c]; [discriminate|].
  cbn [String.prefix] in *.
  destruct (ascii_dec x y) as [->|]; [|discriminate].
  destruct (ascii_dec y z) as [->|]; [|discriminate].
  now apply (IH b).
Qed.

Lemma absolute_base (themeBase : string) :
  Str.startsWith themeBase "http" || Str.startsWith themeBase "/" = true ->
  Str.startsWith (theme_base themeBase) "http"
  || Str.startsWith (theme_base themeBase) "/" = true.
Proof.
  unfold theme_base. destruct (Str.endsWith themeBase "/"); [auto|].
  unfold Str.startsWith. intros H. apply orb_true_iff in H as [H|H];
    rewrite (prefix_app_l _ _ "/" H); [reflexivity|apply orb_true_r].
Qed.

Lemma resolved_is_absolute (base : string) (image : jsval) :
  Str.startsWith base "http" || Str.startsWith base "/" = true ->
  resolved_image base image ->
  image = VNull
  \/ exists q, image = VStr q
               /\ String.eqb q EmptyString = false
               /\ Str.startsWith q "http" || Str.startsWith q "/" = true.
Proof.
  intros B [->|(q & -> & N & S)]; [now left|]. right. exists q.
  split; [reflexivity|]. split; [exact N|].
  apply orb_true_iff in S as [S|S]; [exact S|].
  unfold Str.startsWith in *.
  apply orb_true_iff in B as [B|B];
    rewrite (prefix_trans _ _ _ B S); [reflexivity|apply orb_true_r].
Qed.

Lemma resolve_absolute (image : jsval) (base : string) :
  (image = VNull
   \/ exists q, image = VStr q
                /\ String.eqb q EmptyString = false
                /\ Str.startsWith q "http" || Str.startsWith q "/" = true) ->
  truthy image = false \/ _resolvePath image base = Ok image.
Proof.
  intros [->|(q & -> & N & S)]; [now left|]. right.
  cbn [_resolvePath]. now rewrite S.
Qed.

(** X24.  Path resolution is idempotent for an absolute theme base: when
    the base starts with ["/"] or ["http"], resolving the images of a
    configuration [parse] returned against the same base once more changes
    nothing. *)
Theorem resolved_paths_are_stable (rawConfig : jsval) (themeBase : string)
  (config : NormalizedConfig) (warnings : list string) :
  String.eqb themeBase EmptyString = false ->
  Str.startsWith themeBase "http" || Str.startsWith themeBase "/" = true ->
  parse rawConfig themeBase = Ok (config, warnings) ->
  _resolveImagePaths config themeBase = Ok config.
Proof.
  intros N A H.
  destruct (PathResults.parse_resolves_images _ _ _ _ N H) as (F & B & _).
  apply (resolved_is_absolute _ _ (absolute_base _ A)) in F, B.
  unfold _resolveImagePaths. rewrite N. fold (theme_base themeBase).
  destruct config as [f b areas]. cbn [front back contentArea] in *.
  destruct (resolve_absolute _ (theme_base themeBase) F) as [Tf|Rf];
    destruct (resolve_absolute _ (theme_base themeBase) B) as [Tb|Rb].
  - rewrite Tf. cbn [bind back]. now rewrite Tb.
  - rewrite Tf. cbn [bind back]. rewrite Rb. cbn [bind].
    rewrite ImagePathFacts.set_image_same. now destruct (truthy (SideConfig.image b)).
  - rewrite Rf. cbn [bind]. rewrite ImagePathFacts.set_image_same.
    destruct (truthy (SideConfig.image f)); cbn [bind back]; now rewrite Tb.
  - rewrite Rf. cbn [bind]. rewrite ImagePathFacts.set_image_same.
    destruct (truthy (SideConfig.image f)); cbn [bind back]; rewrite Rb;
      cbn [bind]; rewrite ImagePathFacts.set_image_same;
      now destruct (truthy (SideConfig.image b)).
Qed.

Lemma resolved_paths_are_stable_witness :
  exists config warnings,
    parse (VObj [("front", VObj [("image", VStr "./frame-A.png")])])
      "/static/realpic/themes/postcard"
    = Ok (config, warnings)
    /\ _resolveImagePaths config "/static/realpic/themes/postcard" = Ok config.
Proof.
  eexists _, _. split; [reflexivity|].
  apply (resolved_paths_are_stable
           (VObj [("front", VObj [("image", VStr "./frame-A.png")])])
           "/static/realpic/themes/postcard" _ _ eq_refl eq_refl eq_refl).
Defined.

Lemma run_snoc (s : t) (es : list event) (e : event) :
  run s (es ++ [e]) = step (run s es) e.
Proof. unfold run. now rewrite fold_left_app. Qed.

(** X25.  Only [show()] and [hide()] change visibility: over any sequence
    of [flip], [reset] and timer callbacks the hidden class stays as it
    was, so a flip never reveals a hidden card; after any sequence that
    ends with [show()] the card is visible, after any that ends with
    [hide()] it is not. *)
Theorem visibility_follows_show_and_hide (s : t) (es : list event) :
  (Forall (fun e => e = Flip \/ e = Timeout \/ e = Reset) es ->
   isVisible (run s es) = isVisible s)
  /\ isVisible (run s (es ++ [Show])) = true
  /\ isVisible (run s (es ++ [Hide])) = false.
Proof.
  split; [|split].
  - intros F. revert s. induction F as [|e es He _ IH]; intros s; [reflexivity|].
    cbn [run fold_left]. change (fold_left step es (step s e)) with (run (step s e) es).
    rewrite IH. unfold isVisible.
    destruct He as [-> | [-> | ->]]; cbn [step].
    + unfold flip. now destruct (isAnimating s).
    + unfold timeout. now destruct (timers s).
    + reflexivity.
  - now rewrite run_snoc.
  - now rewrite run_snoc.
Qed.

Lemma visibility_follows_show_and_hide_witness :
  isVisible (run Examples.fresh [Flip; Timeout; Reset; Flip])
  = isVisible Examples.fresh.
Proof.
  apply (proj1 (visibility_follows_show_and_hide Examples.fresh
                  [Flip; Timeout; Reset; Flip])).
  repeat (apply List.Forall_cons; [auto|]). apply List.Forall_nil.
Defined.

Section ZeroCard.

Import F64 Rounding F64Facts LayoutFacts.

Local Open Scope Q_scope.








End ZeroCard.

(** X27.  A string that does not start with a number (after white space)
    resolves to [NaN], whatever its suffix and whatever the base size. *)
Theorem unparseable_dimension_is_NaN (s : string) (b : jsnum) :
  Str.parseFloat (Str.trim s) = NaN ->
  _parseDimension (DStr s) b = NaN.
Proof.
  intros P. unfold _parseDimension. rewrite P.
  destruct (Str.endsWith (Str.trim s) "%"); [reflexivity|].
  now destruct (Str.endsWith (Str.trim s) "px").
Qed.

Lemma unparseable_dimension_is_NaN_witness :
  _parseDimension (DStr " auto% ") (Fin 800) = NaN
  /\ _parseDimension (DStr "px") (Fin 800) = NaN.
Proof.
  split; apply unparseable_dimension_is_NaN; reflexivity.
Defined.

(** X28.  An explicit size wins over every image: a front or back width or
    height that the configuration gives (anything but [null] and
    [undefined]) is returned by [getDimensions] unchanged whatever images
    are loaded, and with its own type: a size given as a string stays that
    string. *)
Theorem explicit_size_wins (config : NormalizedConfig)
  (loadedImages : gmap string Asset.t) :
  (nullish (SideConfig.width (front config)) = false ->
   Size.width (dim_front (getDimensions config loadedImages))
   = SideConfig.width (front config)
   /\ Size.width (realpic (getDimensions config loadedImages))
      = SideConfig.width (front config))
  /\ (nullish (SideConfig.height (front config)) = false ->
      Size.height (dim_front (getDimensions config loadedImages))
      = SideConfig.height (front config)
      /\ Size.height (realpic (getDimensions config loadedImages))
         = SideConfig.height (front config))
  /\ (nullish (SideConfig.width (back config)) = false ->
      Size.width (dim_back (getDimensions config loadedImages))
      = SideConfig.width (back config))
  /\ (nullish (SideConfig.height (back config)) = false ->
      Size.height (dim_back (getDimensions config loadedImages))
      = SideConfig.height (back config)).
Proof.
  split; [|split; [|split]]; intros N.
  - now apply DimensionFacts.front_width_explicit.
  - now apply DimensionFacts.front_height_explicit.
  - now apply DimensionFacts.back_width_explicit.
  - now apply DimensionFacts.back_height_explicit.
Qed.

Lemma explicit_size_wins_witness :
  Size.width
    (dim_front
       (getDimensions
          (mkConfig (SideConfig.mk VNull (VStr "#fff") (VStr "800") VNull)
             (SideConfig.mk VNull (VStr "#fff") (VStr "800") VNull) [])
          {[ "frontFrame" := Asset.mk 1036 730 "/themes/x/a.png" ]}))
  = VStr "800".
Proof.
  exact (proj1 (proj1 (explicit_size_wins
                  (mkConfig (SideConfig.mk VNull (VStr "#fff") (VStr "800") VNull)
                     (SideConfig.mk VNull (VStr "#fff") (VStr "800") VNull) [])
                  {[ "frontFrame" := Asset.mk 1036 730 "/themes/x/a.png" ]})
                 eq_refl)).
Defined.

End EdgeResults.
